(** * Task scheduler: the task store and its persistence (script.js)

    A shallow embedding of the [Task] and [TaskManager] classes of
    [src/script.js], and the properties the specification states about
    them.

    Modelling conventions.
    - Task fields are dynamically typed in the source; here they range over
      [value]: [undefined] and the JSON primitives.  Numbers are integers
      (fractional numbers are floating point and are left out).  A field
      whose value is itself an array or an object is outside the model.
    - A [Date] object holds a time value: an integer number of milliseconds,
      or [NaN] for an invalid date.
    - The host (clock, date parsing and printing, JSON text, [trim]) is a
      [Platform]; the program is a function of it.  The clock is read
      through a counter of the calls made so far, so that two readings may
      or may not fall in the same millisecond.
    - [Array.prototype.sort] is a stable insertion sort; on a consistent
      comparator that is the result of any stable sort.  Where the
      comparator is not consistent (a priority outside the enumeration, an
      invalid date) the order is the engine's own: what is stated of such
      a store is about the tasks it holds, not about their order.
    - [localStorage] is reduced to the one key the program uses, ['tasks'];
      [setItem] is taken to succeed (no quota).
    - Statements run in a small state-and-exception monad over [State]:
      a statement returns a completion, normal or thrown, and the state it
      leaves. *)

From Stdlib Require Import ZArith List String Ascii Bool Lia.
From Stdlib Require Import Permutation Sorted DecimalString DecimalZ DecimalPos.
Import ListNotations.

Local Open Scope string_scope.
Local Open Scope Z_scope.

(** ** JavaScript values *)

(** [undefined] and the JSON primitives. *)
Inductive value : Type :=
| VUndefined
| VNull
| VBool (b : bool)
| VNum (z : Z)
| VStr (s : string).

(** A JavaScript number as this program meets it: an integer or [NaN]. *)
Inductive number : Type :=
| Num (z : Z)
| NaN.

(** A parsed JSON text.  Object members are primitives; the order of the
    members is the order of the text. *)
#[warnings="-register-all"]
Inductive json : Type :=
| JVal (v : value)
| JArr (elems : list json)
| JObj (members : list (string * value)).

Inductive error : Type :=
| SyntaxError
| TypeError
| RangeError
| Error (message : string).

(** [Number.prototype.toString] on an integer: its decimal numeral. *)
Definition Z_toString (z : Z) : string :=
  NilEmpty.string_of_int (Z.to_int z).

Definition value_eq_dec (v w : value) : {v = w} + {v <> w}.
Proof.
  decide equality;
    [apply Bool.bool_dec | apply Z.eq_dec | apply string_dec].
Defined.

(** [v === w] on primitives. *)
Definition strict_equal (v w : value) : bool :=
  if value_eq_dec v w then true else false.

(** [ToBoolean]. *)
Definition ToBoolean (v : value) : bool :=
  match v with
  | VUndefined | VNull => false
  | VBool b => b
  | VNum z => negb (z =? 0)
  | VStr s => negb (s =? "")%string
  end.

(** [ToString] on a primitive, as used for a property key. *)
Definition ToPropertyKey (v : value) : string :=
  match v with
  | VUndefined => "undefined"
  | VNull => "null"
  | VBool true => "true"
  | VBool false => "false"
  | VNum z => Z_toString z
  | VStr s => s
  end.

(** [TimeClip]: a time value is at most 8.64e15 ms away from the epoch. *)
Definition TimeClip (z : Z) : number :=
  if Z.abs z <=? 8640000000000000 then Num z else NaN.

(** [x - y] on numbers. *)
Definition number_sub (x y : number) : number :=
  match x, y with
  | Num a, Num b => Num (a - b)
  | _, _ => NaN
  end.

(** ** The host platform *)

Class Platform : Type := {
  (** the reading of the [n]-th call of [Date.now()] *)
  Date_now : nat -> Z;
  (** [Date.parse] *)
  Date_parse : string -> number;
  (** [Date.prototype.toISOString] on a valid time value *)
  Date_toISOString : Z -> string;
  (** [JSON.parse]; [None] is a [SyntaxError] *)
  JSON_parse : string -> option json;
  (** [JSON.stringify] *)
  JSON_stringify : json -> string;
  (** [String.prototype.trim] *)
  String_trim : string -> string;
  (** the empty string is not a date *)
  Date_parse_empty : Date_parse EmptyString = NaN
}.

(** ** Dates *)

Record Date : Type := mkDate { getTime : number }.

Definition isValidDate (d : Date) : bool :=
  match getTime d with Num _ => true | NaN => false end.

(** [new Date(v)] for a primitive [v]. *)
Definition new_Date `{Platform} (v : value) : Date :=
  mkDate match v with
         | VStr s => Date_parse s
         | VUndefined => NaN
         | VNull => Num 0
         | VBool b => Num (if b then 1 else 0)
         | VNum z => TimeClip z
         end.

(** ** Tasks *)

Record Task : Type := mkTask {
  id : value;
  name : value;
  description : value;
  dueDate : Date;
  priority : value;
  isCompleted : value
}.

Definition set_id (t : Task) (v : value) : Task :=
  mkTask v (name t) (description t) (dueDate t) (priority t) (isCompleted t).

Definition set_isCompleted (t : Task) (v : value) : Task :=
  mkTask (id t) (name t) (description t) (dueDate t) (priority t) v.

(** ** Machine state and the statement monad *)

Record State : Type := mkState {
  tasks : list Task;            (* this.tasks *)
  storage : option string;      (* localStorage, key 'tasks' *)
  ticks : nat;                  (* calls of Date.now() so far *)
  console : list string;        (* console.error, oldest first *)
  alerts : list string          (* alert, oldest first *)
}.

Definition set_tasks (s : State) (l : list Task) : State :=
  mkState l (storage s) (ticks s) (console s) (alerts s).

Inductive completion (A : Type) : Type :=
| Normal (a : A)
| Throw (e : error).
Arguments Normal {A} a.
Arguments Throw {A} e.

Definition M (A : Type) : Type := State -> completion A * State.

Definition ret {A} (a : A) : M A := fun s => (Normal a, s).

Definition throw {A} (e : error) : M A := fun s => (Throw e, s).

Definition bind {A B} (m : M A) (k : A -> M B) : M B :=
  fun s =>
    match m s with
    | (Normal a, s') => k a s'
    | (Throw e, s') => (Throw e, s')
    end.

(** [try { m } catch (e) { h e }] *)
Definition try_catch {A} (m : M A) (h : error -> M A) : M A :=
  fun s =>
    match m s with
    | (Normal a, s') => (Normal a, s')
    | (Throw e, s') => h e s'
    end.

Declare Scope js_scope.
Delimit Scope js_scope with js.
Notation "x <- m ;; k" := (bind m (fun x => k))
  (at level 61, m at next level, right associativity) : js_scope.
Notation "m ;;; k" := (bind m (fun _ => k))
  (at level 61, right associativity) : js_scope.
Local Open Scope js_scope.

Definition get_tasks : M (list Task) := fun s => (Normal (tasks s), s).

Definition put_tasks (l : list Task) : M unit :=
  fun s => (Normal tt, set_tasks s l).

Definition localStorage_getItem : M (option string) :=
  fun s => (Normal (storage s), s).

Definition localStorage_setItem (txt : string) : M unit :=
  fun s =>
    (Normal tt, mkState (tasks s) (Some txt) (ticks s) (console s) (alerts s)).

Definition console_error (msg : string) : M unit :=
  fun s =>
    (Normal tt,
     mkState (tasks s) (storage s) (ticks s) (console s ++ [msg]) (alerts s)).

Definition alert (msg : string) : M unit :=
  fun s =>
    (Normal tt,
     mkState (tasks s) (storage s) (ticks s) (console s) (alerts s ++ [msg])).

Definition Date_now_call `{Platform} : M Z :=
  fun s =>
    (Normal (Date_now (ticks s)),
     mkState (tasks s) (storage s) (S (ticks s)) (console s) (alerts s)).

(** [mapM f l]: [l.map(f)] for a callback with effects, left to right. *)
Fixpoint mapM {A B} (f : A -> M B) (l : list A) : M (list B) :=
  match l with
  | [] => ret []
  | a :: l' => b <- f a ;; bs <- mapM f l' ;; ret (b :: bs)
  end.

(** ** class Task *)

(** [new Task(name, description, dueDate, priority, isCompleted)]; the last
    parameter defaults to [false] when it is [undefined]. *)
Definition Task_new `{Platform}
    (name description : value) (dueDate : Date) (priority isCompleted : value)
  : M Task :=
  now <- Date_now_call ;;
  ret (mkTask (VStr (Z_toString now)) name description dueDate priority
         (match isCompleted with VUndefined => VBool false | v => v end)).

(** ** class TaskManager *)

(** *** sortTasks *)

(** What a property read on the object literal [priorityOrder] yields: one
    of its own three numbers, a member inherited from [Object.prototype]
    (every one a distinct object), or [undefined]. *)
Inductive property : Type :=
| Own (rank : Z)
| Inherited (key : string)
| Absent.

Definition Object_prototype_keys : list string :=
  [ "constructor"; "hasOwnProperty"; "isPrototypeOf"; "propertyIsEnumerable";
    "toLocaleString"; "toString"; "valueOf"; "__proto__";
    "__defineGetter__"; "__defineSetter__";
    "__lookupGetter__"; "__lookupSetter__" ].

(** [priorityOrder[k]] for [{ "High": 1, "Medium": 2, "Low": 3 }]. *)
Definition priorityOrder (k : string) : property :=
  if (k =? "High")%string then Own 1
  else if (k =? "Medium")%string then Own 2
  else if (k =? "Low")%string then Own 3
  else if existsb (String.eqb k) Object_prototype_keys then Inherited k
  else Absent.

(** [p !== q] on two such reads. *)
Definition property_differs (p q : property) : bool :=
  match p, q with
  | Own a, Own b => negb (a =? b)
  | Inherited k, Inherited k' => negb (k =? k')%string
  | Absent, Absent => false
  | _, _ => true
  end.

(** [p - q]: a number only when both are numbers. *)
Definition property_sub (p q : property) : number :=
  match p, q with
  | Own a, Own b => Num (a - b)
  | _, _ => NaN
  end.

(** The arrow function handed to [this.tasks.sort]. *)
Definition compareFn (a b : Task) : number :=
  if negb (strict_equal (isCompleted a) (isCompleted b)) then
    (if ToBoolean (isCompleted a) then Num 1 else Num (-1))
  else
    let pa := priorityOrder (ToPropertyKey (priority a)) in
    let pb := priorityOrder (ToPropertyKey (priority b)) in
    if property_differs pa pb then property_sub pa pb
    else number_sub (getTime (dueDate a)) (getTime (dueDate b)).

(** [SortCompare]: the comparator's result, with [NaN] read as [+0]. *)
Definition SortCompare (a b : Task) : Z :=
  match compareFn a b with
  | Num z => z
  | NaN => 0
  end.

(** [Array.prototype.sort] with a comparator, as a stable insertion sort:
    an element goes in front of the first later element it does not
    compare greater than.  For a consistent comparator a stable sort has
    one possible result, and this is it (see [stable_sort_unique]); for an
    inconsistent one the order is implementation-defined, and this is one
    of the permitted outcomes. *)
Fixpoint Array_sort_insert {A} (cmp : A -> A -> Z) (x : A) (l : list A)
  : list A :=
  match l with
  | [] => [x]
  | y :: l' =>
      if cmp x y <=? 0 then x :: y :: l'
      else y :: Array_sort_insert cmp x l'
  end.

Fixpoint Array_sort {A} (cmp : A -> A -> Z) (l : list A) : list A :=
  match l with
  | [] => []
  | x :: l' => Array_sort_insert cmp x (Array_sort cmp l')
  end.

(** [a] is not after [b]. *)
Definition not_after {A} (cmp : A -> A -> Z) (a b : A) : Prop :=
  cmp a b <= 0.

(** [a] and [b] compare equal. *)
Definition ties {A} (cmp : A -> A -> Z) (a b : A) : bool := cmp a b =? 0.

(** A consistent comparison function on the elements satisfying [dom]:
    [b] is before [a] exactly when [a] is after [b], and not-after is
    transitive. *)
Definition consistent_on {A} (dom : A -> Prop) (cmp : A -> A -> Z) : Prop :=
  (forall a b, dom a -> dom b -> (0 < cmp a b <-> cmp b a < 0))
  /\ (forall a b c, dom a -> dom b -> dom c ->
                    cmp a b <= 0 -> cmp b c <= 0 -> cmp a c <= 0).

(** [l'] is [l] sorted by [cmp], elements that compare equal left in the
    order they had. *)
Definition stable_sort_of {A} (cmp : A -> A -> Z) (l l' : list A) : Prop :=
  Permutation l l'
  /\ Sorted (not_after cmp) l'
  /\ (forall a, In a l -> filter (ties cmp a) l' = filter (ties cmp a) l).

Definition sortTasks : M unit :=
  l <- get_tasks ;;
  put_tasks (Array_sort SortCompare l).

(** *** saveTasks *)

(** [d.toISOString()]: a [RangeError] on an invalid date. *)
Definition toISOString `{Platform} (d : Date) : M string :=
  match getTime d with
  | Num z => ret (Date_toISOString z)
  | NaN => throw RangeError
  end.

(** The object literal built for one task. *)
Definition task_record `{Platform} (task : Task) : M json :=
  iso <- toISOString (dueDate task) ;;
  ret (JObj [ ("id", id task);
              ("name", name task);
              ("description", description task);
              ("dueDate", VStr iso);
              ("priority", priority task);
              ("isCompleted", isCompleted task) ]).

Definition saveTasks `{Platform} : M unit :=
  l <- get_tasks ;;
  records <- mapM task_record l ;;
  localStorage_setItem (JSON_stringify (JArr records)).

(** *** loadTasks *)

Fixpoint lookup_member (k : string) (m : list (string * value)) : value :=
  match m with
  | [] => VUndefined
  | (k', v) :: m' => if (k =? k')%string then v else lookup_member k m'
  end.

(** [data.k] for the six keys the loader reads: a [TypeError] on [null]
    (and [undefined]); [undefined] on a boolean, number, string or array,
    none of which has such a property; the member, if any, on an object. *)
Definition get_property (data : json) (k : string) : M value :=
  match data with
  | JVal VNull | JVal VUndefined => throw TypeError
  | JVal _ | JArr _ => ret VUndefined
  | JObj m => ret (lookup_member k m)
  end.

(** The callback of [JSON.parse(tasksJson).map]. *)
Definition load_record `{Platform} (data : json) : M Task :=
  n <- get_property data "name" ;;
  d <- get_property data "description" ;;
  due <- get_property data "dueDate" ;;
  p <- get_property data "priority" ;;
  c <- get_property data "isCompleted" ;;
  task <- Task_new n d (new_Date due) p c ;;
  i <- get_property data "id" ;;
  i' <- (if ToBoolean i then ret i
         else now <- Date_now_call ;; ret (VStr (Z_toString now))) ;;
  ret (set_id task i').

(** [v.map(f)]: only an array has a [map] to call. *)
Definition Array_map {B} (v : json) (f : json -> M B) : M (list B) :=
  match v with
  | JArr elems => mapM f elems
  | _ => throw TypeError
  end.

Definition loadTasks `{Platform} : M (list Task) :=
  tasksJson <- localStorage_getItem ;;
  match tasksJson with
  | Some txt =>
      if negb (txt =? "")%string then
        try_catch
          (match JSON_parse txt with
           | Some v => Array_map v load_record
           | None => throw SyntaxError
           end)
          (fun e =>
             console_error "Error loading tasks from local storage:" ;;;
             ret [])
      else ret []
  | None => ret []
  end.

(** [new TaskManager()] *)
Definition TaskManager_new `{Platform} : M unit :=
  l <- loadTasks ;;
  put_tasks l.

(** *** addTask *)

Definition addTask `{Platform}
    (name description dueDateStr priority : value) : M bool :=
  try_catch
    (let dueDate := new_Date dueDateStr in
     if negb (isValidDate dueDate) then throw (Error "Invalid date format.")
     else
       newTask <- Task_new name description dueDate priority VUndefined ;;
       l <- get_tasks ;;
       put_tasks (l ++ [newTask]) ;;;
       sortTasks ;;;
       saveTasks ;;;
       ret true)
    (fun e =>
       console_error "Error adding task:" ;;;
       alert
         "Error: Invalid date/time. Please ensure it's a valid date and time." ;;;
       ret false).

(** *** removeTask *)

Definition removeTask `{Platform} (taskId : value) : M bool :=
  l <- get_tasks ;;
  let initialLength := List.length l in
  put_tasks (filter (fun task => negb (strict_equal (id task) taskId)) l) ;;;
  l' <- get_tasks ;;
  if (List.length l' <? initialLength)%nat then saveTasks ;;; ret true
  else ret false.

(** *** toggleCompleteTask *)

(** The index of the task [Array.prototype.find] returns. *)
Fixpoint find_index (p : Task -> bool) (l : list Task) : option nat :=
  match l with
  | [] => None
  | t :: l' =>
      if p t then Some O else option_map S (find_index p l')
  end.

(** In-place update of the object held at index [i]. *)
Fixpoint update_at (i : nat) (f : Task -> Task) (l : list Task) : list Task :=
  match l, i with
  | [], _ => []
  | t :: l', O => f t :: l'
  | t :: l', S i' => t :: update_at i' f l'
  end.

Definition flip_isCompleted (t : Task) : Task :=
  set_isCompleted t (VBool (negb (ToBoolean (isCompleted t)))).

Definition toggleCompleteTask `{Platform} (taskId : value) : M bool :=
  l <- get_tasks ;;
  match find_index (fun t => strict_equal (id t) taskId) l with
  | Some i =>
      put_tasks (update_at i flip_isCompleted l) ;;;
      sortTasks ;;;
      saveTasks ;;;
      ret true
  | None => ret false
  end.

(** *** The submit handler of the form *)

Definition required_alert : string :=
  "Task Name and Due Date are required!".

(** The callback of the form's [submit] event, on the values of its four
    inputs.  Of the rendering that follows a successful add
    ([hideModal], [updateTaskListUI], [clearTaskDetails]) the model keeps
    the one step that touches the store, the [sortTasks] that
    [updateTaskListUI] starts with. *)
Definition addTaskForm_submit `{Platform}
    (nameInput descriptionInput dueDateInput priorityInput : string)
  : M unit :=
  let name := String_trim nameInput in
  let description := String_trim descriptionInput in
  let dueDate := dueDateInput in
  let priority := priorityInput in
  if negb (name =? "")%string && negb (dueDate =? "")%string then
    added <- addTask (VStr name) (VStr description) (VStr dueDate)
               (VStr priority) ;;
    if added then sortTasks else ret tt
  else alert required_alert.

(** *** getTaskById *)

Definition getTaskById (taskId : value) : M (option Task) :=
  l <- get_tasks ;;
  ret (find (fun t => strict_equal (id t) taskId) l).

(** ** What the program leaves in storage *)

(** The record [saveTasks] builds for a task, when its date can be
    printed. *)
Definition record_of `{Platform} (t : Task) : option json :=
  match getTime (dueDate t) with
  | Num z =>
      Some (JObj [ ("id", id t);
                   ("name", name t);
                   ("description", description t);
                   ("dueDate", VStr (Date_toISOString z));
                   ("priority", priority t);
                   ("isCompleted", isCompleted t) ])
  | NaN => None
  end.

Fixpoint records_of `{Platform} (l : list Task) : option (list json) :=
  match l with
  | [] => Some []
  | t :: l' =>
      match record_of t, records_of l' with
      | Some r, Some rs => Some (r :: rs)
      | _, _ => None
      end
  end.

(** The text [saveTasks] stores for the collection [l]. *)
Definition saved_text `{Platform} (l : list Task) : option string :=
  option_map (fun rs => JSON_stringify (JArr rs)) (records_of l).

(** ** The data model of the specification *)

Definition is_defined (v : value) : bool :=
  match v with VUndefined => false | _ => true end.

Definition is_string (v : value) : bool :=
  match v with VStr _ => true | _ => false end.

Definition is_boolean (v : value) : bool :=
  match v with VBool _ => true | _ => false end.

(** Priority rank: High < Medium < Low. *)
Definition priorityRank (v : value) : option Z :=
  match v with
  | VStr s =>
      if (s =? "High")%string then Some 1
      else if (s =? "Medium")%string then Some 2
      else if (s =? "Low")%string then Some 3
      else None
  | _ => None
  end.

Definition is_priority (v : value) : bool :=
  match priorityRank v with Some _ => true | None => false end.

(** A task the sort rule speaks about: a boolean completion flag, a
    priority of the enumeration, a valid due date. *)
Definition sortable (t : Task) : bool :=
  is_boolean (isCompleted t) && is_priority (priority t)
  && isValidDate (dueDate t).

(** A task [saveTasks] can write and [loadTasks] read back: an id that is
    set, a valid due date, no field left [undefined]. *)
Definition storable (t : Task) : bool :=
  ToBoolean (id t) && is_defined (name t) && is_defined (description t)
  && isValidDate (dueDate t) && is_defined (priority t)
  && is_defined (isCompleted t).

(** A task of the data model (section 3 of the specification). *)
Definition well_formed (t : Task) : bool :=
  is_string (id t) && ToBoolean (id t) && is_string (name t)
  && is_string (description t) && isValidDate (dueDate t)
  && is_priority (priority t) && is_boolean (isCompleted t).

(** The sort key tuple (completed, priorityRank, dueDate). *)
Definition sortKey (t : Task) : option (Z * Z * Z) :=
  match isCompleted t, priorityRank (priority t), getTime (dueDate t) with
  | VBool c, Some p, Num d => Some (if c then 1 else 0, p, d)
  | _, _, _ => None
  end.

(** Lexicographic order on key tuples. *)
Definition key_le (k1 k2 : Z * Z * Z) : Prop :=
  let '(c1, p1, d1) := k1 in
  let '(c2, p2, d2) := k2 in
  c1 < c2 \/ (c1 = c2 /\ (p1 < p2 \/ (p1 = p2 /\ d1 <= d2))).

Definition task_le (a b : Task) : Prop :=
  exists ka kb, sortKey a = Some ka /\ sortKey b = Some kb /\ key_le ka kb.

(** Every adjacent pair is in key order. *)
Definition ordered (l : list Task) : Prop :=
  forall i a b,
    nth_error l i = Some a -> nth_error l (S i) = Some b -> task_le a b.

(** No two positions of the collection carry the same id. *)
Definition unique_ids (l : list Task) : Prop :=
  NoDup (map id l).

(** ** Mutations of the store *)

Inductive mutation : Type :=
| Add (name description dueDateInput priority : value)
| Remove (taskId : value)
| ToggleComplete (taskId : value).

Definition run_mutation `{Platform} (op : mutation) : M bool :=
  match op with
  | Add n d due p => addTask n d due p
  | Remove i => removeTask i
  | ToggleComplete i => toggleCompleteTask i
  end.

(** The inputs the interface offers: a priority of the enumeration. *)
Definition mutation_ok (op : mutation) : bool :=
  match op with
  | Add _ _ _ p => is_priority p
  | _ => true
  end.

(** The inputs of the data model: name and description are strings as
    well. *)
Definition mutation_well_formed (op : mutation) : bool :=
  match op with
  | Add n d _ p => is_string n && is_string d && is_priority p
  | _ => true
  end.

Fixpoint run_mutations `{Platform} (ops : list mutation) (s : State) : State :=
  match ops with
  | [] => s
  | op :: ops' => run_mutations ops' (snd (run_mutation op s))
  end.

(** ** A reference host

    One concrete [Platform], used to run the program on concrete inputs: a
    clock given by its readings, ISO 8601 dates in the UTC time zone, and
    JSON text for the documents of the model. *)
Module Host.

Definition obind {A B} (o : option A) (k : A -> option B) : option B :=
  match o with
  | Some a => k a
  | None => None
  end.

Notation "' p <~ o ; k" := (obind o (fun p => k))
  (at level 61, p pattern, o at next level, right associativity).

Definition dquote : ascii := "034"%char.
Definition backslash : ascii := "092"%char.

Definition code (c : ascii) : Z := Z.of_nat (nat_of_ascii c).

Definition digit_of (c : ascii) : option Z :=
  let n := code c in
  if (48 <=? n) && (n <=? 57) then Some (n - 48) else None.

(** Exactly [n] decimal digits. *)
Fixpoint read_digits (n : nat) (acc : Z) (s : string) : option (Z * string) :=
  match n with
  | O => Some (acc, s)
  | S n' =>
      match s with
      | String c s' =>
          match digit_of c with
          | Some d => read_digits n' (10 * acc + d) s'
          | None => None
          end
      | EmptyString => None
      end
  end.

Definition read_char (c : ascii) (s : string) : option string :=
  match s with
  | String c' s' => if Ascii.eqb c c' then Some s' else None
  | EmptyString => None
  end.

Fixpoint zeros (n : nat) : string :=
  match n with
  | O => EmptyString
  | S n' => String "0" (zeros n')
  end.

(** A natural number in at least [n] digits. *)
Definition pad (n : nat) (z : Z) : string :=
  let d := Z_toString z in
  zeros (n - String.length d) ++ d.

(** *** The proleptic Gregorian calendar *)

Definition civil_from_days (days : Z) : Z * Z * Z :=
  let z := days + 719468 in
  let era := z / 146097 in
  let doe := z - era * 146097 in
  let yoe := (doe - doe / 1460 + doe / 36524 - doe / 146096) / 365 in
  let doy := doe - (365 * yoe + yoe / 4 - yoe / 100) in
  let mp := (5 * doy + 2) / 153 in
  let d := doy - (153 * mp + 2) / 5 + 1 in
  let m := if mp <? 10 then mp + 3 else mp - 9 in
  let y := yoe + era * 400 + (if m <=? 2 then 1 else 0) in
  (y, m, d).

Definition days_from_civil (y m d : Z) : Z :=
  let y' := if m <=? 2 then y - 1 else y in
  let era := y' / 400 in
  let yoe := y' - era * 400 in
  let doy := (153 * (if 2 <? m then m - 3 else m + 9) + 2) / 5 + d - 1 in
  let doe := yoe * 365 + yoe / 4 - yoe / 100 + doy in
  era * 146097 + doe - 719468.

Definition is_leap (y : Z) : bool :=
  ((y mod 4 =? 0) && negb (y mod 100 =? 0)) || (y mod 400 =? 0).

Definition days_in_month (y m : Z) : Z :=
  if m =? 2 then (if is_leap y then 29 else 28)
  else if (m =? 4) || (m =? 6) || (m =? 9) || (m =? 11) then 30
  else 31.

Definition ms_per_day : Z := 86400000.

(** [YYYY-MM-DDTHH:mm:ss.sssZ], with a signed six-digit year outside
    0..9999. *)
Definition toISOString (t : Z) : string :=
  let '(y, m, d) := civil_from_days (t / ms_per_day) in
  let ms := t mod ms_per_day in
  let year :=
    if (0 <=? y) && (y <=? 9999) then pad 4 y
    else ((if (y <? 0)%Z then "-" else "+") ++ pad 6 (Z.abs y))%string in
  (year ++ "-" ++ pad 2 m ++ "-" ++ pad 2 d ++ "T"
   ++ pad 2 (ms / 3600000) ++ ":" ++ pad 2 (ms / 60000 mod 60) ++ ":"
   ++ pad 2 (ms / 1000 mod 60) ++ "." ++ pad 3 (ms mod 1000) ++ "Z")%string.

Definition read_year (s : string) : option (Z * string) :=
  match s with
  | String "+" s' => read_digits 6 0 s'
  | String "-" s' => ' (y, r) <~ read_digits 6 0 s' ; Some (- y, r)
  | _ => read_digits 4 0 s
  end.

(** An optional [:ss] after the minutes. *)
Definition read_seconds (s : string) : option (Z * string) :=
  match s with
  | String ":" s' => read_digits 2 0 s'
  | _ => Some (0, s)
  end.

(** An optional [.sss] after the seconds. *)
Definition read_millis (s : string) : option (Z * string) :=
  match s with
  | String "." s' => read_digits 3 0 s'
  | _ => Some (0, s)
  end.

(** The date-time forms of the ISO format: [YYYY-MM-DDTHH:mm], with
    optional seconds, milliseconds and [Z].  A form without [Z] is local
    time, which on this host is UTC. *)
Definition parse_iso (s : string) : option Z :=
  ' (y, s) <~ read_year s ;
  ' s <~ read_char "-" s ;
  ' (m, s) <~ read_digits 2 0 s ;
  ' s <~ read_char "-" s ;
  ' (d, s) <~ read_digits 2 0 s ;
  ' s <~ read_char "T" s ;
  ' (h, s) <~ read_digits 2 0 s ;
  ' s <~ read_char ":" s ;
  ' (mi, s) <~ read_digits 2 0 s ;
  ' (sec, s) <~ read_seconds s ;
  ' (ms, s) <~ read_millis s ;
  let rest := match s with String "Z" s' => s' | _ => s end in
  if (rest =? "")%string && (1 <=? m) && (m <=? 12) && (1 <=? d)
     && (d <=? days_in_month y m) && (h <=? 23) && (mi <=? 59)
     && (sec <=? 59)
  then Some (days_from_civil y m d * ms_per_day
             + h * 3600000 + mi * 60000 + sec * 1000 + ms)
  else None.

Definition parse (s : string) : number :=
  match parse_iso s with
  | Some t => TimeClip t
  | None => NaN
  end.

(** *** JSON text *)

Definition hex_digit (n : Z) : ascii :=
  ascii_of_nat (Z.to_nat (if n <? 10 then 48 + n else 87 + n)).

Definition escape (c : ascii) : string :=
  let n := code c in
  if n =? 34 then String backslash (String dquote EmptyString)
  else if n =? 92 then String backslash (String backslash EmptyString)
  else if n =? 8 then String backslash "b"
  else if n =? 9 then String backslash "t"
  else if n =? 10 then String backslash "n"
  else if n =? 12 then String backslash "f"
  else if n =? 13 then String backslash "r"
  else if n <? 32 then
    String backslash
      (String "u" (String "0" (String "0"
         (String (hex_digit (n / 16))
            (String (hex_digit (n mod 16)) EmptyString)))))
  else String c EmptyString.

Fixpoint quote_body (s : string) : string :=
  match s with
  | EmptyString => EmptyString
  | String c s' => (escape c ++ quote_body s')%string
  end.

Definition quote (s : string) : string :=
  String dquote (quote_body s ++ String dquote EmptyString).

(** A primitive as an array element or member value ([undefined] in an
    array prints as [null]). *)
Definition print_value (v : value) : string :=
  match v with
  | VUndefined | VNull => "null"
  | VBool true => "true"
  | VBool false => "false"
  | VNum z => Z_toString z
  | VStr s => quote s
  end.

(** Members whose value is [undefined] are left out. *)
Fixpoint print_members (m : list (string * value)) : list string :=
  match m with
  | [] => []
  | (_, VUndefined) :: m' => print_members m'
  | (k, v) :: m' => (quote k ++ ":" ++ print_value v)%string :: print_members m'
  end.

Fixpoint json_stringify (j : json) : string :=
  match j with
  | JVal v => print_value v
  | JArr l => ("[" ++ String.concat "," (map json_stringify l) ++ "]")%string
  | JObj m => ("{" ++ String.concat "," (print_members m) ++ "}")%string
  end.

Definition is_ws (c : ascii) : bool :=
  let n := code c in
  (n =? 32) || (n =? 9) || (n =? 10) || (n =? 13).

Fixpoint skip_ws (s : string) : string :=
  match s with
  | String c s' => if is_ws c then skip_ws s' else s
  | EmptyString => s
  end.

Definition hex_of (c : ascii) : option Z :=
  let n := code c in
  if (48 <=? n) && (n <=? 57) then Some (n - 48)
  else if (97 <=? n) && (n <=? 102) then Some (n - 87)
  else if (65 <=? n) && (n <=? 70) then Some (n - 55)
  else None.

Definition unescape (c : ascii) : option ascii :=
  let n := code c in
  if (n =? 34) || (n =? 92) || (n =? 47) then Some c
  else if n =? 98 then Some "008"%char
  else if n =? 116 then Some "009"%char
  else if n =? 110 then Some "010"%char
  else if n =? 102 then Some "012"%char
  else if n =? 114 then Some "013"%char
  else None.

(** The characters of a string literal after its opening quote, and the
    text after its closing quote.  A [\u] escape above 7F is not read. *)
Fixpoint read_string_body (s : string) : option (string * string) :=
  match s with
  | EmptyString => None
  | String c s' =>
      if Ascii.eqb c dquote then Some (EmptyString, s')
      else if Ascii.eqb c backslash then
        match s' with
        | String "u" (String h1 (String h2 (String h3 (String h4 r)))) =>
            ' a <~ hex_of h1 ;
            ' b <~ hex_of h2 ;
            ' c <~ hex_of h3 ;
            ' d <~ hex_of h4 ;
            let n := ((a * 16 + b) * 16 + c) * 16 + d in
            if n <? 128 then
              ' (t, r') <~ read_string_body r ;
              Some (String (ascii_of_nat (Z.to_nat n)) t, r')
            else None
        | String e r =>
            ' x <~ unescape e ;
            ' (t, r') <~ read_string_body r ;
            Some (String x t, r')
        | EmptyString => None
        end
      else if code c <? 32 then None
      else
        ' (t, r) <~ read_string_body s' ;
        Some (String c t, r)
  end.

(** Zero or more further digits. *)
Fixpoint read_more_digits (acc : Z) (s : string) : Z * string :=
  match s with
  | String c s' =>
      match digit_of c with
      | Some d => read_more_digits (10 * acc + d) s'
      | None => (acc, s)
      end
  | EmptyString => (acc, s)
  end.

(** An integer numeral; a fraction or an exponent is not read. *)
Definition read_int (s : string) : option (Z * string) :=
  let '(neg, s1) :=
    match s with
    | String "-" s' => (true, s')
    | _ => (false, s)
    end in
  match s1 with
  | String c s2 =>
      ' d <~ digit_of c ;
      let '(n, r) := if d =? 0 then (0, s2) else read_more_digits d s2 in
      match r with
      | String "." _ | String "e" _ | String "E" _ => None
      | _ => Some (if neg then - n else n, r)
      end
  | EmptyString => None
  end.

Definition read_primitive (s : string) : option (value * string) :=
  match s with
  | String "n" (String "u" (String "l" (String "l" r))) => Some (VNull, r)
  | String "t" (String "r" (String "u" (String "e" r))) =>
      Some (VBool true, r)
  | String "f" (String "a" (String "l" (String "s" (String "e" r)))) =>
      Some (VBool false, r)
  | String c s' =>
      if Ascii.eqb c dquote then
        ' (t, r) <~ read_string_body s' ;
        Some (VStr t, r)
      else
        ' (n, r) <~ read_int s ;
        Some (VNum n, r)
  | EmptyString => None
  end.

(** A member read again replaces the value and keeps the place. *)
Definition add_member (k : string) (v : value) (m : list (string * value))
  : list (string * value) :=
  let later := filter (fun kv => (fst kv =? k)%string) m in
  (k, match later with (_, v') :: _ => v' | [] => v end)
  :: filter (fun kv => negb (fst kv =? k)%string) m.

(** The members of an object, after its first key has been found to
    open. *)
Fixpoint read_members (fuel : nat) (s : string)
  : option (list (string * value) * string) :=
  match fuel with
  | O => None
  | S fuel' =>
      ' s <~ read_char dquote (skip_ws s) ;
      ' (k, r) <~ read_string_body s ;
      ' r <~ read_char ":" (skip_ws r) ;
      ' (v, r) <~ read_primitive (skip_ws r) ;
      match skip_ws r with
      | String "," r' =>
          ' (m, r'') <~ read_members fuel' r' ;
          Some (add_member k v m, r'')
      | String "}" r' => Some ([(k, v)], r')
      | _ => None
      end
  end.

Fixpoint read_value (fuel : nat) (s : string) : option (json * string) :=
  match fuel with
  | O => None
  | S fuel' =>
      match skip_ws s with
      | String "[" s1 =>
          match skip_ws s1 with
          | String "]" s2 => Some (JArr [], s2)
          | _ =>
              ' (l, r) <~ read_elements fuel' s1 ;
              Some (JArr l, r)
          end
      | String "{" s1 =>
          match skip_ws s1 with
          | String "}" s2 => Some (JObj [], s2)
          | _ =>
              ' (m, r) <~ read_members fuel' s1 ;
              Some (JObj m, r)
          end
      | s0 =>
          ' (v, r) <~ read_primitive s0 ;
          Some (JVal v, r)
      end
  end
with read_elements (fuel : nat) (s : string) : option (list json * string) :=
  match fuel with
  | O => None
  | S fuel' =>
      ' (j, r) <~ read_value fuel' s ;
      match skip_ws r with
      | String "," r' =>
          ' (l, r'') <~ read_elements fuel' r' ;
          Some (j :: l, r'')
      | String "]" r' => Some ([j], r')
      | _ => None
      end
  end.

(** A whole text: one value, blanks around it, nothing after. *)
Definition json_parse (s : string) : option json :=
  ' (j, r) <~ read_value (2 * String.length s + 2) s ;
  if (skip_ws r =? "")%string then Some j else None.

(** *** Strings *)

Definition is_space (c : ascii) : bool :=
  let n := code c in
  ((9 <=? n) && (n <=? 13)) || (n =? 32).

Fixpoint trim_start (s : string) : string :=
  match s with
  | String c s' => if is_space c then trim_start s' else s
  | EmptyString => EmptyString
  end.

Fixpoint trim_end (s : string) : string :=
  match s with
  | String c s' =>
      let r := trim_end s' in
      if (r =? "")%string && is_space c then EmptyString else String c r
  | EmptyString => EmptyString
  end.

(** Blanks of the ASCII range removed at both ends. *)
Definition trim (s : string) : string := trim_end (trim_start s).

(** The host whose [n]-th clock reading is [clock n]. *)
Definition platform (clock : nat -> Z) : Platform :=
  {| Date_now := clock;
     Date_parse := parse;
     Date_toISOString := toISOString;
     JSON_parse := json_parse;
     JSON_stringify := json_stringify;
     String_trim := trim;
     Date_parse_empty := eq_refl |}.

(** A clock that has advanced by one millisecond at every reading. *)
Definition ticking (start : Z) : Platform :=
  platform (fun n => start + Z.of_nat n).

(** A clock read several times within one millisecond. *)
Definition frozen (now : Z) : Platform :=
  platform (fun _ => now).

End Host.

(** A session opens on an empty machine: nothing stored, nothing logged. *)
Definition initial_state : State := mkState [] None O [] [].

(** ** Shorthands for the statements *)

Definition load_error_log : string :=
  "Error loading tasks from local storage:".

Definition add_error_log : string := "Error adding task:".

Definition add_error_alert : string :=
  "Error: Invalid date/time. Please ensure it's a valid date and time.".

(** The task [addTask] constructs when it is called in state [s]. *)
Definition created_task `{Platform}
    (s : State) (name description dueDateStr priority : value) : Task :=
  mkTask (VStr (Z_toString (Date_now (ticks s)))) name description
    (new_Date dueDateStr) priority (VBool false).

(** State [s] after the [catch] block of [addTask]. *)
Definition add_failed (s : State) : State :=
  mkState (tasks s) (storage s) (ticks s)
    (console s ++ [add_error_log]) (alerts s ++ [add_error_alert]).

(** State [s] with [txt] written to storage. *)
Definition stored (s : State) (txt : string) : State :=
  mkState (tasks s) (Some txt) (ticks s) (console s) (alerts s).

(** State [s] after [n] more readings of the clock. *)
Definition ticked (s : State) (n : nat) : State :=
  mkState (tasks s) (storage s) (n + ticks s) (console s) (alerts s).

Definition dated (t : Task) : bool := isValidDate (dueDate t).

(** ** Sample data *)

(** 2025-06-01T10:00Z and the day after, in milliseconds. *)
Definition day1 : Z := 1748772000000.
Definition day2 : Z := 1748858400000.

Definition sample_task (i n p : string) (due : Z) (c : bool) : Task :=
  mkTask (VStr i) (VStr n) (VStr "") (mkDate (Num due)) (VStr p) (VBool c).

Definition sample_store : State :=
  mkState [ sample_task "11" "Water plants" "High" day2 false;
            sample_task "12" "Pay rent" "Medium" day1 false;
            sample_task "13" "Call home" "High" day1 true ]
          None O [] [].

Definition unsorted_store : State :=
  set_tasks sample_store
    [ sample_task "13" "Call home" "High" day1 true;
      sample_task "12" "Pay rent" "Medium" day1 false;
      sample_task "11" "Water plants" "High" day2 false;
      sample_task "14" "Buy milk" "High" day1 false ].

(** ** What the round trip asks of the host *)

(** The two guarantees of the language that a round trip of the
    collection [l] rests on: [JSON.parse] reads back the array that
    [JSON.stringify] printed (a text that is not empty), and [Date.parse]
    reads back the time value that [toISOString] printed. *)
Definition round_trips_on `{Platform} (l : list Task) : Prop :=
  (forall rs,
      records_of l = Some rs ->
      JSON_stringify (JArr rs) <> EmptyString
      /\ JSON_parse (JSON_stringify (JArr rs)) = Some (JArr rs))
  /\ Forall
       (fun t =>
          forall z,
            getTime (dueDate t) = Num z ->
            Date_parse (Date_toISOString z) = Num z)
       l.

(** ** Stored documents *)



(** The elements on which a property read throws. *)
Definition is_nullish (j : json) : bool :=
  match j with
  | JVal VNull | JVal VUndefined => true
  | _ => false
  end.




(** [s'] differs from [s] at most in the number of clock readings. *)
Definition same_but_clock (s s' : State) : Prop :=
  tasks s' = tasks s /\ storage s' = storage s
  /\ console s' = console s /\ alerts s' = alerts s.

(** A stored array of one object without any member. *)
Definition bare_record_store : State :=
  mkState [] (Some "[{}]") O [] [].

(** A stored array that is not of the persisted layout: a full record,
    a record with a name and a due date that is no timestamp, and a
    number. *)
Definition partial_elements : list json :=
  [ JObj [ ("id", VStr "11");
           ("name", VStr "Water plants");
           ("description", VStr "");
           ("dueDate", VStr "2025-06-02T10:00:00.000Z");
           ("priority", VStr "High");
           ("isCompleted", VBool true) ];
    JObj [ ("name", VStr "Pay rent");
           ("dueDate", VStr "soon") ];
    JVal (VNum 7) ].

Definition partial_records : json := JArr partial_elements.

Definition partial_records_store : State :=
  mkState [] (Some (Host.json_stringify partial_records)) O [] [].


(** Two records written before ids were stored. *)
Definition legacy_records : json :=
  JArr [ JObj [ ("name", VStr "Water plants");
                ("description", VStr "");
                ("dueDate", VStr "2025-06-02T10:00:00.000Z");
                ("priority", VStr "High");
                ("isCompleted", VBool false) ];
         JObj [ ("name", VStr "Pay rent");
                ("description", VStr "");
                ("dueDate", VStr "2025-06-01T10:00:00.000Z");
                ("priority", VStr "Medium");
                ("isCompleted", VBool false) ] ].

Definition legacy_store : State :=
  mkState [] (Some (Host.json_stringify legacy_records)) O [] [].

(** ** The page

    The script around the task manager: its two variables, the handlers
    of its events, and of the document the parts the handlers write and
    read back.  Kept of the document: the display of the two modals, the
    message of the confirmation, the two lists (each item by the id of
    the task its listeners hold), the [hidden] class of the two
    empty-list messages and the progress text.  Not kept: the texts and
    classes inside an item, the detail panel, the [selected] class and
    the fields of the form, none of which a handler reads back (the
    values of the form come with the submit event).  The click on the
    add button, which fills the form with the local time, is left out. *)

(** The functions handed to [showConfirmModal]; the script has one. *)
Inductive callback : Type :=
| DeleteSelectedTask.

Record Page : Type := mkPage {
  manager : State;                         (* taskManager, and the browser *)
  selectedTaskId : value;                  (* null or a task id *)
  currentConfirmCallback : option callback;
  addTaskModal_display : string;           (* addTaskModal.style.display *)
  confirmModal_display : string;
  confirmMessage : string;                 (* textContent *)
  upcomingTasksList : list value;          (* the items, by task id *)
  completedTasksList : list value;
  noUpcomingTasksMsg_hidden : bool;        (* has the class 'hidden' *)
  noCompletedTasksMsg_hidden : bool;
  progressText : string                    (* innerHTML *)
}.

Definition U (A : Type) : Type := Page -> completion A * Page.

Definition uret {A} (a : A) : U A := fun pg => (Normal a, pg).

Definition uthrow {A} (e : error) : U A := fun pg => (Throw e, pg).

Definition ubind {A B} (m : U A) (k : A -> U B) : U B :=
  fun pg =>
    match m pg with
    | (Normal a, pg') => k a pg'
    | (Throw e, pg') => (Throw e, pg')
    end.

Notation "x <-- m ;; k" := (ubind m (fun x => k))
  (at level 61, m at next level, right associativity) : js_scope.
Notation "m ;;- k" := (ubind m (fun _ => k))
  (at level 61, right associativity) : js_scope.

Definition set_manager (pg : Page) (st : State) : Page :=
  mkPage st (selectedTaskId pg) (currentConfirmCallback pg)
    (addTaskModal_display pg) (confirmModal_display pg) (confirmMessage pg)
    (upcomingTasksList pg) (completedTasksList pg)
    (noUpcomingTasksMsg_hidden pg) (noCompletedTasksMsg_hidden pg)
    (progressText pg).

(** A statement of the task manager, run on the page. *)
Definition lift {A} (m : M A) : U A :=
  fun pg =>
    let '(c, st) := m (manager pg) in (c, set_manager pg st).

Definition set_selectedTaskId (v : value) : U unit :=
  fun pg =>
    (Normal tt,
     mkPage (manager pg) v (currentConfirmCallback pg)
       (addTaskModal_display pg) (confirmModal_display pg)
       (confirmMessage pg) (upcomingTasksList pg) (completedTasksList pg)
       (noUpcomingTasksMsg_hidden pg) (noCompletedTasksMsg_hidden pg)
       (progressText pg)).

Definition set_currentConfirmCallback (c : option callback) : U unit :=
  fun pg =>
    (Normal tt,
     mkPage (manager pg) (selectedTaskId pg) c
       (addTaskModal_display pg) (confirmModal_display pg)
       (confirmMessage pg) (upcomingTasksList pg) (completedTasksList pg)
       (noUpcomingTasksMsg_hidden pg) (noCompletedTasksMsg_hidden pg)
       (progressText pg)).

Definition set_addTaskModal_display (d : string) : U unit :=
  fun pg =>
    (Normal tt,
     mkPage (manager pg) (selectedTaskId pg) (currentConfirmCallback pg)
       d (confirmModal_display pg)
       (confirmMessage pg) (upcomingTasksList pg) (completedTasksList pg)
       (noUpcomingTasksMsg_hidden pg) (noCompletedTasksMsg_hidden pg)
       (progressText pg)).

Definition set_confirmModal_display (d : string) : U unit :=
  fun pg =>
    (Normal tt,
     mkPage (manager pg) (selectedTaskId pg) (currentConfirmCallback pg)
       (addTaskModal_display pg) d
       (confirmMessage pg) (upcomingTasksList pg) (completedTasksList pg)
       (noUpcomingTasksMsg_hidden pg) (noCompletedTasksMsg_hidden pg)
       (progressText pg)).

Definition set_confirmMessage (msg : string) : U unit :=
  fun pg =>
    (Normal tt,
     mkPage (manager pg) (selectedTaskId pg) (currentConfirmCallback pg)
       (addTaskModal_display pg) (confirmModal_display pg)
       msg (upcomingTasksList pg) (completedTasksList pg)
       (noUpcomingTasksMsg_hidden pg) (noCompletedTasksMsg_hidden pg)
       (progressText pg)).

Definition set_lists (upcoming completed : list value) : U unit :=
  fun pg =>
    (Normal tt,
     mkPage (manager pg) (selectedTaskId pg) (currentConfirmCallback pg)
       (addTaskModal_display pg) (confirmModal_display pg)
       (confirmMessage pg) upcoming completed
       (noUpcomingTasksMsg_hidden pg) (noCompletedTasksMsg_hidden pg)
       (progressText pg)).

Definition set_messages_hidden (noUpcoming noCompleted : bool) : U unit :=
  fun pg =>
    (Normal tt,
     mkPage (manager pg) (selectedTaskId pg) (currentConfirmCallback pg)
       (addTaskModal_display pg) (confirmModal_display pg)
       (confirmMessage pg) (upcomingTasksList pg) (completedTasksList pg)
       noUpcoming noCompleted
       (progressText pg)).

Definition set_progressText (txt : string) : U unit :=
  fun pg =>
    (Normal tt,
     mkPage (manager pg) (selectedTaskId pg) (currentConfirmCallback pg)
       (addTaskModal_display pg) (confirmModal_display pg)
       (confirmMessage pg) (upcomingTasksList pg) (completedTasksList pg)
       (noUpcomingTasksMsg_hidden pg) (noCompletedTasksMsg_hidden pg)
       txt).

(** *** updateProgressText *)

Definition progress_message (completedCount totalCount : nat) : string :=
  ("<b>" ++ Z_toString (Z.of_nat completedCount) ++ "</b> of <b>"
   ++ Z_toString (Z.of_nat totalCount) ++ "</b> tasks completed")%string.

Definition updateProgressText : U unit :=
  l <-- lift get_tasks ;;
  let completedCount :=
    List.length (filter (fun task => ToBoolean (isCompleted task)) l) in
  let totalCount := List.length l in
  set_progressText (progress_message completedCount totalCount).

(** *** updateTaskListUI *)

(** The callback of [taskManager.tasks.forEach], on the flags
    [hasUpcoming] and [hasCompleted].  The class of the priority bar is
    built with [task.priority.toLowerCase()], a [TypeError] when the
    priority is not a string; by then the item is not yet in a list. *)
Definition render_task (task : Task) (has : bool * bool)
  : U (bool * bool) :=
  match priority task with
  | VStr _ =>
      if ToBoolean (isCompleted task) then
        (fun pg =>
           set_lists (upcomingTasksList pg)
             (completedTasksList pg ++ [id task]) pg) ;;-
        uret (fst has, true)
      else
        (fun pg =>
           set_lists (upcomingTasksList pg ++ [id task])
             (completedTasksList pg) pg) ;;-
        uret (true, snd has)
  | _ => uthrow TypeError
  end.

Fixpoint forEach_render (l : list Task) (has : bool * bool)
  : U (bool * bool) :=
  match l with
  | [] => uret has
  | task :: l' => has' <-- render_task task has ;; forEach_render l' has'
  end.

Definition updateTaskListUI : U unit :=
  set_lists [] [] ;;-
  lift sortTasks ;;-
  l <-- lift get_tasks ;;
  has <-- forEach_render l (false, false) ;;
  set_messages_hidden (fst has) (snd has) ;;-
  updateProgressText.

(** *** clearTaskDetails, the modals *)

Definition clearTaskDetails : U unit := set_selectedTaskId VNull.

Definition showConfirmModal (message : string) (cb : callback) : U unit :=
  set_confirmMessage message ;;-
  set_currentConfirmCallback (Some cb) ;;-
  set_confirmModal_display "flex".

Definition delete_question : string :=
  "Are you sure you want to delete this task?".

(** *** The event listeners *)

(** The function given to [showConfirmModal] by the delete button; it
    reads [selectedTaskId] when it runs. *)
Definition run_callback `{Platform} (cb : callback) : U unit :=
  match cb with
  | DeleteSelectedTask =>
      sel <-- (fun pg => (Normal (selectedTaskId pg), pg)) ;;
      removed <-- lift (removeTask sel) ;;
      if removed then updateTaskListUI ;;- clearTaskDetails else uret tt
  end.

Inductive event : Type :=
| CheckboxChange (taskId : value)     (* the checkbox of a rendered item *)
| ItemClick (taskId : value)          (* a rendered item *)
| CloseAddModalClick
| CancelAddClick
| FormSubmit (nameInput descriptionInput dueDateInput priorityInput : string)
| ToggleCompleteClick
| DeleteTaskClick
| ConfirmActionClick
| CancelConfirmClick.

Definition handle `{Platform} (ev : event) : U unit :=
  match ev with
  | CheckboxChange taskId =>
      lift (toggleCompleteTask taskId) ;;-
      updateTaskListUI ;;-
      clearTaskDetails
  | ItemClick taskId => set_selectedTaskId taskId
  | CloseAddModalClick | CancelAddClick => set_addTaskModal_display "none"
  | FormSubmit nameInput descriptionInput dueDateInput priorityInput =>
      let name := String_trim nameInput in
      let description := String_trim descriptionInput in
      if negb (name =? "")%string && negb (dueDateInput =? "")%string then
        added <-- lift (addTask (VStr name) (VStr description)
                          (VStr dueDateInput) (VStr priorityInput)) ;;
        if added then
          set_addTaskModal_display "none" ;;-
          updateTaskListUI ;;-
          clearTaskDetails
        else uret tt
      else lift (alert required_alert)
  | ToggleCompleteClick =>
      sel <-- (fun pg => (Normal (selectedTaskId pg), pg)) ;;
      if ToBoolean sel then
        lift (toggleCompleteTask sel) ;;-
        updateTaskListUI ;;-
        clearTaskDetails
      else uret tt
  | DeleteTaskClick =>
      sel <-- (fun pg => (Normal (selectedTaskId pg), pg)) ;;
      if ToBoolean sel then showConfirmModal delete_question DeleteSelectedTask
      else uret tt
  | ConfirmActionClick =>
      cb <-- (fun pg => (Normal (currentConfirmCallback pg), pg)) ;;
      match cb with
      | Some f => run_callback f
      | None => uret tt
      end ;;-
      set_confirmModal_display "none" ;;-
      set_currentConfirmCallback None
  | CancelConfirmClick =>
      set_confirmModal_display "none" ;;-
      set_currentConfirmCallback None
  end.

(** The listeners of an item exist while the item is rendered. *)
Definition enabled (pg : Page) (ev : event) : Prop :=
  match ev with
  | CheckboxChange taskId | ItemClick taskId =>
      In taskId (upcomingTasksList pg ++ completedTasksList pg)
  | _ => True
  end.

(** The script, run when the page loads: the manager is built, the two
    variables start as [null], the lists are rendered and the details
    cleared. *)
Definition script `{Platform} : U unit :=
  lift TaskManager_new ;;-
  set_currentConfirmCallback None ;;-
  set_selectedTaskId VNull ;;-
  updateTaskListUI ;;-
  clearTaskDetails.

(** What the page shows of a collection. *)
Definition upcoming_of (l : list Task) : list value :=
  map id (filter (fun t => negb (ToBoolean (isCompleted t))) l).

Definition completed_of (l : list Task) : list value :=
  map id (filter (fun t => ToBoolean (isCompleted t)) l).

(** The page shows the collection the manager holds. *)
Definition rendered (pg : Page) : Prop :=
  upcomingTasksList pg = upcoming_of (tasks (manager pg))
  /\ completedTasksList pg = completed_of (tasks (manager pg))
  /\ noUpcomingTasksMsg_hidden pg
     = negb (Nat.eqb (List.length (upcomingTasksList pg)) 0)
  /\ noCompletedTasksMsg_hidden pg
     = negb (Nat.eqb (List.length (completedTasksList pg)) 0)
  /\ progressText pg
     = progress_message (List.length (completedTasksList pg))
         (List.length (upcomingTasksList pg)
          + List.length (completedTasksList pg)).

(** A page on the sample store, nothing selected, nothing rendered. *)
Definition blank_page (st : State) : Page :=
  mkPage st VNull None "" "" "" [] [] false false "".

(** Events handled one after the other; a thrown error ends its handler,
    not the page, so the next event is handled all the same. *)
Fixpoint handle_all `{Platform} (evs : list event) (pg : Page) : Page :=
  match evs with
  | [] => pg
  | ev :: evs' => handle_all evs' (snd (handle ev pg))
  end.

(** Page [pg] once it shows the collection [l], which the manager
    holds. *)
Definition showing (pg : Page) (l : list Task) : Page :=
  mkPage (set_tasks (manager pg) l) (selectedTaskId pg)
    (currentConfirmCallback pg) (addTaskModal_display pg)
    (confirmModal_display pg) (confirmMessage pg)
    (upcoming_of l) (completed_of l)
    (existsb (fun t => negb (ToBoolean (isCompleted t))) l)
    (existsb (fun t => ToBoolean (isCompleted t)) l)
    (progress_message
       (List.length (filter (fun t => ToBoolean (isCompleted t)) l))
       (List.length l)).

(** The inputs of the data model, for an event. *)
Definition event_ok (ev : event) : bool :=
  match ev with
  | FormSubmit _ _ _ priorityInput => is_priority (VStr priorityInput)
  | _ => true
  end.

(** A page in order: the manager holds tasks of the data model in key
    order, and the page shows them. *)
Definition page_ok (pg : Page) : Prop :=
  Forall (fun t => well_formed t = true) (tasks (manager pg))
  /\ ordered (tasks (manager pg))
  /\ rendered pg.

(** A page on the sample store, the first task selected. *)
Definition sample_page : Page :=
  mkPage sample_store (VStr "11") None "none" "none" ""
    [VStr "11"; VStr "12"] [VStr "13"] true true
    (progress_message 1 3).

(** ** Further shorthands *)

(** A task with an id that is set and a completion flag that is
    defined. *)
Definition identified (t : Task) : bool :=
  ToBoolean (id t) && is_defined (isCompleted t).

(** A short run of the three mutations. *)
Definition sample_run : list mutation :=
  [ Add (VStr "Buy milk") (VStr "") (VStr "2025-06-01T10:00") (VStr "High");
    Add (VStr "Pay rent") (VStr "flat 3") (VStr "2025-06-02T10:00")
      (VStr "Low");
    ToggleComplete (VStr "1748858400000");
    Remove (VStr "1748858400001") ].

(** A store as the loader leaves it on a record whose date does not
    parse: one task with an invalid date, and a second, sound one. *)
Definition unsavable_store : State :=
  mkState [ sample_task "11" "Water plants" "High" day2 false;
            mkTask (VStr "12") (VStr "Pay rent") (VStr "") (mkDate NaN)
              (VStr "Medium") (VBool false) ]
          None O [] [].

(** * Properties *)

Local Open Scope list_scope.

(** ** Array.prototype.sort *)

Section Sorting.

Context {A : Type} (cmp : A -> A -> Z).

Lemma Array_sort_insert_perm (x : A) (l : list A) :
  Permutation (Array_sort_insert cmp x l) (x :: l).
Proof.
  induction l as [|y l IH]; simpl.
  - apply Permutation_refl.
  - destruct (cmp x y <=? 0).
    + apply Permutation_refl.
    + apply perm_trans with (y :: x :: l).
      * now apply perm_skip.
      * apply perm_swap.
Qed.

Lemma Array_sort_perm (l : list A) : Permutation (Array_sort cmp l) l.
Proof.
  induction l as [|x l IH]; simpl.
  - apply perm_nil.
  - apply perm_trans with (x :: Array_sort cmp l).
    + apply Array_sort_insert_perm.
    + now apply perm_skip.
Qed.

Lemma Array_sort_length (l : list A) :
  List.length (Array_sort cmp l) = List.length l.
Proof. apply Permutation_length, Array_sort_perm. Qed.

Lemma Array_sort_In (x : A) (l : list A) :
  In x (Array_sort cmp l) <-> In x l.
Proof.
  split; apply Permutation_in.
  - apply Array_sort_perm.
  - apply Permutation_sym, Array_sort_perm.
Qed.

(** The order [R] the comparator decides on the elements satisfying
    [dom]: not greater means [R], greater means [R] the other way. *)
Variable R : A -> A -> Prop.
Variable dom : A -> Prop.
Hypothesis cmp_le : forall a b, dom a -> dom b -> cmp a b <= 0 -> R a b.
Hypothesis cmp_gt : forall a b, dom a -> dom b -> 0 < cmp a b -> R b a.

Lemma Array_sort_insert_HdRel (a x : A) (l : list A) :
  R a x -> HdRel R a l -> HdRel R a (Array_sort_insert cmp x l).
Proof.
  intros Hax Hal.
  destruct l as [|y l]; simpl.
  - now constructor.
  - destruct (cmp x y <=? 0); constructor; trivial.
    now inversion Hal.
Qed.

Lemma Array_sort_insert_Sorted (x : A) (l : list A) :
  dom x -> Forall dom l -> Sorted R l ->
  Sorted R (Array_sort_insert cmp x l).
Proof.
  intros Hx Hl Hs.
  induction l as [|y l IH]; simpl.
  - repeat constructor.
  - inversion Hl as [|? ? Hy Hl']; subst.
    inversion Hs as [|? ? Hs' Hhd]; subst.
    destruct (cmp x y <=? 0) eqn:E.
    + apply Z.leb_le in E.
      constructor; [assumption|].
      constructor. now apply cmp_le.
    + apply Z.leb_gt in E.
      constructor.
      * now apply IH.
      * apply Array_sort_insert_HdRel; [|assumption].
        now apply cmp_gt.
Qed.

Lemma Array_sort_Sorted (l : list A) :
  Forall dom l -> Sorted R (Array_sort cmp l).
Proof.
  induction l as [|x l IH]; intros Hl; simpl.
  - constructor.
  - inversion Hl as [|? ? Hx Hl']; subst.
    apply Array_sort_insert_Sorted; trivial.
    + rewrite Forall_forall in *.
      intros y Hy. apply Hl'. exact (proj1 (Array_sort_In y l) Hy).
    + now apply IH.
Qed.

End Sorting.

(** ** A stable sort has one result *)

Section Stability.

Context {A : Type} (cmp : A -> A -> Z) (dom : A -> Prop).
Hypothesis cmp_consistent : consistent_on dom cmp.

Lemma cmp_flip (a b : A) : dom a -> dom b -> cmp a b = 0 -> cmp b a = 0.
Proof.
  intros Ha Hb E. destruct cmp_consistent as [Hanti _].
  pose proof (Hanti a b Ha Hb). pose proof (Hanti b a Hb Ha). lia.
Qed.

Lemma cmp_both_le (a b : A) :
  dom a -> dom b -> cmp a b <= 0 -> cmp b a <= 0 -> cmp a b = 0.
Proof.
  intros Ha Hb H1 H2. destruct cmp_consistent as [Hanti _].
  pose proof (Hanti b a Hb Ha). lia.
Qed.

Lemma ties_refl (a : A) : dom a -> ties cmp a a = true.
Proof.
  intros Ha. destruct cmp_consistent as [Hanti _].
  pose proof (Hanti a a Ha Ha). unfold ties. apply Z.eqb_eq. lia.
Qed.

Lemma ties_sym (a b : A) :
  dom a -> dom b -> ties cmp a b = true -> ties cmp b a = true.
Proof.
  unfold ties. rewrite !Z.eqb_eq. apply cmp_flip.
Qed.

Lemma ties_trans (a b c : A) :
  dom a -> dom b -> dom c ->
  ties cmp a b = true -> ties cmp b c = true -> ties cmp a c = true.
Proof.
  unfold ties. rewrite !Z.eqb_eq. intros Ha Hb Hc Hab Hbc.
  pose proof (cmp_flip a b Ha Hb Hab) as Hba.
  pose proof (cmp_flip b c Hb Hc Hbc) as Hcb.
  destruct cmp_consistent as [_ Htrans].
  apply cmp_both_le; trivial.
  - apply Htrans with b; trivial; lia.
  - apply Htrans with b; trivial; lia.
Qed.

(** Insertion passes over no element that ties with the one inserted. *)
Lemma Array_sort_insert_filter (a x : A) (l : list A) :
  dom a -> dom x -> Forall dom l ->
  filter (ties cmp a) (Array_sort_insert cmp x l) =
  filter (ties cmp a) (x :: l).
Proof.
  intros Ha Hx Hl.
  induction Hl as [|y l Hy Hl IH]; [reflexivity|].
  simpl. destruct (cmp x y <=? 0) eqn:E; [reflexivity|].
  apply Z.leb_gt in E.
  simpl. rewrite IH. simpl.
  destruct (ties cmp a y) eqn:Ey, (ties cmp a x) eqn:Ex; trivial.
  exfalso.
  assert (Hxy : ties cmp x y = true).
  { apply ties_trans with a; trivial. now apply ties_sym. }
  unfold ties in Hxy. apply Z.eqb_eq in Hxy. lia.
Qed.

Lemma Array_sort_stable (a : A) (l : list A) :
  dom a -> Forall dom l ->
  filter (ties cmp a) (Array_sort cmp l) = filter (ties cmp a) l.
Proof.
  intros Ha Hl.
  induction Hl as [|x l Hx Hl IH]; [reflexivity|].
  simpl. rewrite Array_sort_insert_filter; trivial.
  - simpl. now rewrite IH.
  - rewrite Forall_forall in *. intros y Hy.
    apply Hl. exact (proj1 (Array_sort_In cmp y l) Hy).
Qed.

Lemma le_trans_on (a b c : A) :
  dom a -> dom b -> dom c ->
  not_after cmp a b -> not_after cmp b c -> not_after cmp a c.
Proof.
  destruct cmp_consistent as [_ Htrans]. apply Htrans.
Qed.

(** In a sorted list the head is not after any element. *)
Lemma Sorted_head_le (a : A) (l : list A) :
  Forall dom (a :: l) -> Sorted (not_after cmp) (a :: l) ->
  forall x, In x l -> not_after cmp a x.
Proof.
  revert a. induction l as [|b l IH]; intros a Hd Hs x Hx; [destruct Hx|].
  inversion Hs as [|? ? Hs' Hhd]; subst.
  inversion Hhd as [|? ? Hab]; subst.
  inversion Hd as [|? ? Ha Hd']; subst.
  destruct Hx as [<-|Hx]; [assumption|].
  inversion Hd' as [|? ? Hb Hd'']; subst.
  apply le_trans_on with b; trivial.
  - rewrite Forall_forall in Hd''. now apply Hd''.
  - now apply IH.
Qed.

Lemma filter_head_In (p : A -> bool) (x : A) (l l' : list A) :
  filter p l = x :: l' -> In x l.
Proof.
  intros E.
  assert (Hx : In x (filter p l)) by (rewrite E; now left).
  now apply filter_In in Hx.
Qed.

(** Two sorted lists whose classes of tied elements agree are equal. *)
Lemma sorted_classes_unique (l1 l2 : list A) :
  Forall dom l1 -> Forall dom l2 ->
  Sorted (not_after cmp) l1 -> Sorted (not_after cmp) l2 ->
  (forall a, In a l1 \/ In a l2 ->
             filter (ties cmp a) l1 = filter (ties cmp a) l2) ->
  l1 = l2.
Proof.
  revert l2. induction l1 as [|a t1 IH]; intros l2 Hd1 Hd2 Hs1 Hs2 Hf.
  - destruct l2 as [|b t2]; [reflexivity|].
    inversion Hd2 as [|? ? Hb _]; subst.
    specialize (Hf b (or_intror (or_introl eq_refl))).
    simpl in Hf. rewrite (ties_refl b Hb) in Hf. discriminate.
  - inversion Hd1 as [|? ? Ha Hd1']; subst.
    destruct l2 as [|b t2].
    { specialize (Hf a (or_introl (or_introl eq_refl))).
      simpl in Hf. rewrite (ties_refl a Ha) in Hf. discriminate. }
    inversion Hd2 as [|? ? Hb Hd2']; subst.
    assert (Hab : a = b).
    { pose proof (Hf a (or_introl (or_introl eq_refl))) as Hfa.
      simpl in Hfa. rewrite (ties_refl a Ha) in Hfa.
      destruct (ties cmp a b) eqn:Eab; [now injection Hfa|].
      exfalso.
      pose proof (Hf b (or_intror (or_introl eq_refl))) as Hfb.
      simpl in Hfb. rewrite (ties_refl b Hb) in Hfb.
      assert (Eba : ties cmp b a = false).
      { destruct (ties cmp b a) eqn:E; [|reflexivity].
        apply ties_sym in E; trivial. congruence. }
      rewrite Eba in Hfb.
      symmetry in Hfa. apply filter_head_In in Hfa.
      apply filter_head_In in Hfb.
      pose proof (Sorted_head_le b t2 Hd2 Hs2 a Hfa) as Hba.
      pose proof (Sorted_head_le a t1 Hd1 Hs1 b Hfb) as Hab.
      pose proof (cmp_both_le a b Ha Hb Hab Hba) as E0.
      unfold ties in Eab. apply Z.eqb_neq in Eab. contradiction. }
    subst b. f_equal.
    apply IH; trivial.
    + now inversion Hs1.
    + now inversion Hs2.
    + intros x Hx.
      assert (Hfx : filter (ties cmp x) (a :: t1) =
                    filter (ties cmp x) (a :: t2)).
      { apply Hf. destruct Hx; [left | right]; now right. }
      simpl in Hfx. destruct (ties cmp x a); [now injection Hfx | exact Hfx].
Qed.

(** The sort returns the stable sort. *)
Lemma Array_sort_is_stable_sort (l : list A) :
  Forall dom l -> stable_sort_of cmp l (Array_sort cmp l).
Proof.
  intros Hl. destruct cmp_consistent as [Hanti _].
  split; [apply Permutation_sym, Array_sort_perm|]. split.
  - apply Array_sort_Sorted with (dom := dom); trivial.
    intros a b Ha Hb Hgt. pose proof (Hanti a b Ha Hb).
    unfold not_after. lia.
  - intros a Ha. apply Array_sort_stable; trivial.
    rewrite Forall_forall in Hl. now apply Hl.
Qed.

(** Whatever stable sort an engine runs, its result is the one of
    [Array_sort]. *)
Theorem stable_sort_unique (l l' : list A) :
  Forall dom l -> stable_sort_of cmp l l' -> l' = Array_sort cmp l.
Proof.
  intros Hl (Hperm & Hsorted & Hstable).
  destruct (Array_sort_is_stable_sort l Hl) as (Hperm' & Hsorted' & Hstable').
  assert (Hl' : Forall dom l').
  { rewrite Forall_forall in *. intros x Hx. apply Hl.
    now apply Permutation_in with (1 := Permutation_sym Hperm). }
  apply sorted_classes_unique; trivial.
  - rewrite Forall_forall in *. intros x Hx. apply Hl.
    exact (proj1 (Array_sort_In cmp x l) Hx).
  - intros a Ha.
    assert (Hin : In a l).
    { destruct Ha as [Ha|Ha].
      - now apply Permutation_in with (1 := Permutation_sym Hperm).
      - exact (proj1 (Array_sort_In cmp a l) Ha). }
    now rewrite Hstable, Hstable'.
Qed.

(** Sorting a sorted array changes nothing. *)
Corollary Array_sort_sorted_id (l : list A) :
  Forall dom l -> Sorted (not_after cmp) l -> Array_sort cmp l = l.
Proof.
  intros Hl Hs. symmetry. apply stable_sort_unique; trivial.
  split; [apply Permutation_refl|]. split; [assumption | reflexivity].
Qed.

End Stability.

(** [filter] keeps a list sorted when the order is transitive. *)
Lemma Sorted_filter {A} (R : A -> A -> Prop) (p : A -> bool) (l : list A) :
  (forall a b c, R a b -> R b c -> R a c) ->
  Sorted R l -> Sorted R (filter p l).
Proof.
  intros Htrans Hs.
  apply StronglySorted_Sorted.
  apply Sorted_StronglySorted in Hs; [|exact Htrans].
  induction Hs as [|a l Hs IH Hall]; simpl.
  - constructor.
  - destruct (p a); [|assumption].
    constructor; [assumption|].
    rewrite Forall_forall in *.
    intros x Hx. apply filter_In in Hx. now apply Hall.
Qed.

(** ** The comparator and the sort key *)

Lemma key_le_trans (k1 k2 k3 : Z * Z * Z) :
  key_le k1 k2 -> key_le k2 k3 -> key_le k1 k3.
Proof.
  destruct k1 as [[c1 p1] d1], k2 as [[c2 p2] d2], k3 as [[c3 p3] d3].
  unfold key_le. lia.
Qed.

Lemma task_le_trans (a b c : Task) :
  task_le a b -> task_le b c -> task_le a c.
Proof.
  intros (ka & kb & Ha & Hb & Hab) (kb' & kc & Hb' & Hc & Hbc).
  rewrite Hb in Hb'. injection Hb' as <-.
  exists ka, kc. repeat split; trivial.
  now apply key_le_trans with kb.
Qed.

Lemma sortable_sortKey (t : Task) :
  sortable t = true -> exists k, sortKey t = Some k.
Proof.
  unfold sortable, sortKey, is_boolean, is_priority, isValidDate.
  destruct (isCompleted t), (priorityRank (priority t)), (getTime (dueDate t));
    simpl; intros E; try discriminate; eauto.
Qed.

(** On a priority of the enumeration the table read is its rank. *)
Lemma priorityOrder_rank (v : value) (p : Z) :
  priorityRank v = Some p ->
  priorityOrder (ToPropertyKey v) = Own p /\ 1 <= p <= 3.
Proof.
  unfold priorityRank, priorityOrder.
  destruct v as [| |b|z|s]; try discriminate. simpl.
  destruct (s =? "High")%string; [intros [= <-]; split; [reflexivity|lia]|].
  destruct (s =? "Medium")%string; [intros [= <-]; split; [reflexivity|lia]|].
  destruct (s =? "Low")%string; [intros [= <-]; split; [reflexivity|lia]|].
  discriminate.
Qed.

(** On tasks of the data model the comparator is the difference the key
    order prescribes. *)
Lemma SortCompare_key (a b : Task) (ka kb : Z * Z * Z) :
  sortKey a = Some ka -> sortKey b = Some kb ->
  (SortCompare a b <= 0 -> key_le ka kb) /\
  (0 < SortCompare a b -> key_le kb ka).
Proof.
  unfold sortKey, SortCompare, compareFn.
  destruct (isCompleted a) as [| |ca| |] eqn:Ea; try discriminate.
  destruct (priorityRank (priority a)) as [pa|] eqn:Epa; try discriminate.
  destruct (getTime (dueDate a)) as [da|] eqn:Eda; try discriminate.
  destruct (isCompleted b) as [| |cb| |] eqn:Eb; try discriminate.
  destruct (priorityRank (priority b)) as [pb|] eqn:Epb; try discriminate.
  destruct (getTime (dueDate b)) as [db|] eqn:Edb; try discriminate.
  intros [= <-] [= <-].
  apply priorityOrder_rank in Epa as [-> Hpa].
  apply priorityOrder_rank in Epb as [-> Hpb].
  unfold strict_equal, key_le.
  destruct (value_eq_dec (VBool ca) (VBool cb)) as [E|E]; simpl.
  - injection E as ->.
    destruct (pa =? pb) eqn:Ep; simpl.
    + apply Z.eqb_eq in Ep. subst pb. split; intros; lia.
    + apply Z.eqb_neq in Ep. split; intros; lia.
  - destruct ca, cb; try congruence; simpl; split; intros; lia.
Qed.

Lemma SortCompare_le (a b : Task) :
  sortable a = true -> sortable b = true ->
  SortCompare a b <= 0 -> task_le a b.
Proof.
  intros Ha Hb Hc.
  destruct (sortable_sortKey a Ha) as [ka Hka].
  destruct (sortable_sortKey b Hb) as [kb Hkb].
  exists ka, kb. repeat split; trivial.
  now apply (SortCompare_key a b ka kb).
Qed.

Lemma SortCompare_gt (a b : Task) :
  sortable a = true -> sortable b = true ->
  0 < SortCompare a b -> task_le b a.
Proof.
  intros Ha Hb Hc.
  destruct (sortable_sortKey a Ha) as [ka Hka].
  destruct (sortable_sortKey b Hb) as [kb Hkb].
  exists kb, ka. repeat split; trivial.
  now apply (SortCompare_key a b ka kb).
Qed.

(** The comparator on two tasks of the data model, by their keys. *)
Lemma SortCompare_formula (a b : Task) (ca pa da cb pb db : Z) :
  sortKey a = Some (ca, pa, da) -> sortKey b = Some (cb, pb, db) ->
  (ca = 0 \/ ca = 1) /\ (cb = 0 \/ cb = 1)
  /\ SortCompare a b =
     if ca =? cb then (if pa =? pb then da - db else pa - pb)
     else if ca =? 1 then 1 else -1.
Proof.
  unfold sortKey, SortCompare, compareFn.
  destruct (isCompleted a) as [| |xa| |] eqn:Ea; try discriminate.
  destruct (priorityRank (priority a)) as [ra|] eqn:Epa; try discriminate.
  destruct (getTime (dueDate a)) as [ta|] eqn:Eda; try discriminate.
  destruct (isCompleted b) as [| |xb| |] eqn:Eb; try discriminate.
  destruct (priorityRank (priority b)) as [rb|] eqn:Epb; try discriminate.
  destruct (getTime (dueDate b)) as [tb|] eqn:Edb; try discriminate.
  intros [= <- <- <-] [= <- <- <-].
  apply priorityOrder_rank in Epa as [-> _].
  apply priorityOrder_rank in Epb as [-> _].
  unfold strict_equal.
  split; [destruct xa; auto|]. split; [destruct xb; auto|].
  destruct (value_eq_dec (VBool xa) (VBool xb)) as [E|E]; simpl.
  - injection E as ->. rewrite Z.eqb_refl.
    now destruct (ra =? rb).
  - destruct xa, xb; try congruence; reflexivity.
Qed.

(** On tasks of the data model the comparator is consistent. *)
Lemma SortCompare_consistent :
  consistent_on (fun t => sortable t = true) SortCompare.
Proof.
  split.
  - intros a b Ha Hb.
    destruct (sortable_sortKey a Ha) as [[[ca pa] da] Hka].
    destruct (sortable_sortKey b Hb) as [[[cb pb] db] Hkb].
    destruct (SortCompare_formula a b _ _ _ _ _ _ Hka Hkb) as (Hca & Hcb & ->).
    destruct (SortCompare_formula b a _ _ _ _ _ _ Hkb Hka) as (_ & _ & ->).
    destruct (ca =? cb) eqn:E1, (cb =? ca) eqn:E2,
             (pa =? pb) eqn:E3, (pb =? pa) eqn:E4,
             (ca =? 1) eqn:E5, (cb =? 1) eqn:E6;
      rewrite ?Z.eqb_eq, ?Z.eqb_neq in *; lia.
  - intros a b c Ha Hb Hc.
    destruct (sortable_sortKey a Ha) as [[[ca pa] da] Hka].
    destruct (sortable_sortKey b Hb) as [[[cb pb] db] Hkb].
    destruct (sortable_sortKey c Hc) as [[[cc pc] dc] Hkc].
    destruct (SortCompare_formula a b _ _ _ _ _ _ Hka Hkb) as (Hca & Hcb & ->).
    destruct (SortCompare_formula b c _ _ _ _ _ _ Hkb Hkc) as (_ & Hcc & ->).
    destruct (SortCompare_formula a c _ _ _ _ _ _ Hka Hkc) as (_ & _ & ->).
    destruct (ca =? cb) eqn:E1, (cb =? cc) eqn:E2, (ca =? cc) eqn:E3,
             (pa =? pb) eqn:E4, (pb =? pc) eqn:E5, (pa =? pc) eqn:E6,
             (ca =? 1) eqn:E7, (cb =? 1) eqn:E8;
      rewrite ?Z.eqb_eq, ?Z.eqb_neq in *; lia.
Qed.

(** Key order is what the comparator calls not-after. *)
Lemma task_le_not_after (a b : Task) :
  task_le a b -> not_after SortCompare a b.
Proof.
  intros ([[ca pa] da] & [[cb pb] db] & Hka & Hkb & Hle).
  destruct (SortCompare_formula a b _ _ _ _ _ _ Hka Hkb) as (Hca & Hcb & E).
  unfold not_after. rewrite E. unfold key_le in Hle.
  destruct (ca =? cb) eqn:E1, (pa =? pb) eqn:E2, (ca =? 1) eqn:E3;
    rewrite ?Z.eqb_eq, ?Z.eqb_neq in *; lia.
Qed.

(** Adjacent pairs in key order, as the library's [Sorted]. *)
Lemma ordered_Sorted (l : list Task) : ordered l <-> Sorted task_le l.
Proof.
  unfold ordered. split.
  - induction l as [|a l IH]; intros H.
    + constructor.
    + constructor.
      * apply IH. intros i x y Hx Hy. now apply (H (S i) x y).
      * destruct l as [|b l]; constructor.
        now apply (H O a b).
  - induction 1 as [|a l Hs IH Hhd]; intros i x y Hx Hy.
    + destruct i; discriminate.
    + destruct i as [|i]; simpl in Hx, Hy.
      * injection Hx as <-.
        destruct l as [|b l]; [discriminate|].
        injection Hy as <-. now inversion Hhd.
      * now apply (IH i x y).
Qed.

Lemma Array_sort_ordered (l : list Task) :
  Forall (fun t => sortable t = true) l ->
  ordered (Array_sort SortCompare l).
Proof.
  intros Hl. apply ordered_Sorted.
  apply Array_sort_Sorted with (dom := fun t => sortable t = true); trivial.
  - apply SortCompare_le.
  - apply SortCompare_gt.
Qed.

(** The specification's remark on [sort]: sorting an already sorted
    collection is a no-op. *)
Lemma Array_sort_ordered_id (l : list Task) :
  Forall (fun t => sortable t = true) l ->
  ordered l -> Array_sort SortCompare l = l.
Proof.
  intros Hl Ho.
  apply Array_sort_sorted_id with (dom := fun t => sortable t = true);
    trivial.
  - exact SortCompare_consistent.
  - apply ordered_Sorted in Ho.
    clear Hl. induction Ho as [|a l Hs IH Hhd]; constructor; trivial.
    destruct Hhd; constructor. now apply task_le_not_after.
Qed.

(** Ties keep their order: tasks with equal keys come out of the sort in
    the order they went in. *)
Lemma Array_sort_keeps_ties (a : Task) (l : list Task) :
  sortable a = true ->
  Forall (fun t => sortable t = true) l ->
  filter (ties SortCompare a) (Array_sort SortCompare l) =
  filter (ties SortCompare a) l.
Proof.
  intros Ha Hl.
  apply Array_sort_stable with (dom := fun t => sortable t = true); trivial.
  exact SortCompare_consistent.
Qed.

Lemma Array_sort_sortable (l : list Task) :
  Forall (fun t => sortable t = true) l ->
  Forall (fun t => sortable t = true) (Array_sort SortCompare l).
Proof.
  rewrite !Forall_forall. intros H t Ht.
  apply H. exact (proj1 (Array_sort_In SortCompare t l) Ht).
Qed.

(** ** The statements of the program, as equations *)

Section Program.

Context `{P : Platform}.

Lemma set_tasks_same (s : State) : set_tasks s (tasks s) = s.
Proof. now destruct s. Qed.

Lemma sortTasks_eq (s : State) :
  sortTasks s = (Normal tt, set_tasks s (Array_sort SortCompare (tasks s))).
Proof. reflexivity. Qed.

Lemma mapM_task_record (l : list Task) (s : State) :
  mapM task_record l s =
  match records_of l with
  | Some rs => (Normal rs, s)
  | None => (Throw RangeError, s)
  end.
Proof.
  induction l as [|t l IH]; simpl; [reflexivity|].
  unfold bind at 1. unfold task_record at 1, record_of, toISOString.
  destruct (getTime (dueDate t)) as [z|]; simpl; [|reflexivity].
  unfold bind. rewrite IH.
  now destruct (records_of l).
Qed.

Lemma saveTasks_eq (s : State) :
  saveTasks s =
  match saved_text (tasks s) with
  | Some txt => (Normal tt, stored s txt)
  | None => (Throw RangeError, s)
  end.
Proof.
  unfold saveTasks, saved_text, bind, get_tasks.
  rewrite mapM_task_record.
  now destruct (records_of (tasks s)).
Qed.

Lemma records_of_dated (l : list Task) :
  Forall (fun t => dated t = true) l <-> records_of l <> None.
Proof.
  induction l as [|t l IH]; simpl.
  - split; [discriminate | constructor].
  - unfold record_of, dated at 1, isValidDate.
    split.
    + intros H. inversion H as [|? ? Ht Hl]; subst.
      apply IH in Hl. unfold dated, isValidDate in Ht.
      destruct (getTime (dueDate t)); [|discriminate].
      now destruct (records_of l).
    + intros H.
      destruct (getTime (dueDate t)) eqn:E; [|congruence].
      constructor.
      * unfold dated, isValidDate. now rewrite E.
      * apply IH. now destruct (records_of l).
Qed.

Lemma saved_text_dated (l : list Task) :
  Forall (fun t => dated t = true) l -> exists txt, saved_text l = Some txt.
Proof.
  intros H. apply records_of_dated in H. unfold saved_text.
  destruct (records_of l); [simpl; eauto | congruence].
Qed.

Lemma addTask_rejects (s : State) (n d due p : value) :
  isValidDate (new_Date due) = false ->
  addTask n d due p s = (Normal false, add_failed s).
Proof.
  intros E. unfold addTask, try_catch. now rewrite E.
Qed.

Lemma addTask_accepts (s : State) (n d due p : value) :
  isValidDate (new_Date due) = true ->
  addTask n d due p s =
  let l := Array_sort SortCompare (tasks s ++ [created_task s n d due p]) in
  let s1 := set_tasks (ticked s 1) l in
  match saved_text l with
  | Some txt => (Normal true, stored s1 txt)
  | None => (Normal false, add_failed s1)
  end.
Proof.
  intros E. unfold addTask, try_catch. rewrite E. simpl.
  unfold bind. simpl. rewrite saveTasks_eq. simpl.
  fold (created_task s n d due p).
  now destruct (saved_text _).
Qed.

Lemma removeTask_eq (s : State) (taskId : value) :
  removeTask taskId s =
  let l := filter (fun t => negb (strict_equal (id t) taskId)) (tasks s) in
  if (List.length l <? List.length (tasks s))%nat then
    match saved_text l with
    | Some txt => (Normal true, stored (set_tasks s l) txt)
    | None => (Throw RangeError, set_tasks s l)
    end
  else (Normal false, set_tasks s l).
Proof.
  unfold removeTask, bind. simpl.
  destruct (_ <? _)%nat; [|reflexivity].
  rewrite saveTasks_eq. simpl.
  now destruct (saved_text _).
Qed.

Lemma toggleCompleteTask_eq (s : State) (taskId : value) :
  toggleCompleteTask taskId s =
  match find_index (fun t => strict_equal (id t) taskId) (tasks s) with
  | Some i =>
      let l :=
        Array_sort SortCompare (update_at i flip_isCompleted (tasks s)) in
      match saved_text l with
      | Some txt => (Normal true, stored (set_tasks s l) txt)
      | None => (Throw RangeError, set_tasks s l)
      end
  | None => (Normal false, s)
  end.
Proof.
  unfold toggleCompleteTask, bind. simpl.
  destruct (find_index _ _); [|reflexivity].
  simpl. rewrite saveTasks_eq. simpl.
  now destruct (saved_text _).
Qed.

End Program.

(** ** Sorting (C1) *)

(** C1 (sort totality).  For any collection of tasks of the data model,
    after [sortTasks] every adjacent pair (a, b) has a's key tuple
    (completed, priority rank, due date) less than or equal to b's; the
    sorted collection holds the same tasks, and nothing else in the state
    changes. *)
Theorem sortTasks_orders (s : State) :
  Forall (fun t => sortable t = true) (tasks s) ->
  exists s',
    sortTasks s = (Normal tt, s')
    /\ ordered (tasks s')
    /\ Permutation (tasks s) (tasks s')
    /\ s' = set_tasks s (tasks s').
Proof.
  intros Hs.
  exists (set_tasks s (Array_sort SortCompare (tasks s))).
  rewrite sortTasks_eq. simpl.
  repeat split.
  - now apply Array_sort_ordered.
  - apply Permutation_sym, Array_sort_perm.
Qed.

Lemma sortTasks_orders_witness :
  Forall (fun t => sortable t = true) (tasks unsorted_store)
  /\ exists s',
       sortTasks unsorted_store = (Normal tt, s')
       /\ ordered (tasks s')
       /\ Permutation (tasks unsorted_store) (tasks s')
       /\ s' = set_tasks unsorted_store (tasks s').
Proof.
  split.
  - repeat constructor.
  - apply (sortTasks_orders unsorted_store). repeat constructor.
Defined.

Example sortTasks_unsorted_store :
  map id (tasks (snd (sortTasks unsorted_store))) =
  [VStr "14"; VStr "11"; VStr "12"; VStr "13"].
Proof. reflexivity. Qed.

(** ** Unknown ids (C7) *)

Lemma filter_all {A} (p : A -> bool) (l : list A) :
  (forall x, In x l -> p x = true) -> filter p l = l.
Proof.
  induction l as [|a l IH]; simpl; intros H; [reflexivity|].
  rewrite (H a) by now left.
  f_equal. apply IH. intros x Hx. apply H. now right.
Qed.

Lemma strict_equal_true (v w : value) : strict_equal v w = true <-> v = w.
Proof.
  unfold strict_equal. destruct (value_eq_dec v w); split; congruence.
Qed.

Lemma strict_equal_false (v w : value) : strict_equal v w = false <-> v <> w.
Proof.
  unfold strict_equal. destruct (value_eq_dec v w); split; congruence.
Qed.

Lemma find_index_none (p : Task -> bool) (l : list Task) :
  (forall t, In t l -> p t = false) -> find_index p l = None.
Proof.
  induction l as [|a l IH]; simpl; intros H; [reflexivity|].
  rewrite (H a) by now left.
  rewrite IH; [reflexivity|].
  intros t Ht. apply H. now right.
Qed.

(** C7 (not-found conditions).  When no task of the store has the id,
    [removeTask] and [toggleCompleteTask] each return [false], throw
    nothing, and leave the whole state as it was: the same tasks in the
    same order, and storage not written. *)
Theorem unknown_id_is_noop `{Platform} (s : State) (taskId : value) :
  (forall t, In t (tasks s) -> id t <> taskId) ->
  removeTask taskId s = (Normal false, s)
  /\ toggleCompleteTask taskId s = (Normal false, s).
Proof.
  intros Hno. split.
  - rewrite removeTask_eq. cbv zeta.
    rewrite filter_all.
    + rewrite Nat.ltb_irrefl. now rewrite set_tasks_same.
    + intros t Ht. apply negb_true_iff, strict_equal_false. now apply Hno.
  - rewrite toggleCompleteTask_eq.
    rewrite find_index_none; [reflexivity|].
    intros t Ht. apply strict_equal_false. now apply Hno.
Qed.

Lemma unknown_id_is_noop_witness :
  let P := Host.ticking day1 in
  (forall t, In t (tasks sample_store) -> id t <> VStr "99")
  /\ removeTask (VStr "99") sample_store = (Normal false, sample_store)
  /\ toggleCompleteTask (VStr "99") sample_store = (Normal false, sample_store).
Proof.
  intros P.
  assert (Hno : forall t, In t (tasks sample_store) -> id t <> VStr "99").
  { simpl. intros t [<-|[<-|[<-|[]]]]; discriminate. }
  split; [exact Hno|].
  exact (@unknown_id_is_noop P sample_store (VStr "99") Hno).
Defined.

(** ** Adding a task (C3, C10) *)

(** C10 (frame of a successful add).  When [addTask] returns [true], the
    resulting collection is a permutation of the old tasks plus the one
    new task: every earlier task is still there, with every field as it
    was, and the size has grown by one. *)
Theorem addTask_frame `{Platform}
    (s s' : State) (n d due p : value) :
  addTask n d due p s = (Normal true, s') ->
  Permutation (tasks s') (tasks s ++ [created_task s n d due p])
  /\ (forall t, In t (tasks s) -> In t (tasks s'))
  /\ List.length (tasks s') = S (List.length (tasks s)).
Proof.
  intros Hadd.
  assert (Hperm :
    Permutation (tasks s') (tasks s ++ [created_task s n d due p])).
  { destruct (isValidDate (new_Date due)) eqn:E.
    - rewrite (addTask_accepts s n d due p E) in Hadd. cbv zeta in Hadd.
      destruct (saved_text _); [|discriminate].
      injection Hadd as <-. simpl. apply Array_sort_perm.
    - rewrite (addTask_rejects s n d due p E) in Hadd. discriminate. }
  repeat split.
  - exact Hperm.
  - intros t Ht. apply Permutation_in with (1 := Permutation_sym Hperm).
    apply in_or_app. now left.
  - rewrite (Permutation_length Hperm), length_app. simpl. lia.
Qed.

Lemma addTask_frame_witness :
  let P := Host.ticking day2 in
  let run :=
    addTask (VStr "Buy milk") (VStr "") (VStr "2025-06-01T10:00")
      (VStr "High") sample_store in
  run = (Normal true, snd run)
  /\ Permutation (tasks (snd run))
       (tasks sample_store
        ++ [created_task sample_store (VStr "Buy milk") (VStr "")
              (VStr "2025-06-01T10:00") (VStr "High")])
  /\ (forall t, In t (tasks sample_store) -> In t (tasks (snd run)))
  /\ List.length (tasks (snd run)) = S (List.length (tasks sample_store)).
Proof.
  intros P run.
  assert (Hrun : run = (Normal true, snd run)) by (vm_compute; reflexivity).
  split; [exact Hrun|].
  exact (@addTask_frame P sample_store (snd run) _ _ _ _ Hrun).
Defined.

(** C3, as amended (add rejects a bad due date).  For every state,
    [addTask] with a due-date input that is missing, empty, or does not
    give a valid date returns [false] and leaves the collection and the
    stored record as they were; the failure is logged and the user
    alerted.  The name plays no part: nothing is required of it. *)
Theorem addTask_rejects_invalid_date `{Platform}
    (s : State) (n d due p : value) :
  due = VUndefined \/ due = VStr EmptyString
  \/ isValidDate (new_Date due) = false ->
  exists s',
    addTask n d due p s = (Normal false, s')
    /\ tasks s' = tasks s
    /\ storage s' = storage s
    /\ ticks s' = ticks s
    /\ console s' = console s ++ [add_error_log]
    /\ alerts s' = alerts s ++ [add_error_alert].
Proof.
  intros Hdue.
  assert (E : isValidDate (new_Date due) = false).
  { destruct Hdue as [-> | [-> | E]].
    - reflexivity.
    - unfold isValidDate, new_Date. simpl. now rewrite Date_parse_empty.
    - exact E. }
  exists (add_failed s).
  rewrite (addTask_rejects s n d due p E). now repeat split.
Qed.

Lemma addTask_rejects_invalid_date_witness :
  let P := Host.ticking day2 in
  (VStr "not-a-date" = VUndefined \/ VStr "not-a-date" = VStr EmptyString
   \/ isValidDate (new_Date (VStr "not-a-date")) = false)
  /\ exists s',
       addTask (VStr "Buy milk") (VStr "") (VStr "not-a-date") (VStr "High")
         sample_store = (Normal false, s')
       /\ tasks s' = tasks sample_store
       /\ storage s' = storage sample_store
       /\ ticks s' = ticks sample_store
       /\ console s' = console sample_store ++ [add_error_log]
       /\ alerts s' = alerts sample_store ++ [add_error_alert].
Proof.
  intros P.
  assert (Hdue : VStr "not-a-date" = VUndefined
                 \/ VStr "not-a-date" = VStr EmptyString
                 \/ isValidDate (new_Date (VStr "not-a-date")) = false)
    by (right; right; reflexivity).
  split; [exact Hdue|].
  exact (@addTask_rejects_invalid_date P sample_store
           (VStr "Buy milk") (VStr "") (VStr "not-a-date") (VStr "High")
           Hdue).
Defined.

(** Where the name is checked: the submit handler of the form refuses an
    empty name, or an empty due date, before [addTask] is called. *)
Lemma addTaskForm_submit_requires_name `{Platform}
    (s : State) (nameInput descriptionInput dueDateInput priorityInput : string) :
  String_trim nameInput = EmptyString \/ dueDateInput = EmptyString ->
  addTaskForm_submit nameInput descriptionInput dueDateInput priorityInput s
  = (Normal tt,
     mkState (tasks s) (storage s) (ticks s) (console s)
       (alerts s ++ [required_alert])).
Proof.
  unfold addTaskForm_submit.
  intros [-> | ->]; simpl; [reflexivity|].
  now rewrite andb_false_r.
Qed.

(** C3 as stated fails: an empty name with a valid due date is accepted,
    and the task is added and stored. *)
Lemma addTask_accepts_empty_name :
  let P := Host.ticking day2 in
  let run :=
    addTask (VStr "") (VStr "") (VStr "2025-06-01T10:00") (VStr "High")
      initial_state in
  fst run = Normal true
  /\ tasks (snd run) =
     [mkTask (VStr "1748858400000") (VStr "") (VStr "")
        (mkDate (Num day1)) (VStr "High") (VBool false)]
  /\ tasks (snd run) <> tasks initial_state
  /\ storage (snd run) <> storage initial_state.
Proof.
  vm_compute. repeat split; discriminate.
Qed.

(** ** The ordering invariant (C5) *)

Lemma sortable_dated (t : Task) : sortable t = true -> dated t = true.
Proof.
  unfold sortable, dated. intros H.
  now apply andb_true_iff in H as [_ H].
Qed.

Lemma Forall_sortable_dated (l : list Task) :
  Forall (fun t => sortable t = true) l -> Forall (fun t => dated t = true) l.
Proof.
  apply Forall_impl. exact sortable_dated.
Qed.

Lemma flip_isCompleted_sortable (t : Task) :
  sortable t = true -> sortable (flip_isCompleted t) = true.
Proof.
  unfold sortable, flip_isCompleted. simpl.
  rewrite !andb_true_iff. tauto.
Qed.

Lemma update_at_Forall (Q : Task -> Prop) (f : Task -> Task)
    (i : nat) (l : list Task) :
  (forall t, Q t -> Q (f t)) -> Forall Q l -> Forall Q (update_at i f l).
Proof.
  intros Hf Hl. revert i.
  induction Hl as [|t l Ht Hl IH]; intros i; destruct i; simpl;
    constructor; auto.
Qed.

Lemma filter_Forall {A} (Q : A -> Prop) (p : A -> bool) (l : list A) :
  Forall Q l -> Forall Q (filter p l).
Proof.
  rewrite !Forall_forall. intros H x Hx.
  apply filter_In in Hx. now apply H.
Qed.

Lemma created_task_sortable `{Platform} (s : State) (n d due p : value) :
  isValidDate (new_Date due) = true -> is_priority p = true ->
  sortable (created_task s n d due p) = true.
Proof.
  intros Hd Hp. unfold sortable, created_task. simpl.
  now rewrite Hd, Hp.
Qed.

Lemma filter_ordered (p : Task -> bool) (l : list Task) :
  ordered l -> ordered (filter p l).
Proof.
  rewrite !ordered_Sorted. apply Sorted_filter. exact task_le_trans.
Qed.

(** Each mutation, from an ordered store of tasks of the data model. *)
Lemma addTask_ordered `{Platform} (s : State) (n d due p : value) :
  Forall (fun t => sortable t = true) (tasks s) ->
  ordered (tasks s) ->
  is_priority p = true ->
  exists b s',
    addTask n d due p s = (Normal b, s')
    /\ ordered (tasks s')
    /\ Forall (fun t => sortable t = true) (tasks s').
Proof.
  intros Hs Ho Hp.
  destruct (isValidDate (new_Date due)) eqn:E.
  - rewrite (addTask_accepts s n d due p E). cbv zeta.
    assert (Hl : Forall (fun t => sortable t = true)
                   (tasks s ++ [created_task s n d due p])).
    { apply Forall_app. split; [assumption|].
      constructor; [|constructor].
      now apply created_task_sortable. }
    destruct (saved_text _);
      eexists; eexists; (split; [reflexivity|]); simpl;
      (split; [now apply Array_sort_ordered
              | now apply Array_sort_sortable]).
  - rewrite (addTask_rejects s n d due p E).
    exists false, (add_failed s). now repeat split.
Qed.

Lemma removeTask_ordered `{Platform} (s : State) (taskId : value) :
  Forall (fun t => sortable t = true) (tasks s) ->
  ordered (tasks s) ->
  exists b s',
    removeTask taskId s = (Normal b, s')
    /\ ordered (tasks s')
    /\ Forall (fun t => sortable t = true) (tasks s').
Proof.
  intros Hs Ho.
  rewrite removeTask_eq. cbv zeta.
  set (l := filter _ (tasks s)).
  assert (Hl : Forall (fun t => sortable t = true) l)
    by now apply filter_Forall.
  assert (Hol : ordered l) by now apply filter_ordered.
  destruct (saved_text_dated l (Forall_sortable_dated l Hl)) as [txt ->].
  destruct (_ <? _)%nat; eexists; eexists;
    (split; [reflexivity|]); simpl; now split.
Qed.

Lemma toggleCompleteTask_ordered `{Platform} (s : State) (taskId : value) :
  Forall (fun t => sortable t = true) (tasks s) ->
  ordered (tasks s) ->
  exists b s',
    toggleCompleteTask taskId s = (Normal b, s')
    /\ ordered (tasks s')
    /\ Forall (fun t => sortable t = true) (tasks s').
Proof.
  intros Hs Ho.
  rewrite toggleCompleteTask_eq.
  destruct (find_index _ _) as [i|].
  - cbv zeta.
    assert (Hl : Forall (fun t => sortable t = true)
                   (update_at i flip_isCompleted (tasks s))).
    { apply update_at_Forall; [|assumption].
      exact flip_isCompleted_sortable. }
    apply Array_sort_sortable in Hl as Hl'.
    destruct (saved_text_dated _ (Forall_sortable_dated _ Hl'))
      as [txt ->].
    eexists; eexists. split; [reflexivity|]. simpl.
    split; [now apply Array_sort_ordered | assumption].
  - exists false, s. now repeat split.
Qed.

(** C5 (ordering invariant).  From a store of tasks of the data model
    whose order satisfies the sort rule, every mutation (add, remove,
    toggle-complete) returns normally, with success or with failure, and
    leaves a store of the same kind whose order again satisfies the sort
    rule; [removeTask], which does not sort, keeps the order by keeping
    the remaining tasks in place. *)
Theorem mutation_keeps_order `{Platform} (op : mutation) (s : State) :
  Forall (fun t => sortable t = true) (tasks s) ->
  ordered (tasks s) ->
  mutation_ok op = true ->
  exists b s',
    run_mutation op s = (Normal b, s')
    /\ ordered (tasks s')
    /\ Forall (fun t => sortable t = true) (tasks s').
Proof.
  intros Hs Ho Hop.
  destruct op as [n d due p | taskId | taskId]; simpl in *.
  - now apply addTask_ordered.
  - now apply removeTask_ordered.
  - now apply toggleCompleteTask_ordered.
Qed.


Lemma mutation_keeps_order_witness :
  let P := Host.ticking day2 in
  let op := Remove (VStr "12") in
  Forall (fun t => sortable t = true) (tasks sample_store)
  /\ ordered (tasks sample_store)
  /\ mutation_ok op = true
  /\ exists b s',
       run_mutation op sample_store = (Normal b, s')
       /\ ordered (tasks s')
       /\ Forall (fun t => sortable t = true) (tasks s').
Proof.
  intros P op.
  assert (Hs : Forall (fun t => sortable t = true) (tasks sample_store))
    by repeat constructor.
  assert (Ho : ordered (tasks sample_store)).
  { change (tasks sample_store)
      with (Array_sort SortCompare (tasks sample_store)).
    now apply Array_sort_ordered. }
  split; [exact Hs|]. split; [exact Ho|]. split; [reflexivity|].
  exact (@mutation_keeps_order P op sample_store Hs Ho eq_refl).
Defined.

(** The invariant along any run of mutations. *)
Corollary mutations_keep_order `{Platform}
    (ops : list mutation) (s : State) :
  Forall (fun t => sortable t = true) (tasks s) ->
  ordered (tasks s) ->
  Forall (fun op => mutation_ok op = true) ops ->
  ordered (tasks (run_mutations ops s)).
Proof.
  intros Hs Ho Hops. revert s Hs Ho.
  induction Hops as [|op ops Hop Hops IH]; intros s Hs Ho; simpl.
  - assumption.
  - assert (Hstep : exists b s',
               run_mutation op s = (Normal b, s')
               /\ ordered (tasks s')
               /\ Forall (fun t => sortable t = true) (tasks s')).
    { destruct op as [n d due p | taskId | taskId]; simpl in *.
      - now apply addTask_ordered.
      - now apply removeTask_ordered.
      - now apply toggleCompleteTask_ordered. }
    destruct Hstep as (b & s' & -> & Ho' & Hs').
    now apply IH.
Qed.

(** ** The data model is kept *)

Lemma Z_toString_nonempty (z : Z) : Z_toString z <> EmptyString.
Proof.
  unfold Z_toString. destruct z as [|p|p]; simpl.
  - discriminate.
  - pose proof (DecimalPos.Unsigned.to_uint_nonnil p) as Hp.
    destruct (Pos.to_uint p); simpl; congruence.
  - discriminate.
Qed.

Lemma well_formed_sortable (t : Task) :
  well_formed t = true -> sortable t = true.
Proof.
  unfold well_formed, sortable. rewrite !andb_true_iff. tauto.
Qed.

Lemma well_formed_storable (t : Task) :
  well_formed t = true -> storable t = true.
Proof.
  unfold well_formed, storable, is_string, is_priority, is_boolean.
  rewrite !andb_true_iff.
  intros ((((((_ & Hi) & Hn) & Hd) & Hdue) & Hp) & Hc).
  destruct (name t), (description t), (priority t), (isCompleted t);
    simpl in *; try discriminate; repeat split; trivial.
Qed.

Lemma created_task_well_formed `{Platform} (s : State) (n d due p : value) :
  is_string n = true -> is_string d = true -> is_priority p = true ->
  isValidDate (new_Date due) = true ->
  well_formed (created_task s n d due p) = true.
Proof.
  intros Hn Hd Hp Hdue. unfold well_formed, created_task. simpl.
  rewrite Hn, Hd, Hp, Hdue. simpl.
  destruct (Z_toString _ =? "")%string eqn:E; [|reflexivity].
  apply String.eqb_eq in E. now apply Z_toString_nonempty in E.
Qed.

Lemma flip_isCompleted_well_formed (t : Task) :
  well_formed t = true -> well_formed (flip_isCompleted t) = true.
Proof.
  unfold well_formed, flip_isCompleted. simpl.
  rewrite !andb_true_iff. tauto.
Qed.

(** Every mutation with inputs of the data model keeps the store in the
    data model. *)
Lemma run_mutation_well_formed `{Platform} (op : mutation) (s : State) :
  Forall (fun t => well_formed t = true) (tasks s) ->
  mutation_well_formed op = true ->
  Forall (fun t => well_formed t = true) (tasks (snd (run_mutation op s))).
Proof.
  intros Hs Hop.
  destruct op as [n d due p | taskId | taskId]; simpl in *.
  - apply andb_true_iff in Hop as [Hop Hp].
    apply andb_true_iff in Hop as [Hn Hd].
    destruct (isValidDate (new_Date due)) eqn:E.
    + rewrite (addTask_accepts s n d due p E). cbv zeta.
      assert (Hl : Forall (fun t => well_formed t = true)
                     (Array_sort SortCompare
                        (tasks s ++ [created_task s n d due p]))).
      { rewrite Forall_forall in *. intros t Ht.
        apply (proj1 (Array_sort_In SortCompare t _)) in Ht.
        apply in_app_or in Ht as [Ht|[<-|[]]]; [now apply Hs|].
        now apply created_task_well_formed. }
      now destruct (saved_text _).
    + now rewrite (addTask_rejects s n d due p E).
  - rewrite removeTask_eq. cbv zeta.
    assert (Hl : Forall (fun t => well_formed t = true)
                   (filter (fun t => negb (strict_equal (id t) taskId))
                      (tasks s)))
      by now apply filter_Forall.
    destruct (_ <? _)%nat; [|exact Hl].
    now destruct (saved_text _).
  - rewrite toggleCompleteTask_eq.
    destruct (find_index _ _) as [i|]; [|exact Hs].
    cbv zeta.
    assert (Hl : Forall (fun t => well_formed t = true)
                   (Array_sort SortCompare
                      (update_at i flip_isCompleted (tasks s)))).
    { rewrite Forall_forall. intros t Ht.
      apply (proj1 (Array_sort_In SortCompare t _)) in Ht.
      revert t Ht. apply Forall_forall.
      apply update_at_Forall; [|assumption].
      exact flip_isCompleted_well_formed. }
    now destruct (saved_text _).
Qed.

(** X5 (the data model is an invariant).  A session that starts on an
    empty storage and runs mutations with inputs of the data model only
    ever holds tasks of the data model, in key order. *)
Corollary session_invariant `{Platform} (ops : list mutation) :
  Forall (fun op => mutation_well_formed op = true) ops ->
  let s := run_mutations ops (snd (TaskManager_new initial_state)) in
  Forall (fun t => well_formed t = true) (tasks s) /\ ordered (tasks s).
Proof.
  intros Hops.
  assert (Hgen : forall s0,
             Forall (fun t => well_formed t = true) (tasks s0) ->
             ordered (tasks s0) ->
             Forall (fun t => well_formed t = true)
               (tasks (run_mutations ops s0))
             /\ ordered (tasks (run_mutations ops s0))).
  { induction Hops as [|op ops Hop Hops IH]; intros s0 Hwf Ho; simpl.
    - now split.
    - assert (Hsort : Forall (fun t => sortable t = true) (tasks s0)).
      { revert Hwf. apply Forall_impl. exact well_formed_sortable. }
      assert (Hok : mutation_ok op = true).
      { destruct op; simpl in *; trivial.
        now apply andb_true_iff in Hop as [_ Hop]. }
      pose proof (run_mutation_well_formed op s0 Hwf Hop) as Hwf'.
      assert (Ho' : ordered (tasks (snd (run_mutation op s0)))).
      { destruct op as [n d due p | taskId | taskId]; simpl in *.
        - destruct (addTask_ordered s0 n d due p Hsort Ho Hok)
            as (b & s' & -> & Ho' & _). exact Ho'.
        - destruct (removeTask_ordered s0 taskId Hsort Ho)
            as (b & s' & -> & Ho' & _). exact Ho'.
        - destruct (toggleCompleteTask_ordered s0 taskId Hsort Ho)
            as (b & s' & -> & Ho' & _). exact Ho'. }
      now apply IH. }
  apply Hgen.
  - constructor.
  - intros i a b Ha. destruct i; discriminate.
Qed.

(** ** Toggling completion (C6) *)

(** What [find] returns, and what the update in place does to the array:
    the first task satisfying the predicate is replaced, all others stay. *)
Lemma find_index_split (p : Task -> bool) (f : Task -> Task) (l : list Task) :
  (exists t, In t l /\ p t = true) ->
  exists i l1 t l2,
    find_index p l = Some i
    /\ l = l1 ++ t :: l2
    /\ p t = true
    /\ (forall x, In x l1 -> p x = false)
    /\ update_at i f l = l1 ++ f t :: l2.
Proof.
  induction l as [|a l IH]; intros (t & Hin & Hp).
  - destruct Hin.
  - simpl. destruct (p a) eqn:Ea.
    + exists O, [], a, l. simpl. repeat split; trivial.
      intros x [].
    + destruct IH as (i & l1 & t' & l2 & Hi & Hl & Hp' & Hl1 & Hu).
      { destruct Hin as [->|Hin]; [congruence|]. now exists t. }
      exists (S i), (a :: l1), t', l2.
      rewrite Hi. simpl. rewrite Hl at 1. rewrite Hu.
      repeat split; trivial.
      intros x [<-|Hx]; auto.
Qed.

(** C6 (toggle flips and reorders).  On an id held by a task of the
    store, [toggleCompleteTask] returns [true]; the first task with that
    id has its completion flag negated and no other field of any task
    changes; the collection is sorted again and written to storage.  In
    particular, with A (incomplete, High) and B (incomplete, Low) due at
    the same time, toggling A leaves B in front of A. *)
Theorem toggleCompleteTask_flips_and_reorders `{Platform} :
  (forall (s : State) (taskId : value),
      Forall (fun t => sortable t = true) (tasks s) ->
      (exists t, In t (tasks s) /\ id t = taskId) ->
      exists l1 t l2 b s' txt,
        tasks s = l1 ++ t :: l2
        /\ id t = taskId
        /\ (forall x, In x l1 -> id x <> taskId)
        /\ isCompleted t = VBool b
        /\ toggleCompleteTask taskId s = (Normal true, s')
        /\ Permutation (tasks s')
             (l1 ++ set_isCompleted t (VBool (negb b)) :: l2)
        /\ ordered (tasks s')
        /\ saved_text (tasks s') = Some txt
        /\ s' = stored (set_tasks s (tasks s')) txt)
  /\ (forall (s : State) (due : Z),
        tasks s = [ sample_task "1" "A" "High" due false;
                    sample_task "2" "B" "Low" due false ] ->
        fst (toggleCompleteTask (VStr "1") s) = Normal true
        /\ tasks (snd (toggleCompleteTask (VStr "1") s)) =
           [ sample_task "2" "B" "Low" due false;
             sample_task "1" "A" "High" due true ]).
Proof.
  split.
  - intros s taskId Hs Hin.
    destruct (find_index_split (fun t => strict_equal (id t) taskId)
                flip_isCompleted (tasks s))
      as (i & l1 & t & l2 & Hi & Hl & Hp & Hl1 & Hu).
    { destruct Hin as (t & Hin & Hid). exists t. split; [assumption|].
      now apply strict_equal_true. }
    assert (Ht : sortable t = true).
    { rewrite Forall_forall in Hs. apply Hs. rewrite Hl.
      apply in_or_app. right. now left. }
    assert (Hb : exists b, isCompleted t = VBool b).
    { unfold sortable, is_boolean in Ht.
      destruct (isCompleted t); try discriminate. eauto. }
    destruct Hb as [b Hb].
    assert (Hsort : Forall (fun t => sortable t = true)
                      (Array_sort SortCompare
                         (update_at i flip_isCompleted (tasks s)))).
    { apply Array_sort_sortable, update_at_Forall; [|assumption].
      exact flip_isCompleted_sortable. }
    destruct (saved_text_dated _ (Forall_sortable_dated _ Hsort))
      as [txt Htxt].
    exists l1, t, l2, b.
    eexists. exists txt.
    rewrite toggleCompleteTask_eq, Hi. cbv zeta. rewrite Htxt.
    split; [assumption|].
    split; [now apply strict_equal_true|].
    split; [intros x Hx; now apply strict_equal_false, Hl1|].
    split; [assumption|].
    split; [reflexivity|]. simpl.
    split.
    { rewrite Hu. unfold flip_isCompleted. rewrite Hb. simpl.
      apply Array_sort_perm. }
    split.
    { apply Array_sort_ordered, update_at_Forall; [|assumption].
      exact flip_isCompleted_sortable. }
    split; [assumption | reflexivity].
  - intros s due Hl.
    rewrite toggleCompleteTask_eq, Hl. simpl. split; reflexivity.
Qed.

Lemma toggleCompleteTask_flips_and_reorders_witness :
  let P := Host.ticking day2 in
  Forall (fun t => sortable t = true) (tasks sample_store)
  /\ (exists t, In t (tasks sample_store) /\ id t = VStr "11")
  /\ exists l1 t l2 b s' txt,
       tasks sample_store = l1 ++ t :: l2
       /\ id t = VStr "11"
       /\ (forall x, In x l1 -> id x <> VStr "11")
       /\ isCompleted t = VBool b
       /\ toggleCompleteTask (VStr "11") sample_store = (Normal true, s')
       /\ Permutation (tasks s')
            (l1 ++ set_isCompleted t (VBool (negb b)) :: l2)
       /\ ordered (tasks s')
       /\ saved_text (tasks s') = Some txt
       /\ s' = stored (set_tasks sample_store (tasks s')) txt.
Proof.
  intros P.
  assert (Hs : Forall (fun t => sortable t = true) (tasks sample_store))
    by repeat constructor.
  assert (Hin : exists t, In t (tasks sample_store) /\ id t = VStr "11").
  { eexists. split; [left; reflexivity | reflexivity]. }
  split; [exact Hs|]. split; [exact Hin|].
  exact (proj1 (@toggleCompleteTask_flips_and_reorders P)
           sample_store (VStr "11") Hs Hin).
Defined.

Example toggleCompleteTask_sample :
  let P := Host.ticking day2 in
  map (fun t => (id t, isCompleted t))
    (tasks (snd (toggleCompleteTask (VStr "11") sample_store))) =
  [ (VStr "12", VBool false); (VStr "13", VBool true);
    (VStr "11", VBool true) ].
Proof. vm_compute. reflexivity. Qed.

(** ** Persistence round trip (C2) *)

Section RoundTrip.

Context `{P : Platform}.

Lemma ticked_ticked (s : State) (n : nat) :
  ticked (ticked s 1) n = ticked s (S n).
Proof.
  unfold ticked. simpl. f_equal. lia.
Qed.

Lemma ticked_0 (s : State) : ticked s 0 = s.
Proof. now destruct s. Qed.

(** The loader rebuilds a storable task from its own record. *)
Lemma load_record_of (t : Task) (r : json) (s : State) :
  storable t = true ->
  (forall z, getTime (dueDate t) = Num z ->
             Date_parse (Date_toISOString z) = Num z) ->
  record_of t = Some r ->
  load_record r s = (Normal t, ticked s 1).
Proof.
  unfold storable, record_of.
  destruct t as [i n d [due] p c]. simpl.
  rewrite !andb_true_iff.
  intros (((((Hi & Hn) & Hd) & Hdue) & Hp) & Hc) Hrt.
  destruct due as [z|]; [|discriminate].
  intros [= <-].
  unfold load_record, bind, get_property, Task_new, Date_now_call, ret.
  simpl. unfold bind. simpl. rewrite Hi.
  unfold set_id, new_Date. simpl. rewrite (Hrt z eq_refl).
  destruct c; try discriminate; reflexivity.
Qed.

Lemma mapM_load_record (l : list Task) (rs : list json) (s : State) :
  Forall (fun t => storable t = true) l ->
  Forall (fun t => forall z, getTime (dueDate t) = Num z ->
                             Date_parse (Date_toISOString z) = Num z) l ->
  records_of l = Some rs ->
  mapM load_record rs s = (Normal l, ticked s (List.length l)).
Proof.
  intros Hst. revert rs s.
  induction Hst as [|t l Ht Hl IH]; intros rs s Hrt Hrs; simpl in *.
  - injection Hrs as <-. simpl. unfold ret. now rewrite ticked_0.
  - inversion Hrt as [|? ? Hrt1 Hrt2]; subst.
    destruct (record_of t) as [r|] eqn:Er; [|discriminate].
    destruct (records_of l) as [rs'|] eqn:Ers; [|discriminate].
    injection Hrs as <-. simpl.
    unfold bind at 1. rewrite (load_record_of t r s Ht Hrt1 Er).
    unfold bind at 1. rewrite (IH rs' (ticked s 1) Hrt2 eq_refl).
    unfold ret. now rewrite ticked_ticked.
Qed.

(** A record with an id keeps it. *)
Lemma load_record_keeps_id (m : list (string * value)) (s : State) :
  ToBoolean (lookup_member "id" m) = true ->
  exists t s',
    load_record (JObj m) s = (Normal t, s')
    /\ id t = lookup_member "id" m.
Proof.
  intros Hid.
  unfold load_record, bind, get_property, Task_new, Date_now_call, ret.
  simpl. rewrite Hid. simpl. eauto.
Qed.

End RoundTrip.

(** C2 (round trip).  For any collection of storable tasks, [saveTasks]
    succeeds and a later [loadTasks] from the storage it wrote returns the
    same tasks, every field equal (id, name, description, due-date
    instant, priority, completion flag), in the same order, and logs no
    error.  No id is regenerated on the way: the loader keeps the id of
    every record that has one. *)
Theorem load_after_save `{Platform} (s : State) :
  Forall (fun t => storable t = true) (tasks s) ->
  round_trips_on (tasks s) ->
  exists s1,
    saveTasks s = (Normal tt, s1)
    /\ tasks s1 = tasks s
    /\ (forall s2,
          storage s2 = storage s1 ->
          exists s3,
            loadTasks s2 = (Normal (tasks s), s3)
            /\ console s3 = console s2
            /\ storage s3 = storage s2)
    /\ (forall m s0,
          ToBoolean (lookup_member "id" m) = true ->
          exists t s0',
            load_record (JObj m) s0 = (Normal t, s0')
            /\ id t = lookup_member "id" m).
Proof.
  intros Hst [Hjson Hdate].
  assert (Hd : Forall (fun t => dated t = true) (tasks s)).
  { revert Hst. apply Forall_impl. intros t Ht.
    unfold storable in Ht. unfold dated.
    rewrite !andb_true_iff in Ht. tauto. }
  apply records_of_dated in Hd.
  destruct (records_of (tasks s)) as [rs|] eqn:Ers; [|congruence].
  destruct (Hjson rs eq_refl) as [Hne Hparse].
  exists (stored s (JSON_stringify (JArr rs))).
  rewrite saveTasks_eq. unfold saved_text. rewrite Ers. simpl.
  split; [reflexivity|]. split; [reflexivity|]. split.
  - intros s2 Hs2.
    exists (ticked s2 (List.length (tasks s))).
    unfold loadTasks, bind, localStorage_getItem. rewrite Hs2.
    apply String.eqb_neq in Hne. rewrite Hne. simpl.
    unfold try_catch. rewrite Hparse. simpl.
    rewrite (mapM_load_record (tasks s) rs s2 Hst Hdate Ers).
    simpl. now repeat split.
  - intros m s0. apply load_record_keeps_id.
Qed.

(** The reference host does round-trip the sample store. *)
Lemma sample_store_round_trips :
  let P := Host.ticking day2 in
  round_trips_on (tasks sample_store).
Proof.
  intros P. split.
  - intros rs Hrs. vm_compute in Hrs. injection Hrs as <-.
    split; [vm_compute; discriminate | vm_compute; reflexivity].
  - repeat constructor; intros z [= <-]; vm_compute; reflexivity.
Qed.

Lemma load_after_save_witness :
  let P := Host.ticking day2 in
  Forall (fun t => storable t = true) (tasks sample_store)
  /\ round_trips_on (tasks sample_store)
  /\ exists s1,
       saveTasks sample_store = (Normal tt, s1)
       /\ tasks s1 = tasks sample_store
       /\ (forall s2,
             storage s2 = storage s1 ->
             exists s3,
               loadTasks s2 = (Normal (tasks sample_store), s3)
               /\ console s3 = console s2
               /\ storage s3 = storage s2)
       /\ (forall m s0,
             ToBoolean (lookup_member "id" m) = true ->
             exists t s0',
               load_record (JObj m) s0 = (Normal t, s0')
               /\ id t = lookup_member "id" m).
Proof.
  intros P.
  assert (Hst : Forall (fun t => storable t = true) (tasks sample_store))
    by repeat constructor.
  split; [exact Hst|]. split; [exact sample_store_round_trips|].
  exact (@load_after_save P sample_store Hst sample_store_round_trips).
Defined.

(** The same round trip, run: a new session opened on the storage the
    first one wrote holds the same tasks. *)
Example reload_sample_store :
  let P := Host.ticking day2 in
  let written := snd (saveTasks sample_store) in
  let session := mkState [] (storage written) O [] [] in
  tasks (snd (TaskManager_new session)) = tasks sample_store.
Proof. vm_compute. reflexivity. Qed.

(** ** Loading (C8) *)

Section Loading.

Context `{P : Platform}.

Lemma same_but_clock_refl (s : State) : same_but_clock s s.
Proof. now repeat split. Qed.

Lemma same_but_clock_trans (s1 s2 s3 : State) :
  same_but_clock s1 s2 -> same_but_clock s2 s3 -> same_but_clock s1 s3.
Proof.
  unfold same_but_clock.
  intros (-> & -> & -> & ->) (-> & -> & -> & ->). now repeat split.
Qed.

Lemma load_record_nullish (data : json) (s : State) :
  is_nullish data = true -> load_record data s = (Throw TypeError, s).
Proof.
  destruct data as [[| | | |]| |]; try discriminate; reflexivity.
Qed.

(** On any other element the callback returns a task. *)
Lemma load_record_returns (data : json) (s : State) :
  is_nullish data = false ->
  exists t s', load_record data s = (Normal t, s') /\ same_but_clock s s'.
Proof.
  intros Hn.
  assert (Hget : forall k s0,
             exists v, get_property data k s0 = (Normal v, s0)).
  { intros k s0. destruct data as [[| | | |]| |]; try discriminate;
      eexists; reflexivity. }
  unfold load_record, bind.
  destruct (Hget "name" s) as [n ->].
  destruct (Hget "description" s) as [d ->].
  destruct (Hget "dueDate" s) as [due ->].
  destruct (Hget "priority" s) as [p ->].
  destruct (Hget "isCompleted" s) as [c ->].
  unfold Task_new, bind, Date_now_call, ret. simpl.
  match goal with
  | |- context [get_property data "id" ?s0] =>
      destruct (Hget "id" s0) as [i ->]
  end.
  destruct (ToBoolean i); simpl; eexists; eexists;
    (split; [reflexivity | now repeat split]).
Qed.

Lemma mapM_load_record_throws (elems : list json) (s : State) :
  existsb is_nullish elems = true ->
  exists s', mapM load_record elems s = (Throw TypeError, s')
             /\ same_but_clock s s'.
Proof.
  revert s. induction elems as [|data elems IH]; intros s; simpl.
  - discriminate.
  - destruct (is_nullish data) eqn:En; simpl.
    + intros _. exists s. unfold bind.
      rewrite (load_record_nullish data s En).
      split; [reflexivity | apply same_but_clock_refl].
    + intros Hex.
      destruct (load_record_returns data s En) as (t & s1 & Hl & Hs1).
      destruct (IH s1 Hex) as (s2 & Hm & Hs2).
      exists s2. unfold bind at 1. rewrite Hl.
      unfold bind at 1. rewrite Hm.
      split; [reflexivity | now apply same_but_clock_trans with s1].
Qed.

Lemma mapM_load_record_returns (elems : list json) (s : State) :
  existsb is_nullish elems = false ->
  exists l s',
    mapM load_record elems s = (Normal l, s')
    /\ List.length l = List.length elems
    /\ same_but_clock s s'.
Proof.
  revert s. induction elems as [|data elems IH]; intros s; simpl.
  - intros _. exists [], s.
    split; [reflexivity|]. split; [reflexivity|].
    apply same_but_clock_refl.
  - intros Hex. apply orb_false_iff in Hex as [En Hex].
    destruct (load_record_returns data s En) as (t & s1 & Hl & Hs1).
    destruct (IH s1 Hex) as (l & s2 & Hm & Hlen & Hs2).
    exists (t :: l), s2. unfold bind at 1. rewrite Hl.
    unfold bind at 1. rewrite Hm. simpl.
    split; [reflexivity|]. split; [now rewrite Hlen|].
    now apply same_but_clock_trans with s1.
Qed.




End Loading.




(** The stored array [partial_records], as the loader reads it: the full
    record as it is, the record without id, priority and flag under a
    new id and with an invalid date, the number as a task without
    fields. *)
Example loadTasks_partial_records :
  let P := Host.ticking day2 in
  fst (loadTasks partial_records_store)
  = Normal
      [ mkTask (VStr "11") (VStr "Water plants") (VStr "")
          (mkDate (Num day2)) (VStr "High") (VBool true);
        mkTask (VStr "1748858400002") (VStr "Pay rent") VUndefined
          (mkDate NaN) VUndefined (VBool false);
        mkTask (VStr "1748858400004") VUndefined VUndefined
          (mkDate NaN) VUndefined (VBool false) ].
Proof. vm_compute. reflexivity. Qed.


(** ** Ids (C4, C9) *)

Lemma Z_toString_inj (a b : Z) : Z_toString a = Z_toString b -> a = b.
Proof.
  unfold Z_toString. intros E.
  apply DecimalZ.to_int_inj.
  apply (f_equal NilEmpty.int_of_string) in E.
  rewrite !NilEmpty.isi in E. now injection E.
Qed.

Lemma find_unique {A} (p : A -> bool) (l : list A) (x : A) :
  In x l -> p x = true ->
  (forall y, In y l -> p y = true -> y = x) ->
  find p l = Some x.
Proof.
  induction l as [|a l IH]; intros Hin Hp Huniq; [destruct Hin|].
  simpl. destruct (p a) eqn:Ea.
  - f_equal. apply Huniq; [now left | assumption].
  - apply IH; trivial.
    + destruct Hin as [->|Hin]; [congruence | assumption].
    + intros y Hy. apply Huniq. now right.
Qed.

(** What [addTask] does on valid input when the clock reading is not yet
    the id of a task: it returns [true], the store holds the tasks it
    held and the new one, which is incomplete and is the one
    [getTaskById] finds under its id, and the collection is stored. *)
Lemma addTask_accepts_valid_input `{Platform}
    (s : State) (n d due p : value) :
  let new := created_task s n d due p in
  Forall (fun t => dated t = true) (tasks s) ->
  isValidDate (new_Date due) = true ->
  (forall t, In t (tasks s) -> id t <> id new) ->
  exists s' txt,
    addTask n d due p s = (Normal true, s')
    /\ List.length (tasks s') = S (List.length (tasks s))
    /\ isCompleted new = VBool false
    /\ getTaskById (id new) s' = (Normal (Some new), s')
    /\ Permutation (tasks s') (tasks s ++ [new])
    /\ saved_text (tasks s') = Some txt
    /\ storage s' = Some txt.
Proof.
  intros new Hd Hdue Hfresh.
  set (l := Array_sort SortCompare (tasks s ++ [new])).
  assert (Hl : Forall (fun t => dated t = true) l).
  { rewrite Forall_forall in *. intros t Ht.
    apply (proj1 (Array_sort_In SortCompare t _)) in Ht.
    apply in_app_or in Ht as [Ht|[<-|[]]]; [now apply Hd|].
    exact Hdue. }
  destruct (saved_text_dated l Hl) as [txt Htxt].
  exists (stored (set_tasks (ticked s 1) l) txt), txt.
  rewrite (addTask_accepts s n d due p Hdue). cbv zeta.
  fold new. fold l. rewrite Htxt.
  split; [reflexivity|]. simpl.
  split.
  { unfold l. rewrite Array_sort_length, length_app. simpl. lia. }
  split; [reflexivity|].
  split.
  { unfold getTaskById, bind, get_tasks, ret. simpl. f_equal. f_equal.
    apply find_unique.
    - apply Array_sort_In, in_or_app. right. now left.
    - now apply strict_equal_true.
    - intros y Hy Hp.
      apply (proj1 (Array_sort_In SortCompare y _)) in Hy.
      apply strict_equal_true in Hp.
      apply in_app_or in Hy as [Hy|[<-|[]]]; [|reflexivity].
      now destruct (Hfresh y Hy). }
  split; [apply Array_sort_perm|].
  now split.
Qed.

(** Two clock readings that differ give two ids that differ. *)
Lemma created_task_id_differs `{Platform}
    (s1 s2 : State) (n1 d1 due1 p1 n2 d2 due2 p2 : value) :
  Date_now (ticks s1) <> Date_now (ticks s2) ->
  id (created_task s1 n1 d1 due1 p1) <> id (created_task s2 n2 d2 due2 p2).
Proof.
  intros Hne. simpl. intros [= E]. now apply Z_toString_inj in E.
Qed.

(** C4, at a failing input.  A second task added within the millisecond
    of the first is given the id of the first: the add returns [true] and
    the task is in the store, but its id is not fresh, and [getTaskById]
    under that id returns the earlier task, not the one just added. *)
Theorem addTask_reuses_id :
  let P := Host.frozen day2 in
  let s1 :=
    snd (addTask (VStr "Water plants") (VStr "") (VStr "2025-06-01T10:00")
           (VStr "High") initial_state) in
  let new :=
    created_task s1 (VStr "Pay rent") (VStr "") (VStr "2025-06-02T10:00")
      (VStr "Low") in
  let run :=
    addTask (VStr "Pay rent") (VStr "") (VStr "2025-06-02T10:00")
      (VStr "Low") s1 in
  fst run = Normal true
  /\ In new (tasks (snd run))
  /\ map id (tasks s1) = [id new]
  /\ fst (getTaskById (id new) (snd run)) =
     Normal (Some (sample_task "1748858400000" "Water plants" "High"
                     day1 false))
  /\ name new = VStr "Pay rent".
Proof.
  vm_compute. repeat split. right. left. reflexivity.
Qed.

(** C9, at failing inputs.  Two records stored without an id are loaded
    within one millisecond and both get the id of that millisecond; so do
    two tasks added within one millisecond. *)
Theorem ids_collide :
  let P := Host.frozen day2 in
  let loaded := snd (TaskManager_new legacy_store) in
  let added :=
    run_mutations
      [ Add (VStr "Water plants") (VStr "") (VStr "2025-06-01T10:00")
          (VStr "High");
        Add (VStr "Pay rent") (VStr "") (VStr "2025-06-02T10:00")
          (VStr "Low") ]
      initial_state in
  (map name (tasks loaded) = [VStr "Water plants"; VStr "Pay rent"]
   /\ ~ unique_ids (tasks loaded))
  /\ (map name (tasks added) = [VStr "Water plants"; VStr "Pay rent"]
      /\ ~ unique_ids (tasks added)).
Proof.
  intros P loaded added.
  assert (Hl : map id (tasks loaded) =
               [VStr "1748858400000"; VStr "1748858400000"])
    by (vm_compute; reflexivity).
  assert (Ha : map id (tasks added) =
               [VStr "1748858400000"; VStr "1748858400000"])
    by (vm_compute; reflexivity).
  unfold unique_ids. rewrite Hl, Ha.
  assert (Hdup : ~ NoDup [VStr "1748858400000"; VStr "1748858400000"]).
  { intros Hnd. inversion Hnd as [|? ? Hnin _]. apply Hnin. now left. }
  split; (split; [vm_compute; reflexivity | exact Hdup]).
Qed.

(** * Further properties of the store *)

(** ** Filtering and sorting commute *)

Section SortFilter.

Context {A : Type} (cmp : A -> A -> Z) (dom : A -> Prop).
Hypothesis cmp_consistent : consistent_on dom cmp.
Variable q : A -> bool.

Lemma Array_sort_insert_front (x : A) (l : list A) :
  (forall z, In z l -> cmp x z <= 0) ->
  Array_sort_insert cmp x l = x :: l.
Proof.
  destruct l as [|y l]; intros H; simpl; [reflexivity|].
  assert (E : (cmp x y <=? 0) = true) by (apply Z.leb_le, H; now left).
  now rewrite E.
Qed.

Lemma Array_sort_insert_dropped (x : A) (l : list A) :
  q x = false ->
  filter q (Array_sort_insert cmp x l) = filter q l.
Proof.
  intros Hx. induction l as [|y l IH]; simpl.
  - now rewrite Hx.
  - destruct (cmp x y <=? 0); simpl.
    + now rewrite Hx.
    + now rewrite IH.
Qed.

Lemma Array_sort_insert_kept (x : A) (l : list A) :
  dom x -> Forall dom l -> Sorted (not_after cmp) l ->
  q x = true ->
  filter q (Array_sort_insert cmp x l) =
  Array_sort_insert cmp x (filter q l).
Proof.
  intros Hx Hl Hs Hq.
  induction l as [|y l IH]; simpl.
  - now rewrite Hq.
  - inversion Hl as [|? ? Hy Hl']; subst.
    destruct (cmp x y <=? 0) eqn:E.
    + simpl. rewrite Hq.
      apply Z.leb_le in E.
      symmetry. apply Array_sort_insert_front.
      intros z Hz.
      destruct (q y) eqn:Ey.
      * destruct Hz as [<-|Hz]; [assumption|].
        apply filter_In in Hz as [Hz _].
        destruct cmp_consistent as [_ Htrans].
        apply Htrans with y; trivial.
        -- rewrite Forall_forall in Hl'. now apply Hl'.
        -- now apply (Sorted_head_le cmp dom cmp_consistent y l).
      * apply filter_In in Hz as [Hz _].
        destruct cmp_consistent as [_ Htrans].
        apply Htrans with y; trivial.
        -- rewrite Forall_forall in Hl'. now apply Hl'.
        -- now apply (Sorted_head_le cmp dom cmp_consistent y l).
    + simpl. rewrite IH; trivial; [|now inversion Hs].
      destruct (q y); simpl; [now rewrite E | reflexivity].
Qed.

Lemma Array_sort_filter (l : list A) :
  Forall dom l ->
  filter q (Array_sort cmp l) = Array_sort cmp (filter q l).
Proof.
  intros Hl. destruct cmp_consistent as [Hanti _].
  induction Hl as [|x l Hx Hl IH]; [reflexivity|].
  simpl. destruct (q x) eqn:Ex.
  - simpl. rewrite <- IH.
    apply Array_sort_insert_kept; trivial.
    + rewrite Forall_forall in *. intros y Hy.
      apply Hl. exact (proj1 (Array_sort_In cmp y l) Hy).
    + apply Array_sort_Sorted with (dom := dom); trivial.
      intros a b Ha Hb Hgt. pose proof (Hanti a b Ha Hb).
      unfold not_after. lia.
  - rewrite Array_sort_insert_dropped; trivial.
Qed.

End SortFilter.

Lemma filter_app_last {A} (q : A -> bool) (l : list A) (x : A) :
  (forall y, In y l -> q y = true) -> q x = false ->
  filter q (l ++ [x]) = l.
Proof.
  intros Hl Hx. rewrite filter_app. simpl. rewrite Hx, app_nil_r.
  now apply filter_all.
Qed.

Lemma filter_length_lt {A} (q : A -> bool) (l : list A) :
  (exists x, In x l /\ q x = false) ->
  (List.length (filter q l) < List.length l)%nat.
Proof.
  intros (x & Hin & Hq).
  induction l as [|a l IH]; [destruct Hin|].
  simpl. destruct Hin as [->|Hin].
  - rewrite Hq. pose proof (filter_length_le q l). lia.
  - specialize (IH Hin). destruct (q a); simpl; lia.
Qed.

Lemma find_none_all {A} (p : A -> bool) (l : list A) :
  (forall x, In x l -> p x = false) -> find p l = None.
Proof.
  induction l as [|a l IH]; intros H; simpl; [reflexivity|].
  rewrite (H a) by now left. apply IH. intros x Hx. apply H. now right.
Qed.

(** ** Removing a task that is there *)

(** X1 (remove).  On a store whose dates are all valid, [removeTask] with
    an id that some task carries returns [true]; every task with that id
    is gone (all of them, not only the first), every other task is kept,
    in the order it was in; the store is smaller, [getTaskById] no longer
    finds the id, and storage holds the new collection. *)
Theorem removeTask_removes `{Platform} (s : State) (taskId : value) :
  Forall (fun t => dated t = true) (tasks s) ->
  (exists t, In t (tasks s) /\ id t = taskId) ->
  exists s' txt,
    removeTask taskId s = (Normal true, s')
    /\ (forall t, In t (tasks s') <-> In t (tasks s) /\ id t <> taskId)
    /\ (forall t u l1 l2 l3,
          tasks s' = l1 ++ t :: l2 ++ u :: l3 ->
          exists m1 m2 m3, tasks s = m1 ++ t :: m2 ++ u :: m3)
    /\ (List.length (tasks s') < List.length (tasks s))%nat
    /\ getTaskById taskId s' = (Normal None, s')
    /\ saved_text (tasks s') = Some txt
    /\ s' = stored (set_tasks s (tasks s')) txt.
Proof.
  intros Hd (t0 & Hin0 & Hid0).
  set (q := fun t => negb (strict_equal (id t) taskId)).
  set (l := filter q (tasks s)).
  assert (Hlt : (List.length l < List.length (tasks s))%nat).
  { apply filter_length_lt. exists t0. split; [assumption|].
    unfold q. apply negb_false_iff. now apply strict_equal_true. }
  destruct (saved_text_dated l (filter_Forall _ q _ Hd)) as [txt Htxt].
  exists (stored (set_tasks s l) txt), txt.
  rewrite removeTask_eq. cbv zeta. fold q. fold l.
  apply Nat.ltb_lt in Hlt as Hltb. rewrite Hltb, Htxt.
  split; [reflexivity|]. simpl.
  split.
  { intros t. unfold l. rewrite filter_In. unfold q.
    rewrite negb_true_iff, strict_equal_false. tauto. }
  split.
  { unfold l. generalize (tasks s). intros l0 t u l1 l2 l3.
    revert l1. induction l0 as [|a l0 IH]; intros l1 E.
    - destruct l1; discriminate.
    - simpl in E. destruct (q a).
      + destruct l1 as [|b l1]; simpl in E.
        * injection E as <- E.
          assert (Hu : In u (filter q l0)).
          { rewrite E. apply in_or_app. right. now left. }
          apply filter_In in Hu as [Hu _].
          apply in_split in Hu as (m2 & m3 & ->).
          now exists [], m2, m3.
        * injection E as <- E.
          destruct (IH l1 E) as (m1 & m2 & m3 & ->).
          now exists (a :: m1), m2, m3.
      + destruct (IH l1 E) as (m1 & m2 & m3 & ->).
        now exists (a :: m1), m2, m3. }
  split; [assumption|].
  split.
  { unfold getTaskById, bind, get_tasks, ret. simpl. f_equal. f_equal.
    apply find_none_all. intros x Hx.
    apply filter_In in Hx as [_ Hx].
    unfold q in Hx. now apply negb_true_iff in Hx. }
  split; [assumption | reflexivity].
Qed.

Lemma removeTask_removes_witness :
  let P := Host.ticking day2 in
  Forall (fun t => dated t = true) (tasks sample_store)
  /\ (exists t, In t (tasks sample_store) /\ id t = VStr "12")
  /\ exists s' txt,
       removeTask (VStr "12") sample_store = (Normal true, s')
       /\ (forall t, In t (tasks s') <->
                     In t (tasks sample_store) /\ id t <> VStr "12")
       /\ (forall t u l1 l2 l3,
             tasks s' = l1 ++ t :: l2 ++ u :: l3 ->
             exists m1 m2 m3, tasks sample_store = m1 ++ t :: m2 ++ u :: m3)
       /\ (List.length (tasks s') < List.length (tasks sample_store))%nat
       /\ getTaskById (VStr "12") s' = (Normal None, s')
       /\ saved_text (tasks s') = Some txt
       /\ s' = stored (set_tasks sample_store (tasks s')) txt.
Proof.
  intros P.
  assert (Hd : Forall (fun t => dated t = true) (tasks sample_store))
    by repeat constructor.
  assert (Hin : exists t, In t (tasks sample_store) /\ id t = VStr "12").
  { eexists. split; [right; left; reflexivity | reflexivity]. }
  split; [exact Hd|]. split; [exact Hin|].
  exact (@removeTask_removes P sample_store (VStr "12") Hd Hin).
Defined.

(** ** Operations undone *)

(** X2 (add, then remove).  On an ordered store of tasks of the data
    model, adding a task whose id is new and then removing that id gives
    back the collection exactly as it was, in the same order, and leaves
    it in storage. *)
Theorem add_then_remove `{Platform} (s : State) (n d due p : value) :
  let new := created_task s n d due p in
  Forall (fun t => sortable t = true) (tasks s) ->
  ordered (tasks s) ->
  is_priority p = true ->
  isValidDate (new_Date due) = true ->
  (forall t, In t (tasks s) -> id t <> id new) ->
  exists s1 s2,
    addTask n d due p s = (Normal true, s1)
    /\ In new (tasks s1)
    /\ removeTask (id new) s1 = (Normal true, s2)
    /\ tasks s2 = tasks s
    /\ storage s2 = saved_text (tasks s).
Proof.
  intros new Hs Ho Hp Hdue Hfresh.
  assert (Hnew : sortable new = true) by now apply created_task_sortable.
  assert (Hall : Forall (fun t => sortable t = true) (tasks s ++ [new])).
  { apply Forall_app. split; [assumption|]. now repeat constructor. }
  set (l1 := Array_sort SortCompare (tasks s ++ [new])).
  assert (Hl1 : Forall (fun t => sortable t = true) l1)
    by now apply Array_sort_sortable.
  destruct (saved_text_dated l1 (Forall_sortable_dated l1 Hl1))
    as [txt1 Htxt1].
  destruct (saved_text_dated _ (Forall_sortable_dated _ Hs))
    as [txt2 Htxt2].
  set (q := fun t => negb (strict_equal (id t) (id new))).
  assert (Hback : filter q l1 = tasks s).
  { unfold l1.
    rewrite (Array_sort_filter SortCompare (fun t => sortable t = true)
               SortCompare_consistent q _ Hall).
    rewrite filter_app_last.
    - now apply Array_sort_ordered_id.
    - intros y Hy. unfold q.
      apply negb_true_iff, strict_equal_false. now apply Hfresh.
    - unfold q. apply negb_false_iff. now apply strict_equal_true. }
  exists (stored (set_tasks (ticked s 1) l1) txt1).
  exists (stored (set_tasks (stored (set_tasks (ticked s 1) l1) txt1)
                    (tasks s)) txt2).
  split.
  { rewrite (addTask_accepts s n d due p Hdue). cbv zeta.
    fold new. fold l1. now rewrite Htxt1. }
  split.
  { simpl. unfold l1. apply Array_sort_In, in_or_app. right. now left. }
  split.
  { rewrite removeTask_eq. cbv zeta.
    change (tasks (stored (set_tasks (ticked s 1) l1) txt1)) with l1.
    fold q. rewrite Hback.
    assert (Hlen : (List.length (tasks s) <? List.length l1)%nat = true).
    { apply Nat.ltb_lt. unfold l1.
      rewrite Array_sort_length, length_app. simpl. lia. }
    now rewrite Hlen, Htxt2. }
  split; [reflexivity|]. simpl. now rewrite Htxt2.
Qed.

Lemma add_then_remove_witness :
  let P := Host.ticking day2 in
  let n := VStr "Buy milk" in
  let d := VStr "" in
  let due := VStr "2025-06-01T10:00" in
  let p := VStr "High" in
  let new := created_task sample_store n d due p in
  Forall (fun t => sortable t = true) (tasks sample_store)
  /\ ordered (tasks sample_store)
  /\ is_priority p = true
  /\ isValidDate (new_Date due) = true
  /\ (forall t, In t (tasks sample_store) -> id t <> id new)
  /\ exists s1 s2,
       addTask n d due p sample_store = (Normal true, s1)
       /\ In new (tasks s1)
       /\ removeTask (id new) s1 = (Normal true, s2)
       /\ tasks s2 = tasks sample_store
       /\ storage s2 = saved_text (tasks sample_store).
Proof.
  intros P n d due p new.
  assert (Hs : Forall (fun t => sortable t = true) (tasks sample_store))
    by repeat constructor.
  assert (Ho : ordered (tasks sample_store)).
  { change (tasks sample_store)
      with (Array_sort SortCompare (tasks sample_store)).
    now apply Array_sort_ordered. }
  assert (Hfresh : forall t, In t (tasks sample_store) -> id t <> id new).
  { simpl. intros t [<-|[<-|[<-|[]]]]; discriminate. }
  split; [exact Hs|]. split; [exact Ho|]. split; [reflexivity|].
  split; [reflexivity|]. split; [exact Hfresh|].
  exact (@add_then_remove P sample_store n d due p Hs Ho eq_refl eq_refl
           Hfresh).
Defined.

Lemma flip_isCompleted_twice (t : Task) (b : bool) :
  isCompleted t = VBool b -> flip_isCompleted (flip_isCompleted t) = t.
Proof.
  destruct t as [i n d due p c]. simpl. intros ->.
  unfold flip_isCompleted, set_isCompleted. simpl.
  now rewrite negb_involutive.
Qed.

Lemma flip_isCompleted_id (t : Task) : id (flip_isCompleted t) = id t.
Proof. reflexivity. Qed.

(** An id that occurs once in a collection names one task. *)
Lemma unique_ids_same (l : list Task) (t u : Task) :
  unique_ids l -> In t l -> In u l -> id t = id u -> t = u.
Proof.
  unfold unique_ids. induction l as [|a l IH]; intros Hnd Ht Hu E.
  - destruct Ht.
  - simpl in Hnd. inversion Hnd as [|? ? Hnin Hnd']; subst.
    destruct Ht as [->|Ht], Hu as [->|Hu]; trivial.
    + exfalso. apply Hnin. rewrite E. now apply in_map.
    + exfalso. apply Hnin. rewrite <- E. now apply in_map.
    + now apply IH.
Qed.

Lemma unique_ids_perm (l l' : list Task) :
  Permutation l l' -> unique_ids l -> unique_ids l'.
Proof.
  unfold unique_ids. intros Hp.
  apply Permutation_NoDup. now apply Permutation_map.
Qed.

(** X3 (toggle, twice).  On a store of tasks of the data model with
    distinct ids, toggling the same id twice returns [true] both times
    and ends with the same tasks, each with every field as it was at the
    start, again in key order.  (Tasks with equal keys may have changed
    places.) *)
Theorem toggle_twice `{Platform} (s : State) (taskId : value) :
  Forall (fun t => sortable t = true) (tasks s) ->
  unique_ids (tasks s) ->
  (exists t, In t (tasks s) /\ id t = taskId) ->
  exists s1 s2,
    toggleCompleteTask taskId s = (Normal true, s1)
    /\ toggleCompleteTask taskId s1 = (Normal true, s2)
    /\ Permutation (tasks s2) (tasks s)
    /\ ordered (tasks s2).
Proof.
  intros Hs Huniq Hin.
  set (pr := fun t => strict_equal (id t) taskId).
  (* first toggle *)
  destruct (find_index_split pr flip_isCompleted (tasks s))
    as (i & l1 & t & l2 & Hi & Hl & Hp & _ & Hu).
  { destruct Hin as (t & Hin & Hid). exists t. split; [assumption|].
    now apply strict_equal_true. }
  assert (Ht : sortable t = true).
  { rewrite Forall_forall in Hs. apply Hs. rewrite Hl.
    apply in_or_app. right. now left. }
  assert (Hb : exists b, isCompleted t = VBool b).
  { unfold sortable, is_boolean in Ht.
    destruct (isCompleted t); try discriminate. eauto. }
  destruct Hb as [b Hb].
  set (u1 := update_at i flip_isCompleted (tasks s)).
  set (k1 := Array_sort SortCompare u1).
  assert (Hu1 : Forall (fun t => sortable t = true) u1).
  { apply update_at_Forall; [|assumption]. exact flip_isCompleted_sortable. }
  assert (Hk1 : Forall (fun t => sortable t = true) k1)
    by now apply Array_sort_sortable.
  destruct (saved_text_dated k1 (Forall_sortable_dated k1 Hk1))
    as [txt1 Htxt1].
  assert (Hperm1 : Permutation k1 (l1 ++ flip_isCompleted t :: l2)).
  { unfold k1, u1. rewrite Hu. apply Array_sort_perm. }
  assert (Huniq1 : unique_ids k1).
  { apply unique_ids_perm with (l1 ++ flip_isCompleted t :: l2);
      [now apply Permutation_sym|].
    unfold unique_ids in *. rewrite Hl in Huniq.
    now rewrite map_app in *. }
  (* second toggle *)
  destruct (find_index_split pr flip_isCompleted k1)
    as (j & m1 & t' & m2 & Hj & Hm & Hp' & _ & Hu').
  { exists (flip_isCompleted t). split; [|exact Hp].
    apply Permutation_in with (1 := Permutation_sym Hperm1).
    apply in_or_app. right. now left. }
  assert (Ht' : t' = flip_isCompleted t).
  { apply (unique_ids_same k1); trivial.
    - rewrite Hm. apply in_or_app. right. now left.
    - apply Permutation_in with (1 := Permutation_sym Hperm1).
      apply in_or_app. right. now left.
    - unfold pr in Hp, Hp'.
      apply strict_equal_true in Hp. apply strict_equal_true in Hp'.
      rewrite flip_isCompleted_id. congruence. }
  set (u2 := update_at j flip_isCompleted k1).
  set (k2 := Array_sort SortCompare u2).
  assert (Hu2 : Forall (fun t => sortable t = true) u2).
  { apply update_at_Forall; [|assumption]. exact flip_isCompleted_sortable. }
  assert (Hk2 : Forall (fun t => sortable t = true) k2)
    by now apply Array_sort_sortable.
  destruct (saved_text_dated k2 (Forall_sortable_dated k2 Hk2))
    as [txt2 Htxt2].
  exists (stored (set_tasks s k1) txt1).
  exists (stored (set_tasks (stored (set_tasks s k1) txt1) k2) txt2).
  split.
  { rewrite toggleCompleteTask_eq. fold pr. rewrite Hi. cbv zeta.
    fold u1. fold k1. now rewrite Htxt1. }
  split.
  { rewrite toggleCompleteTask_eq. simpl. fold pr. rewrite Hj. cbv zeta.
    fold u2. fold k2. now rewrite Htxt2. }
  split.
  { simpl. unfold k2, u2.
    apply perm_trans with (1 := Array_sort_perm SortCompare _).
    rewrite Hu', Ht', (flip_isCompleted_twice t b Hb), Hl.
    apply Permutation_elt.
    apply Permutation_app_inv with (a := flip_isCompleted t).
    rewrite Hm, Ht' in Hperm1. exact Hperm1. }
  simpl. now apply Array_sort_ordered.
Qed.

Lemma toggle_twice_witness :
  let P := Host.ticking day2 in
  Forall (fun t => sortable t = true) (tasks sample_store)
  /\ unique_ids (tasks sample_store)
  /\ (exists t, In t (tasks sample_store) /\ id t = VStr "11")
  /\ exists s1 s2,
       toggleCompleteTask (VStr "11") sample_store = (Normal true, s1)
       /\ toggleCompleteTask (VStr "11") s1 = (Normal true, s2)
       /\ Permutation (tasks s2) (tasks sample_store)
       /\ ordered (tasks s2).
Proof.
  intros P.
  assert (Hs : Forall (fun t => sortable t = true) (tasks sample_store))
    by repeat constructor.
  assert (Hu : unique_ids (tasks sample_store)).
  { unfold unique_ids. simpl.
    repeat constructor; simpl; intros Hin;
      repeat (destruct Hin as [Hin|Hin]; [discriminate|]); exact Hin. }
  assert (Hin : exists t, In t (tasks sample_store) /\ id t = VStr "11").
  { eexists. split; [left; reflexivity | reflexivity]. }
  split; [exact Hs|]. split; [exact Hu|]. split; [exact Hin|].
  exact (@toggle_twice P sample_store (VStr "11") Hs Hu Hin).
Defined.

(** X4 (sorting again).  On tasks of the data model [sortTasks] is
    idempotent: a second call changes nothing, and a store already in key
    order is left exactly as it is. *)
Theorem sortTasks_idempotent (s : State) :
  Forall (fun t => sortable t = true) (tasks s) ->
  sortTasks (snd (sortTasks s)) = (Normal tt, snd (sortTasks s))
  /\ (ordered (tasks s) -> sortTasks s = (Normal tt, s)).
Proof.
  intros Hs. split.
  - rewrite !sortTasks_eq. cbn [snd].
    change (tasks (set_tasks s (Array_sort SortCompare (tasks s))))
      with (Array_sort SortCompare (tasks s)).
    rewrite (Array_sort_ordered_id (Array_sort SortCompare (tasks s))).
    + reflexivity.
    + now apply Array_sort_sortable.
    + now apply Array_sort_ordered.
  - intros Ho. rewrite sortTasks_eq.
    rewrite Array_sort_ordered_id by assumption.
    now rewrite set_tasks_same.
Qed.

Lemma sortTasks_idempotent_witness :
  Forall (fun t => sortable t = true) (tasks unsorted_store)
  /\ sortTasks (snd (sortTasks unsorted_store)) =
     (Normal tt, snd (sortTasks unsorted_store))
  /\ (ordered (tasks unsorted_store) ->
      sortTasks unsorted_store = (Normal tt, unsorted_store)).
Proof.
  assert (Hs : Forall (fun t => sortable t = true) (tasks unsorted_store))
    by repeat constructor.
  split; [exact Hs|].
  exact (sortTasks_idempotent unsorted_store Hs).
Defined.

Lemma session_invariant_witness :
  let P := Host.ticking day2 in
  Forall (fun op => mutation_well_formed op = true) sample_run
  /\ (let s := run_mutations sample_run (snd (TaskManager_new initial_state))
      in
      Forall (fun t => well_formed t = true) (tasks s)
      /\ ordered (tasks s)).
Proof.
  intros P.
  assert (Hops : Forall (fun op => mutation_well_formed op = true)
                   sample_run)
    by repeat constructor.
  split; [exact Hops|].
  exact (@session_invariant P sample_run Hops).
Defined.

Example sample_run_result :
  let P := Host.ticking day2 in
  map (fun t => (name t, isCompleted t))
    (tasks (run_mutations sample_run (snd (TaskManager_new initial_state))))
  = [ (VStr "Buy milk", VBool true) ].
Proof. vm_compute. reflexivity. Qed.

(** ** Storage follows the collection *)

(** X6 (what a mutation writes).  Whatever the store and the inputs: a
    mutation that returns [true] has left in storage the serialization of
    the collection as it now is; a mutation that returns [false], or
    throws, has not written to storage at all. *)
Theorem mutation_and_storage `{Platform} (op : mutation) (s : State) :
  match run_mutation op s with
  | (Normal true, s') =>
      storage s' <> None /\ storage s' = saved_text (tasks s')
  | (_, s') => storage s' = storage s
  end.
Proof.
  destruct op as [n d due p | taskId | taskId]; simpl.
  - destruct (isValidDate (new_Date due)) eqn:E.
    + rewrite (addTask_accepts s n d due p E). cbv zeta.
      destruct (saved_text _) as [txt|] eqn:Et; simpl.
      * rewrite Et. split; [discriminate | reflexivity].
      * reflexivity.
    + now rewrite (addTask_rejects s n d due p E).
  - rewrite removeTask_eq. cbv zeta.
    destruct (_ <? _)%nat; [|reflexivity].
    destruct (saved_text _) as [txt|] eqn:Et; simpl.
    + rewrite Et. split; [discriminate | reflexivity].
    + reflexivity.
  - rewrite toggleCompleteTask_eq.
    destruct (find_index _ _) as [i|]; [|reflexivity].
    cbv zeta.
    destruct (saved_text _) as [txt|] eqn:Et; simpl.
    + rewrite Et. split; [discriminate | reflexivity].
    + reflexivity.
Qed.

(** ** When the collection cannot be saved *)

Lemma saved_text_undated `{Platform} (l : list Task) :
  (exists t, In t l /\ dated t = false) -> saved_text l = None.
Proof.
  intros (t & Hin & Hd). unfold saved_text.
  destruct (records_of l) as [rs|] eqn:E; [|reflexivity].
  assert (Hall : Forall (fun t => dated t = true) l).
  { apply records_of_dated. congruence. }
  rewrite Forall_forall in Hall. specialize (Hall t Hin). congruence.
Qed.

(** X7 (saving is all or nothing).  [saveTasks] writes the whole
    collection when every due date is valid, and changes nothing else;
    when any one date is invalid it throws a [RangeError] and leaves the
    state, storage included, exactly as it was. *)
Theorem saveTasks_all_or_nothing `{Platform} (s : State) :
  (Forall (fun t => dated t = true) (tasks s) ->
   exists txt,
     saved_text (tasks s) = Some txt
     /\ saveTasks s = (Normal tt, stored s txt))
  /\ ((exists t, In t (tasks s) /\ dated t = false) ->
      saveTasks s = (Throw RangeError, s)).
Proof.
  split.
  - intros Hd. destruct (saved_text_dated _ Hd) as [txt Htxt].
    exists txt. split; [assumption|].
    now rewrite saveTasks_eq, Htxt.
  - intros Hbad. rewrite saveTasks_eq.
    now rewrite (saved_text_undated _ Hbad).
Qed.

Lemma saveTasks_all_or_nothing_witness :
  let P := Host.ticking day2 in
  Forall (fun t => dated t = true) (tasks sample_store)
  /\ (exists t, In t (tasks unsavable_store) /\ dated t = false)
  /\ (exists txt,
        saved_text (tasks sample_store) = Some txt
        /\ saveTasks sample_store = (Normal tt, stored sample_store txt))
  /\ saveTasks unsavable_store = (Throw RangeError, unsavable_store).
Proof.
  intros P.
  assert (Hd : Forall (fun t => dated t = true) (tasks sample_store))
    by repeat constructor.
  assert (Hbad : exists t, In t (tasks unsavable_store) /\ dated t = false).
  { eexists. split; [right; left; reflexivity | reflexivity]. }
  split; [exact Hd|]. split; [exact Hbad|].
  split.
  - exact (proj1 (@saveTasks_all_or_nothing P sample_store) Hd).
  - exact (proj2 (@saveTasks_all_or_nothing P unsavable_store) Hbad).
Defined.

(** X8 (an add that cannot be saved).  When the store holds a task with
    an invalid date, [addTask] with valid input catches the failure of
    [saveTasks]: it returns [false] and alerts, and storage is not
    written; but the new task has been pushed and stays in the
    collection, which is one longer than before. *)
Theorem addTask_keeps_unsaved_task `{Platform}
    (s : State) (n d due p : value) :
  (exists t, In t (tasks s) /\ dated t = false) ->
  isValidDate (new_Date due) = true ->
  exists s',
    addTask n d due p s = (Normal false, s')
    /\ In (created_task s n d due p) (tasks s')
    /\ List.length (tasks s') = S (List.length (tasks s))
    /\ storage s' = storage s
    /\ alerts s' = alerts s ++ [add_error_alert].
Proof.
  intros (t & Hin & Hbad) Hdue.
  set (l := Array_sort SortCompare (tasks s ++ [created_task s n d due p])).
  assert (Hnone : saved_text l = None).
  { apply saved_text_undated. exists t. split; [|assumption].
    apply Array_sort_In, in_or_app. now left. }
  exists (add_failed (set_tasks (ticked s 1) l)).
  rewrite (addTask_accepts s n d due p Hdue). cbv zeta. fold l.
  rewrite Hnone. split; [reflexivity|]. simpl.
  split; [apply Array_sort_In, in_or_app; right; now left|].
  split; [|now split].
  unfold l. rewrite Array_sort_length, length_app. simpl. lia.
Qed.

Lemma addTask_keeps_unsaved_task_witness :
  let P := Host.ticking day2 in
  let n := VStr "Buy milk" in
  let d := VStr "" in
  let due := VStr "2025-06-01T10:00" in
  let p := VStr "High" in
  (exists t, In t (tasks unsavable_store) /\ dated t = false)
  /\ isValidDate (new_Date due) = true
  /\ exists s',
       addTask n d due p unsavable_store = (Normal false, s')
       /\ In (created_task unsavable_store n d due p) (tasks s')
       /\ List.length (tasks s') = S (List.length (tasks unsavable_store))
       /\ storage s' = storage unsavable_store
       /\ alerts s' = alerts unsavable_store ++ [add_error_alert].
Proof.
  intros P n d due p.
  assert (Hbad : exists t, In t (tasks unsavable_store) /\ dated t = false).
  { eexists. split; [right; left; reflexivity | reflexivity]. }
  split; [exact Hbad|]. split; [reflexivity|].
  exact (@addTask_keeps_unsaved_task P unsavable_store n d due p Hbad
           eq_refl).
Defined.

(** X9 (a toggle or a remove that cannot be saved).  When a task with an
    invalid date stays in the collection, [toggleCompleteTask] on an id
    that is there, and [removeTask] of another task that is there, throw
    the [RangeError] of [saveTasks] to their caller: the change has been
    made in memory (the flag negated, the task removed) and storage is
    left as it was. *)
Theorem unsaved_mutation_throws `{Platform} (s : State) (taskId : value) :
  (exists t, In t (tasks s) /\ dated t = false /\ id t <> taskId) ->
  (exists t, In t (tasks s) /\ id t = taskId) ->
  (exists s' l1 t l2,
      toggleCompleteTask taskId s = (Throw RangeError, s')
      /\ tasks s = l1 ++ t :: l2 /\ id t = taskId
      /\ Permutation (tasks s') (l1 ++ flip_isCompleted t :: l2)
      /\ storage s' = storage s)
  /\ (exists s',
        removeTask taskId s = (Throw RangeError, s')
        /\ (forall t, In t (tasks s') <-> In t (tasks s) /\ id t <> taskId)
        /\ storage s' = storage s).
Proof.
  intros (bad & Hbin & Hbad & Hbid) Hin. split.
  - destruct (find_index_split (fun t => strict_equal (id t) taskId)
                flip_isCompleted (tasks s))
      as (i & l1 & t & l2 & Hi & Hl & Hp & _ & Hu).
    { destruct Hin as (t & Hin & Hid). exists t. split; [assumption|].
      now apply strict_equal_true. }
    apply strict_equal_true in Hp.
    set (l := Array_sort SortCompare
                (update_at i flip_isCompleted (tasks s))).
    assert (Hnone : saved_text l = None).
    { apply saved_text_undated. exists bad. split; [|assumption].
      apply Array_sort_In. rewrite Hu. rewrite Hl in Hbin.
      apply in_or_app. apply in_app_or in Hbin as [Hb|[Hb|Hb]].
      - now left.
      - subst bad. congruence.
      - right. now right. }
    exists (set_tasks s l), l1, t, l2.
    rewrite toggleCompleteTask_eq, Hi. cbv zeta. fold l. rewrite Hnone.
    split; [reflexivity|]. split; [assumption|]. split; [assumption|].
    split; [|reflexivity].
    simpl. unfold l. rewrite Hu. apply Array_sort_perm.
  - set (q := fun t => negb (strict_equal (id t) taskId)).
    set (l := filter q (tasks s)).
    assert (Hnone : saved_text l = None).
    { apply saved_text_undated. exists bad. split; [|assumption].
      apply filter_In. split; [assumption|].
      unfold q. now apply negb_true_iff, strict_equal_false. }
    assert (Hlt : (List.length l <? List.length (tasks s))%nat = true).
    { apply Nat.ltb_lt, filter_length_lt.
      destruct Hin as (t & Hin & Hid). exists t. split; [assumption|].
      unfold q. apply negb_false_iff. now apply strict_equal_true. }
    exists (set_tasks s l).
    rewrite removeTask_eq. cbv zeta. fold q. fold l.
    rewrite Hlt, Hnone.
    split; [reflexivity|]. split; [|reflexivity].
    intros t. simpl. unfold l. rewrite filter_In. unfold q.
    rewrite negb_true_iff, strict_equal_false. tauto.
Qed.

Lemma unsaved_mutation_throws_witness :
  let P := Host.ticking day2 in
  let s := unsavable_store in
  let taskId := VStr "11" in
  (exists t, In t (tasks s) /\ dated t = false /\ id t <> taskId)
  /\ (exists t, In t (tasks s) /\ id t = taskId)
  /\ (exists s' l1 t l2,
        toggleCompleteTask taskId s = (Throw RangeError, s')
        /\ tasks s = l1 ++ t :: l2 /\ id t = taskId
        /\ Permutation (tasks s') (l1 ++ flip_isCompleted t :: l2)
        /\ storage s' = storage s)
  /\ (exists s',
        removeTask taskId s = (Throw RangeError, s')
        /\ (forall t, In t (tasks s') <-> In t (tasks s) /\ id t <> taskId)
        /\ storage s' = storage s).
Proof.
  intros P s taskId.
  assert (Hbad : exists t,
             In t (tasks s) /\ dated t = false /\ id t <> taskId).
  { eexists. split; [right; left; reflexivity|].
    split; [reflexivity | discriminate]. }
  assert (Hin : exists t, In t (tasks s) /\ id t = taskId).
  { eexists. split; [left; reflexivity | reflexivity]. }
  split; [exact Hbad|]. split; [exact Hin|].
  exact (@unsaved_mutation_throws P s taskId Hbad Hin).
Defined.

(** ** Ids *)

Lemma unique_ids_filter (q : Task -> bool) (l : list Task) :
  unique_ids l -> unique_ids (filter q l).
Proof.
  unfold unique_ids. induction l as [|a l IH]; simpl; intros Hnd.
  - constructor.
  - inversion Hnd as [|? ? Hnin Hnd']; subst.
    destruct (q a); simpl; [|now apply IH].
    constructor; [|now apply IH].
    intros Hin. apply Hnin.
    apply in_map_iff in Hin as (x & Hx & Hin).
    apply filter_In in Hin as [Hin _].
    apply in_map_iff. now exists x.
Qed.

Lemma update_at_flip_ids (i : nat) (l : list Task) :
  map id (update_at i flip_isCompleted l) = map id l.
Proof.
  revert i. induction l as [|a l IH]; intros i; destruct i; simpl;
    trivial.
  now rewrite IH.
Qed.

(** X10 (when ids stay distinct).  Removing and toggling never make two
    ids equal; adding keeps the ids distinct whenever the clock reading
    taken for the new task is not already the id of a task. *)
Theorem mutation_keeps_unique_ids `{Platform} (op : mutation) (s : State) :
  unique_ids (tasks s) ->
  match op with
  | Add _ _ _ _ =>
      forall t, In t (tasks s) ->
                id t <> VStr (Z_toString (Date_now (ticks s)))
  | _ => True
  end ->
  unique_ids (tasks (snd (run_mutation op s))).
Proof.
  intros Hu Hfresh.
  destruct op as [n d due p | taskId | taskId]; simpl.
  - destruct (isValidDate (new_Date due)) eqn:E.
    + rewrite (addTask_accepts s n d due p E). cbv zeta.
      assert (Hl : unique_ids
                     (Array_sort SortCompare
                        (tasks s ++ [created_task s n d due p]))).
      { apply unique_ids_perm with (tasks s ++ [created_task s n d due p]);
          [apply Permutation_sym, Array_sort_perm|].
        unfold unique_ids in *. rewrite map_app. simpl.
        apply Permutation_NoDup
          with (l := VStr (Z_toString (Date_now (ticks s)))
                     :: map id (tasks s)).
        - apply Permutation_cons_append.
        - constructor; [|assumption].
          intros Hin. apply in_map_iff in Hin as (x & Hx & Hin).
          now apply (Hfresh x Hin). }
      now destruct (saved_text _).
    + now rewrite (addTask_rejects s n d due p E).
  - rewrite removeTask_eq. cbv zeta.
    assert (Hl : unique_ids
                   (filter (fun t => negb (strict_equal (id t) taskId))
                      (tasks s)))
      by now apply unique_ids_filter.
    destruct (_ <? _)%nat; [|exact Hl].
    now destruct (saved_text _).
  - rewrite toggleCompleteTask_eq.
    destruct (find_index _ _) as [i|]; [|exact Hu].
    cbv zeta.
    assert (Hl : unique_ids
                   (Array_sort SortCompare
                      (update_at i flip_isCompleted (tasks s)))).
    { apply unique_ids_perm with (update_at i flip_isCompleted (tasks s));
        [apply Permutation_sym, Array_sort_perm|].
      unfold unique_ids. now rewrite update_at_flip_ids. }
    now destruct (saved_text _).
Qed.

Lemma mutation_keeps_unique_ids_witness :
  let P := Host.ticking day2 in
  let op :=
    Add (VStr "Buy milk") (VStr "") (VStr "2025-06-01T10:00") (VStr "High")
  in
  unique_ids (tasks sample_store)
  /\ (forall t, In t (tasks sample_store) ->
                id t <> VStr (Z_toString (Date_now (ticks sample_store))))
  /\ unique_ids (tasks (snd (run_mutation op sample_store))).
Proof.
  intros P op.
  assert (Hu : unique_ids (tasks sample_store)).
  { unfold unique_ids. simpl.
    repeat constructor; simpl; intros Hin;
      repeat (destruct Hin as [Hin|Hin]; [discriminate|]); exact Hin. }
  assert (Hfresh : forall t, In t (tasks sample_store) ->
             id t <> VStr (Z_toString (Date_now (ticks sample_store)))).
  { simpl. intros t [<-|[<-|[<-|[]]]]; discriminate. }
  split; [exact Hu|]. split; [exact Hfresh|].
  exact (@mutation_keeps_unique_ids P op sample_store Hu Hfresh).
Defined.

(** ** The loader *)

(** X11 (the loader never fails).  Whatever the stored text, [loadTasks]
    returns a collection and throws nothing; it writes neither to storage
    nor to the collection in memory, and shows no alert.  Either it logs
    nothing, or it logs one error and the collection returned is
    empty. *)
Theorem loadTasks_never_throws `{Platform} (s : State) :
  exists l s',
    loadTasks s = (Normal l, s')
    /\ tasks s' = tasks s
    /\ storage s' = storage s
    /\ alerts s' = alerts s
    /\ (console s' = console s
        \/ (l = [] /\ console s' = console s ++ [load_error_log])).
Proof.
  unfold loadTasks, bind, localStorage_getItem.
  destruct (storage s) as [txt|] eqn:Es.
  2:{ exists [], s. repeat split; auto. }
  destruct (negb (txt =? "")%string).
  2:{ exists [], s. repeat split; auto. }
  unfold try_catch.
  assert (Hbody : exists c s0,
             match JSON_parse txt with
             | Some v => Array_map v load_record
             | None => throw SyntaxError
             end s = (c, s0) /\ same_but_clock s s0
             /\ (storage s = Some txt -> True)).
  { destruct (JSON_parse txt) as [[v|elems|m]|]; simpl.
    - exists (Throw TypeError), s.
      split; [reflexivity|]. split; [apply same_but_clock_refl | trivial].
    - destruct (existsb is_nullish elems) eqn:Ex.
      + destruct (mapM_load_record_throws elems s Ex) as (s0 & -> & Hs0).
        eauto.
      + destruct (mapM_load_record_returns elems s Ex)
          as (l & s0 & -> & _ & Hs0).
        eauto.
    - exists (Throw TypeError), s.
      split; [reflexivity|]. split; [apply same_but_clock_refl | trivial].
    - exists (Throw SyntaxError), s.
      split; [reflexivity|]. split; [apply same_but_clock_refl | trivial]. }
  destruct Hbody as (c & s0 & -> & (Ht & Hst & Hc & Ha) & _).
  destruct c as [l|e].
  - exists l, s0. rewrite Es in Hst. repeat split; auto.
  - eexists. eexists. split; [reflexivity|]. simpl.
    rewrite Es in Hst.
    split; [assumption|]. split; [assumption|]. split; [assumption|].
    right. split; [reflexivity|]. now rewrite Hc.
Qed.

Lemma loadTasks_normal `{Platform} (s : State) :
  exists l s', loadTasks s = (Normal l, s').
Proof.
  unfold loadTasks, bind, localStorage_getItem.
  destruct (storage s) as [txt|]; [|eexists; eexists; reflexivity].
  destruct (negb (txt =? "")%string); [|eexists; eexists; reflexivity].
  unfold try_catch.
  destruct (match JSON_parse txt with
            | Some v => Array_map v load_record
            | None => throw SyntaxError
            end s) as [[l|e] s1]; eexists; eexists; reflexivity.
Qed.

Lemma load_record_identified `{Platform}
    (data : json) (s s' : State) (t : Task) :
  load_record data s = (Normal t, s') -> identified t = true.
Proof.
  assert (Hkey : forall i c z (t0 : Task),
             id t0 = (if ToBoolean i then i else VStr (Z_toString z)) ->
             isCompleted t0 =
               match c with VUndefined => VBool false | v => v end ->
             identified t0 = true).
  { intros i c z t0 Ei Ec. unfold identified. rewrite Ei, Ec.
    apply andb_true_iff. split.
    - destruct (ToBoolean i) eqn:Eb; [assumption|].
      simpl. apply negb_true_iff, String.eqb_neq, Z_toString_nonempty.
    - now destruct c. }
  unfold load_record, bind.
  destruct data as [[| |b|z|str]|elems|m]; simpl;
    try discriminate; unfold Task_new, bind, Date_now_call, ret; simpl.
  - intros [= <- _].
    now apply (Hkey VUndefined VUndefined (Date_now (S (ticks s)))).
  - intros [= <- _].
    now apply (Hkey VUndefined VUndefined (Date_now (S (ticks s)))).
  - intros [= <- _].
    now apply (Hkey VUndefined VUndefined (Date_now (S (ticks s)))).
  - intros [= <- _].
    now apply (Hkey VUndefined VUndefined (Date_now (S (ticks s)))).
  - destruct (ToBoolean (lookup_member "id" m)) eqn:Ei; simpl;
      intros [= <- _].
    + apply (Hkey (lookup_member "id" m) (lookup_member "isCompleted" m) 0);
        simpl; [now rewrite Ei | reflexivity].
    + apply (Hkey (lookup_member "id" m) (lookup_member "isCompleted" m)
               (Date_now (S (ticks s))));
        simpl; [now rewrite Ei | reflexivity].
Qed.

Lemma mapM_load_record_identified `{Platform}
    (elems : list json) (s s' : State) (l : list Task) :
  mapM load_record elems s = (Normal l, s') ->
  Forall (fun t => identified t = true) l.
Proof.
  revert s s' l. induction elems as [|data elems IH]; intros s s' l; simpl.
  - intros [= <- _]. constructor.
  - unfold bind at 1.
    destruct (load_record data s) as [[t|e] s1] eqn:E1; [|discriminate].
    unfold bind at 1.
    destruct (mapM load_record elems s1) as [[l'|e] s2] eqn:E2;
      [|discriminate].
    intros [= <- _]. constructor.
    + now apply (load_record_identified data s s1).
    + now apply (IH s1 s2).
Qed.

Lemma loadTasks_identified `{Platform} (s s' : State) (l : list Task) :
  loadTasks s = (Normal l, s') ->
  Forall (fun t => identified t = true) l.
Proof.
  unfold loadTasks, bind, localStorage_getItem.
  destruct (storage s) as [txt|]; [|intros [= <- _]; constructor].
  destruct (negb (txt =? "")%string); [|intros [= <- _]; constructor].
  unfold try_catch.
  destruct (JSON_parse txt) as [[v|elems|m]|]; simpl;
    try (intros [= <- _]; constructor).
  destruct (mapM load_record elems s) as [[l'|e] s1] eqn:E.
  - intros [= <- _]. now apply (mapM_load_record_identified elems s s1).
  - simpl. intros [= <- _]. constructor.
Qed.

Lemma run_mutation_identified `{Platform} (op : mutation) (s : State) :
  Forall (fun t => identified t = true) (tasks s) ->
  Forall (fun t => identified t = true) (tasks (snd (run_mutation op s))).
Proof.
  intros Hs.
  assert (Hsort : forall l,
             Forall (fun t => identified t = true) l ->
             Forall (fun t => identified t = true)
               (Array_sort SortCompare l)).
  { intros l Hl. rewrite Forall_forall in *. intros t Ht.
    apply Hl. exact (proj1 (Array_sort_In SortCompare t l) Ht). }
  destruct op as [n d due p | taskId | taskId]; simpl.
  - destruct (isValidDate (new_Date due)) eqn:E.
    + rewrite (addTask_accepts s n d due p E). cbv zeta.
      assert (Hl : Forall (fun t => identified t = true)
                     (Array_sort SortCompare
                        (tasks s ++ [created_task s n d due p]))).
      { apply Hsort, Forall_app. split; [assumption|].
        constructor; [|constructor].
        unfold identified, created_task. simpl.
        rewrite andb_true_r.
        apply negb_true_iff, String.eqb_neq, Z_toString_nonempty. }
      now destruct (saved_text _).
    + now rewrite (addTask_rejects s n d due p E).
  - rewrite removeTask_eq. cbv zeta.
    assert (Hl : Forall (fun t => identified t = true)
                   (filter (fun t => negb (strict_equal (id t) taskId))
                      (tasks s)))
      by now apply filter_Forall.
    destruct (_ <? _)%nat; [|exact Hl].
    now destruct (saved_text _).
  - rewrite toggleCompleteTask_eq.
    destruct (find_index _ _) as [i|]; [|exact Hs].
    cbv zeta.
    assert (Hl : Forall (fun t => identified t = true)
                   (Array_sort SortCompare
                      (update_at i flip_isCompleted (tasks s)))).
    { apply Hsort, update_at_Forall; [|assumption].
      intros t. unfold identified, flip_isCompleted. simpl.
      rewrite !andb_true_iff. tauto. }
    now destruct (saved_text _).
Qed.

(** X12 (every task has an id).  Whatever is in storage when the session
    opens, and whatever mutations follow, with whatever inputs, every
    task the manager holds has an id that is set (a fresh one is made
    for a stored record whose id is missing, empty, null or zero) and a
    completion flag that is defined. *)
Theorem tasks_always_identified `{Platform}
    (s0 : State) (ops : list mutation) :
  Forall (fun t => identified t = true)
    (tasks (run_mutations ops (snd (TaskManager_new s0)))).
Proof.
  assert (Hgen : forall s,
             Forall (fun t => identified t = true) (tasks s) ->
             Forall (fun t => identified t = true)
               (tasks (run_mutations ops s))).
  { induction ops as [|op ops IH]; intros s Hs; simpl; [assumption|].
    apply IH. now apply run_mutation_identified. }
  apply Hgen.
  unfold TaskManager_new, bind.
  destruct (loadTasks s0) as [[l|e] s1] eqn:E; simpl.
  - now apply (loadTasks_identified s0 s1).
  - destruct (loadTasks_normal s0) as (l & s' & El).
    congruence.
Qed.

(** * Properties of the page *)

(** ** Rendering *)

Section Rendering.

Lemma existsb_length {A} (p : A -> bool) (l : list A) :
  existsb p l = negb (Nat.eqb (List.length (filter p l)) 0).
Proof.
  induction l as [|a l IH]; simpl; [reflexivity|].
  destruct (p a); simpl; [reflexivity | exact IH].
Qed.

Lemma partition_length {A} (p : A -> bool) (l : list A) :
  List.length l =
  (List.length (filter (fun x => negb (p x)) l)
   + List.length (filter p l))%nat.
Proof.
  induction l as [|a l IH]; simpl; [reflexivity|].
  destruct (p a); simpl; lia.
Qed.

(** A page that shows [l] is rendered. *)
Lemma showing_rendered (pg : Page) (l : list Task) :
  rendered (showing pg l).
Proof.
  unfold rendered, showing, upcoming_of, completed_of. simpl.
  rewrite !length_map.
  split; [reflexivity|]. split; [reflexivity|].
  split; [apply existsb_length|]. split; [apply existsb_length|].
  f_equal. apply partition_length.
Qed.

(** The loop of [updateTaskListUI] on tasks whose priority is a string:
    each item goes to the end of its list. *)
Lemma forEach_render_strings (l : list Task) (has : bool * bool) (pg : Page) :
  Forall (fun t => is_string (priority t) = true) l ->
  forEach_render l has pg =
  (Normal (fst has || existsb (fun t => negb (ToBoolean (isCompleted t))) l,
           snd has || existsb (fun t => ToBoolean (isCompleted t)) l),
   mkPage (manager pg) (selectedTaskId pg) (currentConfirmCallback pg)
     (addTaskModal_display pg) (confirmModal_display pg) (confirmMessage pg)
     (upcomingTasksList pg ++ upcoming_of l)
     (completedTasksList pg ++ completed_of l)
     (noUpcomingTasksMsg_hidden pg) (noCompletedTasksMsg_hidden pg)
     (progressText pg)).
Proof.
  intros Hl. revert has pg.
  induction Hl as [|t l Ht Hl IH]; intros has pg; simpl.
  - unfold uret, upcoming_of, completed_of. simpl.
    rewrite !orb_false_r, !app_nil_r. now destruct has, pg.
  - unfold ubind at 1. unfold render_task.
    destruct (priority t); try discriminate.
    unfold upcoming_of, completed_of. simpl.
    destruct (ToBoolean (isCompleted t)); simpl;
      rewrite IH; simpl; unfold upcoming_of, completed_of;
      rewrite <- !app_assoc; simpl; rewrite ?orb_true_r; reflexivity.
Qed.

(** The loop never touches the manager, and throws on a priority that
    is not a string. *)
Lemma forEach_render_manager (l : list Task) (has : bool * bool) (pg : Page) :
  manager (snd (forEach_render l has pg)) = manager pg
  /\ selectedTaskId (snd (forEach_render l has pg)) = selectedTaskId pg
  /\ currentConfirmCallback (snd (forEach_render l has pg))
     = currentConfirmCallback pg.
Proof.
  revert has pg. induction l as [|t l IH]; intros has pg; simpl.
  - now repeat split.
  - unfold ubind, render_task.
    destruct (priority t); simpl; try now repeat split.
    destruct (ToBoolean (isCompleted t)); simpl;
      match goal with
      | |- context [forEach_render l ?h ?p] =>
          destruct (IH h p) as (-> & -> & ->)
      end; now repeat split.
Qed.


(** [updateTaskListUI] on tasks whose priority is a string. *)
Lemma updateTaskListUI_eq (pg : Page) :
  Forall (fun t => is_string (priority t) = true) (tasks (manager pg)) ->
  updateTaskListUI pg =
  (Normal tt, showing pg (Array_sort SortCompare (tasks (manager pg)))).
Proof.
  intros Hl.
  assert (Hl' : Forall (fun t => is_string (priority t) = true)
                  (Array_sort SortCompare (tasks (manager pg)))).
  { rewrite Forall_forall in *. intros t Ht. apply Hl.
    exact (proj1 (Array_sort_In SortCompare t _) Ht). }
  unfold updateTaskListUI.
  unfold ubind at 1. simpl.
  unfold ubind at 1. unfold lift at 1. rewrite sortTasks_eq. simpl.
  unfold ubind at 1. unfold lift at 1. simpl.
  unfold ubind at 1. rewrite forEach_render_strings by exact Hl'. simpl.
  unfold ubind at 1. simpl.
  unfold updateProgressText, ubind, lift. simpl.
  destruct pg as [st sel cb am cm msg up comp nu nc pt]. simpl.
  unfold showing. simpl. destruct st. reflexivity.
Qed.

(** Whatever happens in it, [updateTaskListUI] leaves the manager with
    its collection sorted, and the two variables as they were. *)
Lemma updateTaskListUI_manager (pg : Page) :
  manager (snd (updateTaskListUI pg))
  = set_tasks (manager pg) (Array_sort SortCompare (tasks (manager pg)))
  /\ selectedTaskId (snd (updateTaskListUI pg)) = selectedTaskId pg
  /\ currentConfirmCallback (snd (updateTaskListUI pg))
     = currentConfirmCallback pg.
Proof.
  unfold updateTaskListUI, updateProgressText, ubind, lift. simpl.
  match goal with
  | |- context [forEach_render ?l ?h ?p] =>
      destruct (forEach_render_manager l h p) as (Hm & Hs & Hc);
      destruct (forEach_render l h p) as [[has|e] pg1]
  end; simpl in *; rewrite Hm, Hs, Hc; simpl;
    destruct (manager pg); now repeat split.
Qed.

End Rendering.

Lemma well_formed_priority_string (t : Task) :
  well_formed t = true -> is_string (priority t) = true.
Proof.
  unfold well_formed, is_priority, priorityRank.
  rewrite !andb_true_iff. intros (((((_ & _) & _) & _) & Hp) & _).
  now destruct (priority t).
Qed.

Lemma sortable_priority_string (t : Task) :
  sortable t = true -> is_string (priority t) = true.
Proof.
  unfold sortable, is_priority, priorityRank.
  rewrite !andb_true_iff. intros ((_ & Hp) & _).
  now destruct (priority t).
Qed.

(** In key order a completed task is followed by completed tasks only. *)
Lemma task_le_completed (a b : Task) :
  task_le a b -> ToBoolean (isCompleted a) = true ->
  ToBoolean (isCompleted b) = true.
Proof.
  intros ([[ca pa] da] & [[cb pb] db] & Ha & Hb & Hle).
  unfold sortKey in Ha, Hb.
  destruct (isCompleted a) as [| |xa| |]; try discriminate.
  destruct (isCompleted b) as [| |xb| |]; try discriminate.
  destruct (priorityRank (priority a)), (getTime (dueDate a));
    try discriminate.
  destruct (priorityRank (priority b)), (getTime (dueDate b));
    try discriminate.
  injection Ha as <- <- <-. injection Hb as <- <- <-.
  simpl. intros ->. unfold key_le in Hle.
  destruct xb; [reflexivity|]. lia.
Qed.

(** The upcoming items followed by the completed ones are the collection
    in its own order, when that is the key order. *)
Lemma incomplete_first (l : list Task) :
  ordered l -> upcoming_of l ++ completed_of l = map id l.
Proof.
  intros Ho. apply ordered_Sorted in Ho.
  apply Sorted_StronglySorted in Ho;
    [|intros a b c; apply task_le_trans].
  unfold upcoming_of, completed_of.
  induction Ho as [|a l Ho IH Hall]; [reflexivity|].
  simpl. destruct (ToBoolean (isCompleted a)) eqn:Ea; simpl.
  - assert (Hcomp : forall x, In x l -> ToBoolean (isCompleted x) = true).
    { rewrite Forall_forall in Hall. intros x Hx.
      now apply task_le_completed with a; [apply Hall|]. }
    rewrite (filter_all (fun t => ToBoolean (isCompleted t)) l Hcomp).
    assert (Hnone : filter (fun t => negb (ToBoolean (isCompleted t))) l
                    = []).
    { clear -Hcomp. induction l as [|x l IH]; [reflexivity|].
      simpl. rewrite (Hcomp x) by now left.
      simpl. apply IH. intros y Hy. apply Hcomp. now right. }
    now rewrite Hnone.
  - now rewrite IH.
Qed.

(** X13 (what the page shows).  When every priority is a string,
    [updateTaskListUI] returns normally.  The manager then holds the
    tasks it held, in the order the sort left them in, and the page
    shows that collection: the upcoming list holds the tasks that are
    not completed and the completed list those that are, each in the
    order of the collection; an empty-list message is hidden exactly
    when its list has an item, and the progress text counts the
    completed tasks out of all; the selection, the pending confirmation
    and storage are untouched.  On tasks of the data model the
    collection is then in key order, and the two lists, read one after
    the other, are the collection in that order. *)
Theorem updateTaskListUI_shows_store (pg : Page) :
  Forall (fun t => is_string (priority t) = true) (tasks (manager pg)) ->
  exists pg',
    updateTaskListUI pg = (Normal tt, pg')
    /\ Permutation (tasks (manager pg)) (tasks (manager pg'))
    /\ rendered pg'
    /\ storage (manager pg') = storage (manager pg)
    /\ selectedTaskId pg' = selectedTaskId pg
    /\ currentConfirmCallback pg' = currentConfirmCallback pg
    /\ (Forall (fun t => sortable t = true) (tasks (manager pg)) ->
        ordered (tasks (manager pg'))
        /\ upcomingTasksList pg' ++ completedTasksList pg'
           = map id (tasks (manager pg'))).
Proof.
  intros Hl.
  exists (showing pg (Array_sort SortCompare (tasks (manager pg)))).
  split; [now apply updateTaskListUI_eq|].
  split; [apply Permutation_sym, Array_sort_perm|].
  split; [apply showing_rendered|].
  split; [reflexivity|]. split; [reflexivity|]. split; [reflexivity|].
  intros Hs. simpl.
  assert (Ho : ordered (Array_sort SortCompare (tasks (manager pg))))
    by now apply Array_sort_ordered.
  split; [exact Ho|]. now apply incomplete_first.
Qed.

Lemma updateTaskListUI_shows_store_witness :
  let pg := blank_page unsorted_store in
  Forall (fun t => is_string (priority t) = true) (tasks (manager pg))
  /\ Forall (fun t => sortable t = true) (tasks (manager pg))
  /\ exists pg',
       updateTaskListUI pg = (Normal tt, pg')
       /\ Permutation (tasks (manager pg)) (tasks (manager pg'))
       /\ rendered pg'
       /\ storage (manager pg') = storage (manager pg)
       /\ selectedTaskId pg' = selectedTaskId pg
       /\ currentConfirmCallback pg' = currentConfirmCallback pg
       /\ ordered (tasks (manager pg'))
       /\ upcomingTasksList pg' ++ completedTasksList pg'
          = map id (tasks (manager pg')).
Proof.
  intros pg.
  assert (Hl : Forall (fun t => is_string (priority t) = true)
                 (tasks (manager pg)))
    by repeat constructor.
  assert (Hs : Forall (fun t => sortable t = true) (tasks (manager pg)))
    by repeat constructor.
  split; [exact Hl|]. split; [exact Hs|].
  destruct (updateTaskListUI_shows_store pg Hl)
    as (pg' & E & Hp & Hr & Hst & Hsel & Hcb & Hord).
  exists pg'.
  split; [exact E|]. split; [exact Hp|]. split; [exact Hr|].
  split; [exact Hst|]. split; [exact Hsel|]. split; [exact Hcb|].
  exact (Hord Hs).
Defined.

Example updateTaskListUI_unsorted_store :
  let pg := snd (updateTaskListUI (blank_page unsorted_store)) in
  upcomingTasksList pg = [VStr "14"; VStr "11"; VStr "12"]
  /\ completedTasksList pg = [VStr "13"]
  /\ noUpcomingTasksMsg_hidden pg = true
  /\ noCompletedTasksMsg_hidden pg = true
  /\ progressText pg = "<b>1</b> of <b>4</b> tasks completed".
Proof. vm_compute. repeat split. Qed.




Example script_on_bare_record :
  let P := Host.ticking day2 in
  fst (script (blank_page bare_record_store)) = Throw TypeError.
Proof. vm_compute. reflexivity. Qed.

(** ** The page stays in order *)

Lemma filter_length_same {A} (q : A -> bool) (l : list A) :
  (List.length (filter q l) <? List.length l)%nat = false ->
  filter q l = l.
Proof.
  intros Hlen. apply Nat.ltb_ge in Hlen.
  induction l as [|a l IH]; [reflexivity|].
  simpl in *. destruct (q a); simpl in *.
  - f_equal. apply IH. lia.
  - pose proof (filter_length_le q l). lia.
Qed.

Lemma removeTask_false `{Platform} (s s' : State) (taskId : value) :
  removeTask taskId s = (Normal false, s') -> s' = s.
Proof.
  rewrite removeTask_eq. cbv zeta.
  destruct (_ <? _)%nat eqn:E.
  - destruct (saved_text _); discriminate.
  - intros [= <-]. rewrite (filter_length_same _ _ E).
    apply set_tasks_same.
Qed.

Lemma addTask_false_tasks `{Platform} (s s' : State) (n d due p : value) :
  Forall (fun t => dated t = true) (tasks s) ->
  addTask n d due p s = (Normal false, s') -> tasks s' = tasks s.
Proof.
  intros Hd.
  destruct (isValidDate (new_Date due)) eqn:E.
  - rewrite (addTask_accepts s n d due p E). cbv zeta.
    set (l := Array_sort SortCompare _).
    assert (Hl : Forall (fun t => dated t = true) l).
    { rewrite Forall_forall in *. intros t Ht.
      apply (proj1 (Array_sort_In SortCompare t _)) in Ht.
      apply in_app_or in Ht as [Ht|[<-|[]]]; [now apply Hd | exact E]. }
    destruct (saved_text_dated l Hl) as [txt ->]. discriminate.
  - rewrite (addTask_rejects s n d due p E). now intros [= <-].
Qed.

(** One mutation on a store of the data model in key order. *)
Lemma mutation_step `{Platform} (op : mutation) (s : State) :
  Forall (fun t => well_formed t = true) (tasks s) ->
  ordered (tasks s) ->
  mutation_well_formed op = true ->
  exists b s',
    run_mutation op s = (Normal b, s')
    /\ Forall (fun t => well_formed t = true) (tasks s')
    /\ ordered (tasks s')
    /\ (b = false -> tasks s' = tasks s).
Proof.
  intros Hwf Ho Hop.
  assert (Hs : Forall (fun t => sortable t = true) (tasks s)).
  { revert Hwf. apply Forall_impl. exact well_formed_sortable. }
  pose proof (run_mutation_well_formed op s Hwf Hop) as Hwf'.
  assert (Hstep : exists b s',
             run_mutation op s = (Normal b, s') /\ ordered (tasks s')).
  { destruct op as [n d due p | taskId | taskId]; simpl in *.
    - apply andb_true_iff in Hop as [_ Hp].
      destruct (addTask_ordered s n d due p Hs Ho Hp)
        as (b & s' & E & Ho' & _). eauto.
    - destruct (removeTask_ordered s taskId Hs Ho)
        as (b & s' & E & Ho' & _). eauto.
    - destruct (toggleCompleteTask_ordered s taskId Hs Ho)
        as (b & s' & E & Ho' & _). eauto. }
  destruct Hstep as (b & s' & E & Ho').
  exists b, s'. rewrite E in Hwf'. simpl in Hwf'.
  split; [assumption|]. split; [assumption|]. split; [assumption|].
  intros ->.
  destruct op as [n d due p | taskId | taskId]; simpl in E.
  - apply (addTask_false_tasks s s' n d due p); [|assumption].
    now apply Forall_sortable_dated.
  - now rewrite (removeTask_false s s' taskId E).
  - rewrite toggleCompleteTask_eq in E.
    destruct (find_index _ _); [|now injection E as <-].
    cbv zeta in E. destruct (saved_text _); discriminate.
Qed.

Lemma page_ok_showing (pg : Page) (l : list Task) :
  Forall (fun t => well_formed t = true) l -> ordered l ->
  page_ok (showing pg l).
Proof.
  intros Hwf Ho. unfold page_ok.
  split; [exact Hwf|]. split; [exact Ho|]. apply showing_rendered.
Qed.

(** Rendering a store of the data model in key order. *)
Lemma updateTaskListUI_ok (pg : Page) :
  Forall (fun t => well_formed t = true) (tasks (manager pg)) ->
  ordered (tasks (manager pg)) ->
  updateTaskListUI pg = (Normal tt, showing pg (tasks (manager pg))).
Proof.
  intros Hwf Ho.
  rewrite updateTaskListUI_eq.
  - rewrite Array_sort_ordered_id; trivial.
    revert Hwf. apply Forall_impl. exact well_formed_sortable.
  - revert Hwf. apply Forall_impl. exact well_formed_priority_string.
Qed.

(** Rendering on any page whose manager holds tasks of the data model in
    key order gives a page in order. *)
Lemma updateTaskListUI_page_ok (pg : Page) :
  Forall (fun t => well_formed t = true) (tasks (manager pg)) ->
  ordered (tasks (manager pg)) ->
  exists pg',
    updateTaskListUI pg = (Normal tt, pg')
    /\ page_ok pg'
    /\ manager pg' = manager pg
    /\ selectedTaskId pg' = selectedTaskId pg
    /\ currentConfirmCallback pg' = currentConfirmCallback pg
    /\ addTaskModal_display pg' = addTaskModal_display pg
    /\ confirmModal_display pg' = confirmModal_display pg.
Proof.
  intros Hwf Ho.
  exists (showing pg (tasks (manager pg))).
  split; [now apply updateTaskListUI_ok|].
  split; [now apply page_ok_showing|].
  simpl. rewrite set_tasks_same. now repeat split.
Qed.

(** Being in order is a matter of the manager's tasks and of the parts of
    the document that show them. *)
Lemma page_ok_same (pg pg' : Page) :
  page_ok pg ->
  tasks (manager pg') = tasks (manager pg) ->
  upcomingTasksList pg' = upcomingTasksList pg ->
  completedTasksList pg' = completedTasksList pg ->
  noUpcomingTasksMsg_hidden pg' = noUpcomingTasksMsg_hidden pg ->
  noCompletedTasksMsg_hidden pg' = noCompletedTasksMsg_hidden pg ->
  progressText pg' = progressText pg ->
  page_ok pg'.
Proof.
  intros Hok Em Eu Ec Enu Enc Ep.
  unfold page_ok, rendered in *.
  rewrite Em, Eu, Ec, Enu, Enc, Ep. exact Hok.
Qed.

(** A mutation, the rendering, and the selection cleared: the body of
    the handlers that change the store. *)
Lemma mutate_render_clear `{Platform}
    (op : mutation) (pg : Page) (between : U unit) :
  page_ok pg ->
  mutation_well_formed op = true ->
  (forall p, exists p',
      between p = (Normal tt, p') /\ manager p' = manager p) ->
  exists b pg1,
    lift (run_mutation op) pg = (Normal b, pg1)
    /\ (b = false -> page_ok pg1)
    /\ exists pg',
         (between ;;- updateTaskListUI ;;- clearTaskDetails) pg1
         = (Normal tt, pg')
         /\ page_ok pg'
         /\ manager pg' = manager pg1
         /\ selectedTaskId pg' = VNull.
Proof.
  intros (Hwf & Ho & Hr) Hop Hbetween.
  destruct (mutation_step op (manager pg) Hwf Ho Hop)
    as (b & st & E & Hwf' & Ho' & Hsame).
  exists b, (set_manager pg st).
  split; [unfold lift; now rewrite E|].
  split.
  { intros Hb. specialize (Hsame Hb).
    apply page_ok_same with pg; trivial.
    split; [assumption|]. split; assumption. }
  destruct (Hbetween (set_manager pg st)) as (p1 & E1 & Hm1).
  destruct (updateTaskListUI_page_ok p1) as (p2 & E2 & Hok2 & Hm2 & _).
  { now rewrite Hm1. }
  { now rewrite Hm1. }
  exists (snd (clearTaskDetails p2)).
  split.
  { unfold ubind. now rewrite E1, E2. }
  split; [now apply page_ok_same with p2|].
  split; [simpl; now rewrite Hm2, Hm1 | reflexivity].
Qed.

Lemma no_step_between (p : Page) :
  exists p', uret tt p = (Normal tt, p') /\ manager p' = manager p.
Proof. now exists p. Qed.

(** X15 (the page shows the store, always).  From a page that holds tasks
    of the data model in key order and shows them, every event, with
    inputs of the data model, is handled without an error and leaves
    such a page again: after any event the two lists, the messages and
    the progress text are those of the collection the manager holds. *)
Theorem handle_keeps_page_ok `{Platform} (ev : event) (pg : Page) :
  page_ok pg ->
  event_ok ev = true ->
  exists pg', handle ev pg = (Normal tt, pg') /\ page_ok pg'.
Proof.
  intros Hok Hev.
  destruct ev as [taskId | taskId | | | n d due p | | | | ];
    unfold handle.
  - (* the checkbox of an item *)
    destruct (mutate_render_clear (ToggleComplete taskId) pg (uret tt)
                Hok eq_refl no_step_between)
      as (b & pg1 & E & _ & pg' & E' & Hok' & _).
    exists pg'. split; [|assumption].
    cbn [run_mutation] in E. unfold ubind at 1. rewrite E.
    unfold ubind in E' |- *. exact E'.
  - (* an item *)
    eexists. split; [reflexivity|]. now apply page_ok_same with pg.
  - eexists. split; [reflexivity|]. now apply page_ok_same with pg.
  - eexists. split; [reflexivity|]. now apply page_ok_same with pg.
  - (* the form *)
    cbv zeta.
    destruct (negb (String_trim n =? "")%string && negb (due =? "")%string).
    + destruct (mutate_render_clear
                  (Add (VStr (String_trim n)) (VStr (String_trim d))
                     (VStr due) (VStr p))
                  pg (set_addTaskModal_display "none") Hok Hev)
        as (b & pg1 & E & Hb & pg' & E' & Hok' & _).
      { intros p0. eexists. split; reflexivity. }
      cbn [run_mutation] in E. unfold ubind at 1. rewrite E.
      destruct b.
      * exists pg'. split; assumption.
      * exists pg1. split; [reflexivity | now apply Hb].
    + eexists. split; [reflexivity|]. now apply page_ok_same with pg.
  - (* the toggle button *)
    unfold ubind at 1.
    destruct (ToBoolean (selectedTaskId pg)).
    + destruct (mutate_render_clear (ToggleComplete (selectedTaskId pg)) pg
                  (uret tt) Hok eq_refl no_step_between)
        as (b & pg1 & E & _ & pg' & E' & Hok' & _).
      exists pg'. split; [|assumption].
      cbn [run_mutation] in E. unfold ubind at 1. rewrite E.
      unfold ubind in E' |- *. exact E'.
    + eexists. split; [reflexivity | exact Hok].
  - (* the delete button *)
    unfold ubind at 1.
    destruct (ToBoolean (selectedTaskId pg)).
    + eexists. split; [reflexivity|]. now apply page_ok_same with pg.
    + eexists. split; [reflexivity | exact Hok].
  - (* the confirm button *)
    unfold ubind at 1.
    destruct (currentConfirmCallback pg) as [[]|].
    + destruct (mutate_render_clear (Remove (selectedTaskId pg)) pg
                  (uret tt) Hok eq_refl no_step_between)
        as (b & pg1 & E & Hb & pg' & E' & Hok' & _).
      cbn [run_mutation] in E.
      unfold ubind at 1. unfold run_callback. unfold ubind at 1.
      unfold ubind at 1. rewrite E.
      destruct b.
      * unfold ubind in E' |- *. cbn [uret] in E'.
        destruct (updateTaskListUI pg1) as [[[]|e] pg2]; [|discriminate].
        injection E' as <-.
        eexists. split; [reflexivity|].
        now apply page_ok_same with (snd (clearTaskDetails pg2)).
      * eexists. split; [reflexivity|].
        apply page_ok_same with pg1; trivial. now apply Hb.
    + eexists. split; [reflexivity|]. now apply page_ok_same with pg.
  - (* the cancel button *)
    eexists. split; [reflexivity|]. now apply page_ok_same with pg.
Qed.

Lemma sample_page_ok : page_ok sample_page.
Proof.
  split; [repeat constructor|]. split.
  - change (tasks (manager sample_page))
      with (Array_sort SortCompare (tasks sample_store)).
    apply Array_sort_ordered. repeat constructor.
  - repeat split.
Qed.

Lemma handle_keeps_page_ok_witness :
  let P := Host.ticking day2 in
  let ev := FormSubmit " Buy milk " "" "2025-06-01T10:00" "High" in
  page_ok sample_page
  /\ event_ok ev = true
  /\ exists pg', handle ev sample_page = (Normal tt, pg') /\ page_ok pg'.
Proof.
  intros P ev.
  split; [exact sample_page_ok|]. split; [reflexivity|].
  exact (@handle_keeps_page_ok P ev sample_page sample_page_ok eq_refl).
Defined.

Example handle_form_submit_sample :
  let P := Host.ticking day2 in
  let pg :=
    snd (handle (FormSubmit " Buy milk " "" "2025-06-01T10:00" "High")
           sample_page) in
  map name (tasks (manager pg))
  = [VStr "Buy milk"; VStr "Water plants"; VStr "Pay rent"; VStr "Call home"]
  /\ upcomingTasksList pg = [VStr "1748858400000"; VStr "11"; VStr "12"]
  /\ completedTasksList pg = [VStr "13"]
  /\ progressText pg = "<b>1</b> of <b>4</b> tasks completed"
  /\ selectedTaskId pg = VNull.
Proof. vm_compute. repeat split. Qed.

(** ** Deleting *)

Lemma well_formed_id_set (t : Task) :
  well_formed t = true -> ToBoolean (id t) = true.
Proof.
  unfold well_formed. rewrite !andb_true_iff. tauto.
Qed.

(** X16 (a confirmed delete).  On a page in order whose selection is the
    id of a task, the delete button opens the confirmation and changes
    nothing in the store; the confirm button then removes the tasks with
    that id and no other, stores the collection, renders it, clears the
    selection, closes the confirmation and forgets the callback. *)
Theorem delete_then_confirm `{Platform} (pg : Page) :
  page_ok pg ->
  (exists t, In t (tasks (manager pg)) /\ id t = selectedTaskId pg) ->
  exists pg1 pg2,
    handle DeleteTaskClick pg = (Normal tt, pg1)
    /\ manager pg1 = manager pg
    /\ confirmModal_display pg1 = "flex"
    /\ confirmMessage pg1 = delete_question
    /\ handle ConfirmActionClick pg1 = (Normal tt, pg2)
    /\ tasks (manager pg2)
       = filter (fun t => negb (strict_equal (id t) (selectedTaskId pg)))
           (tasks (manager pg))
    /\ storage (manager pg2) = saved_text (tasks (manager pg2))
    /\ page_ok pg2
    /\ selectedTaskId pg2 = VNull
    /\ currentConfirmCallback pg2 = None
    /\ confirmModal_display pg2 = "none".
Proof.
  intros Hok (t & Hin & Hid).
  pose proof Hok as (Hwf & Ho & Hr).
  assert (Hsel : ToBoolean (selectedTaskId pg) = true).
  { rewrite <- Hid. apply well_formed_id_set.
    rewrite Forall_forall in Hwf. now apply Hwf. }
  set (sel := selectedTaskId pg).
  set (q := fun t => negb (strict_equal (id t) sel)).
  set (l := filter q (tasks (manager pg))).
  assert (Hwfl : Forall (fun t => well_formed t = true) l)
    by now apply filter_Forall.
  assert (Hol : ordered l) by now apply filter_ordered.
  assert (Hlt : (List.length l <? List.length (tasks (manager pg)))%nat
                = true).
  { apply Nat.ltb_lt, filter_length_lt. exists t. split; [assumption|].
    unfold q. apply negb_false_iff. now apply strict_equal_true. }
  assert (Hdl : Forall (fun t => dated t = true) l).
  { apply Forall_sortable_dated. revert Hwfl. apply Forall_impl.
    exact well_formed_sortable. }
  destruct (saved_text_dated l Hdl) as [txt Htxt].
  set (pg1 := snd (showConfirmModal delete_question DeleteSelectedTask pg)).
  set (st2 := stored (set_tasks (manager pg) l) txt).
  destruct (updateTaskListUI_page_ok (set_manager pg1 st2))
    as (pg' & E' & Hok' & Hm' & Hs' & Hc' & _ & Hcd'); trivial.
  exists pg1.
  exists (snd (set_currentConfirmCallback None
            (snd (set_confirmModal_display "none"
                    (snd (clearTaskDetails pg')))))).
  split.
  { unfold handle, ubind. now rewrite Hsel. }
  split; [reflexivity|]. split; [reflexivity|]. split; [reflexivity|].
  split.
  { unfold handle. unfold ubind at 1.
    change (currentConfirmCallback pg1) with (Some DeleteSelectedTask).
    unfold ubind at 1. unfold run_callback. unfold ubind at 1.
    unfold ubind at 1. unfold lift.
    change (selectedTaskId pg1) with sel.
    change (manager pg1) with (manager pg).
    rewrite removeTask_eq. cbv zeta. fold q. fold l.
    rewrite Hlt, Htxt. fold st2.
    unfold ubind. rewrite E'. reflexivity. }
  cbn [snd set_currentConfirmCallback set_confirmModal_display
         clearTaskDetails set_selectedTaskId manager selectedTaskId
         currentConfirmCallback confirmModal_display].
  rewrite Hm'.
  split; [reflexivity|].
  split; [simpl; now rewrite Htxt|].
  split; [apply page_ok_same with pg'; trivial; simpl; now rewrite Hm'|].
  now repeat split.
Qed.

Lemma delete_then_confirm_witness :
  let P := Host.ticking day2 in
  page_ok sample_page
  /\ (exists t, In t (tasks (manager sample_page))
                /\ id t = selectedTaskId sample_page)
  /\ exists pg1 pg2,
       handle DeleteTaskClick sample_page = (Normal tt, pg1)
       /\ manager pg1 = manager sample_page
       /\ confirmModal_display pg1 = "flex"
       /\ confirmMessage pg1 = delete_question
       /\ handle ConfirmActionClick pg1 = (Normal tt, pg2)
       /\ tasks (manager pg2)
          = filter (fun t =>
                      negb (strict_equal (id t) (selectedTaskId sample_page)))
              (tasks (manager sample_page))
       /\ storage (manager pg2) = saved_text (tasks (manager pg2))
       /\ page_ok pg2
       /\ selectedTaskId pg2 = VNull
       /\ currentConfirmCallback pg2 = None
       /\ confirmModal_display pg2 = "none".
Proof.
  intros P.
  assert (Hin : exists t, In t (tasks (manager sample_page))
                          /\ id t = selectedTaskId sample_page).
  { eexists. split; [left; reflexivity | reflexivity]. }
  split; [exact sample_page_ok|]. split; [exact Hin|].
  exact (@delete_then_confirm P sample_page sample_page_ok Hin).
Defined.

Lemma confirm_normal `{Platform} (pg pg1 : Page) :
  handle ConfirmActionClick pg = (Normal tt, pg1) ->
  currentConfirmCallback pg1 = None.
Proof.
  unfold handle, ubind.
  destruct (currentConfirmCallback pg) as [cb|].
  - destruct (run_callback cb pg) as [[[]|e] p']; [|discriminate].
    cbn. now intros [= <-].
  - cbn. now intros [= <-].
Qed.

Lemma confirm_unarmed `{Platform} (pg : Page) :
  currentConfirmCallback pg = None ->
  handle ConfirmActionClick pg
  = (Normal tt,
     snd (set_currentConfirmCallback None
            (snd (set_confirmModal_display "none" pg)))).
Proof.
  intros E. unfold handle, ubind. now rewrite E.
Qed.

(** X17 (a confirmation is used once, a cancel uses it up).  On any
    page: after the delete button and then the cancel button, a click on
    the confirm button still finds no callback, and the store is as it
    was before the three clicks.  And once the confirm button has been
    handled without an error, another click on it changes nothing in
    the store. *)
Theorem confirmation_is_spent `{Platform} (pg : Page) :
  (let pg3 :=
     handle_all [DeleteTaskClick; CancelConfirmClick; ConfirmActionClick] pg
   in
   manager pg3 = manager pg
   /\ currentConfirmCallback pg3 = None
   /\ confirmModal_display pg3 = "none")
  /\ (fst (handle ConfirmActionClick pg) = Normal tt ->
      let pg1 := snd (handle ConfirmActionClick pg) in
      currentConfirmCallback pg1 = None
      /\ handle ConfirmActionClick pg1
         = (Normal tt,
            snd (set_currentConfirmCallback None
                   (snd (set_confirmModal_display "none" pg1))))
      /\ manager (snd (handle ConfirmActionClick pg1)) = manager pg1).
Proof.
  split.
  - simpl. unfold ubind. simpl.
    destruct (ToBoolean (selectedTaskId pg)); now repeat split.
  - destruct (handle ConfirmActionClick pg) as [[[]|e] pg1] eqn:E;
      [|discriminate].
    intros _. cbn [snd].
    pose proof (confirm_normal pg pg1 E) as Hcb.
    split; [assumption|].
    rewrite (confirm_unarmed pg1 Hcb).
    split; reflexivity.
Qed.

Lemma confirmation_is_spent_witness :
  let P := Host.ticking day2 in
  let pg := snd (handle DeleteTaskClick sample_page) in
  fst (handle ConfirmActionClick pg) = Normal tt
  /\ (let pg1 := snd (handle ConfirmActionClick pg) in
      currentConfirmCallback pg1 = None
      /\ handle ConfirmActionClick pg1
         = (Normal tt,
            snd (set_currentConfirmCallback None
                   (snd (set_confirmModal_display "none" pg1))))
      /\ manager (snd (handle ConfirmActionClick pg1)) = manager pg1).
Proof.
  intros P pg.
  assert (Hn : fst (handle ConfirmActionClick pg) = Normal tt)
    by (vm_compute; reflexivity).
  split; [exact Hn|].
  exact (proj2 (@confirmation_is_spent P pg) Hn).
Defined.

(** ** What removes a task *)

Lemma update_at_flip_keeps_id (i : nat) (l : list Task) (t : Task) :
  In t l ->
  exists t', In t' (update_at i flip_isCompleted l) /\ id t' = id t.
Proof.
  intros Hin.
  assert (Hid : In (id t) (map id (update_at i flip_isCompleted l))).
  { rewrite update_at_flip_ids. now apply in_map. }
  apply in_map_iff in Hid as (t' & E & Hin'). now exists t'.
Qed.

(** A mutation, whatever its outcome, keeps every id, except that
    [removeTask] drops the id it is given. *)
Lemma mutation_keeps_ids `{Platform} (op : mutation) (s : State) (t : Task) :
  In t (tasks s) ->
  (exists t', In t' (tasks (snd (run_mutation op s))) /\ id t' = id t)
  \/ op = Remove (id t).
Proof.
  intros Hin.
  destruct op as [n d due p | taskId | taskId]; simpl.
  - left. exists t. split; [|reflexivity].
    destruct (isValidDate (new_Date due)) eqn:E.
    + rewrite (addTask_accepts s n d due p E). cbv zeta.
      assert (Ht : In t (Array_sort SortCompare
                           (tasks s ++ [created_task s n d due p]))).
      { apply Array_sort_In, in_or_app. now left. }
      now destruct (saved_text _).
    + now rewrite (addTask_rejects s n d due p E).
  - destruct (value_eq_dec (id t) taskId) as [E|E].
    + right. now rewrite E.
    + left. exists t. split; [|reflexivity].
      rewrite removeTask_eq. cbv zeta.
      assert (Ht : In t (filter
                           (fun t => negb (strict_equal (id t) taskId))
                           (tasks s))).
      { apply filter_In. split; [assumption|].
        now apply negb_true_iff, strict_equal_false. }
      destruct (_ <? _)%nat; [|exact Ht].
      now destruct (saved_text _).
  - left. rewrite toggleCompleteTask_eq.
    destruct (find_index _ _) as [i|]; [|now exists t].
    cbv zeta.
    destruct (update_at_flip_keeps_id i (tasks s) t Hin) as (t' & Ht' & E).
    exists t'. split; [|assumption].
    assert (Hs : In t' (Array_sort SortCompare
                          (update_at i flip_isCompleted (tasks s))))
      by now apply Array_sort_In.
    now destruct (saved_text _).
Qed.

(** After the rendering, and the statements the handlers put around it,
    the manager holds its collection sorted, error or not. *)
Lemma render_clear_tasks (pre : U unit) (pg : Page) :
  (forall p, exists p', pre p = (Normal tt, p') /\ manager p' = manager p) ->
  tasks (manager (snd ((pre ;;- updateTaskListUI ;;- clearTaskDetails) pg)))
  = Array_sort SortCompare (tasks (manager pg)).
Proof.
  intros Hpre. destruct (Hpre pg) as (p1 & E1 & Hm1).
  unfold ubind. rewrite E1.
  destruct (updateTaskListUI_manager p1) as (Hm & _).
  destruct (updateTaskListUI p1) as [[[]|e] p2]; simpl in *;
    rewrite Hm, Hm1; reflexivity.
Qed.

(** X18 (only a confirmed delete removes a task).  Whatever the page and
    the event, and whether the handler ends in an error or not: the id
    of every task the manager holds before the event is the id of a task
    it holds after, unless the event is a click on the confirm button
    with the delete callback pending and the id is the selected one. *)
Theorem only_confirm_removes `{Platform} (ev : event) (pg : Page) (t : Task) :
  In t (tasks (manager pg)) ->
  (exists t', In t' (tasks (manager (snd (handle ev pg)))) /\ id t' = id t)
  \/ (ev = ConfirmActionClick
      /\ currentConfirmCallback pg = Some DeleteSelectedTask
      /\ id t = selectedTaskId pg).
Proof.
  intros Hin.
  assert (Hrun : forall op (pre : U unit),
             (forall p, exists p',
                 pre p = (Normal tt, p') /\ manager p' = manager p) ->
             (exists t',
                 In t' (tasks (manager
                   (snd ((lift (run_mutation op) ;;-
                          pre ;;- updateTaskListUI ;;- clearTaskDetails)
                           pg))))
                 /\ id t' = id t)
             \/ op = Remove (id t)).
  { intros op pre Hpre.
    destruct (mutation_keeps_ids op (manager pg) t Hin)
      as [(t' & Ht' & E)|Hop]; [left | now right].
    exists t'. split; [|assumption].
    unfold ubind at 1. unfold lift.
    destruct (run_mutation op (manager pg)) as [[b|e] st]; simpl in Ht'.
    - rewrite (render_clear_tasks pre (set_manager pg st) Hpre).
      now apply Array_sort_In.
    - exact Ht'. }
  destruct ev as [taskId | taskId | | | n d due p | | | | ];
    unfold handle.
  - left.
    destruct (Hrun (ToggleComplete taskId) (uret tt) no_step_between)
      as [(t' & Ht' & E)|Hop]; [|discriminate].
    exists t'. split; [|assumption].
    unfold ubind in Ht' |- *. cbn [run_mutation uret] in Ht'. exact Ht'.
  - left. now exists t.
  - left. now exists t.
  - left. now exists t.
  - left. cbv zeta.
    destruct (negb (String_trim n =? "")%string && negb (due =? "")%string).
    + destruct (mutation_keeps_ids
                  (Add (VStr (String_trim n)) (VStr (String_trim d))
                     (VStr due) (VStr p)) (manager pg) t Hin)
        as [(t' & Ht' & E)|Hop]; [|discriminate].
      exists t'. split; [|assumption].
      cbn [run_mutation] in Ht'.
      unfold ubind at 1. unfold lift.
      destruct (addTask _ _ _ _ (manager pg)) as [[[|]|e] st];
        simpl in Ht'.
      * rewrite (render_clear_tasks (set_addTaskModal_display "none")
                   (set_manager pg st)).
        -- now apply Array_sort_In.
        -- intros p0. eexists. split; reflexivity.
      * exact Ht'.
      * exact Ht'.
    + now exists t.
  - left. unfold ubind at 1.
    destruct (ToBoolean (selectedTaskId pg)); [|now exists t].
    destruct (Hrun (ToggleComplete (selectedTaskId pg)) (uret tt)
                no_step_between)
      as [(t' & Ht' & E)|Hop]; [|discriminate].
    exists t'. split; [|assumption].
    unfold ubind in Ht' |- *. cbn [run_mutation uret] in Ht'. exact Ht'.
  - left. unfold ubind at 1.
    destruct (ToBoolean (selectedTaskId pg)); now exists t.
  - unfold ubind at 1.
    destruct (currentConfirmCallback pg) as [[]|]; [|left; now exists t].
    destruct (mutation_keeps_ids (Remove (selectedTaskId pg)) (manager pg)
                t Hin)
      as [(t' & Ht' & E)|Hop].
    + left. exists t'. split; [|assumption].
      cbn [run_mutation] in Ht'.
      unfold ubind at 1. unfold run_callback. unfold ubind at 1.
      unfold ubind at 1. unfold lift.
      destruct (removeTask _ (manager pg)) as [[[|]|e] st];
        simpl in Ht'.
      * pose proof (render_clear_tasks (uret tt) (set_manager pg st)
                      no_step_between) as Hr.
        unfold ubind in Hr |- *. cbn [uret] in Hr.
        destruct (updateTaskListUI (set_manager pg st)) as [[[]|e] p2];
          simpl in Hr |- *; rewrite Hr; now apply Array_sort_In.
      * exact Ht'.
      * exact Ht'.
    + right. injection Hop as Hop. now repeat split.
  - left. now exists t.
Qed.

Lemma only_confirm_removes_witness :
  let P := Host.ticking day2 in
  let ev := CheckboxChange (VStr "11") in
  let t := sample_task "12" "Pay rent" "Medium" day1 false in
  In t (tasks (manager sample_page))
  /\ ((exists t',
          In t' (tasks (manager (snd (handle ev sample_page))))
          /\ id t' = id t)
      \/ (ev = ConfirmActionClick
          /\ currentConfirmCallback sample_page = Some DeleteSelectedTask
          /\ id t = selectedTaskId sample_page)).
Proof.
  intros P ev t.
  assert (Hin : In t (tasks (manager sample_page)))
    by (right; left; reflexivity).
  split; [exact Hin|].
  exact (@only_confirm_removes P ev sample_page t Hin).
Defined.

(** ** The form *)

(** X19 (what a submit does).  With a name that is blank once trimmed, or
    an empty due date, the submit handler shows the alert that both are
    required and does nothing else: [addTask] is not called.  With both
    given, on a page in order: when the due date is a valid date and the
    priority is of the enumeration the task is added under the trimmed
    name and description, stored and shown, the modal is closed and the
    selection cleared; when the due date is not a valid date the store
    and the page stay as they are, the alert of [addTask] is shown and
    the modal is left open. *)
Theorem form_submit `{Platform}
    (pg : Page) (nameInput descriptionInput dueDateInput priorityInput : string) :
  let ev :=
    FormSubmit nameInput descriptionInput dueDateInput priorityInput in
  let n := VStr (String_trim nameInput) in
  let d := VStr (String_trim descriptionInput) in
  let due := VStr dueDateInput in
  let p := VStr priorityInput in
  (String_trim nameInput = EmptyString \/ dueDateInput = EmptyString ->
   handle ev pg
   = (Normal tt, set_manager pg (snd (alert required_alert (manager pg)))))
  /\ (String_trim nameInput <> EmptyString ->
      dueDateInput <> EmptyString ->
      page_ok pg ->
      (isValidDate (new_Date due) = true ->
       is_priority p = true ->
       exists pg',
         handle ev pg = (Normal tt, pg')
         /\ Permutation (tasks (manager pg'))
              (tasks (manager pg) ++ [created_task (manager pg) n d due p])
         /\ storage (manager pg') = saved_text (tasks (manager pg'))
         /\ page_ok pg'
         /\ addTaskModal_display pg' = "none"
         /\ selectedTaskId pg' = VNull)
      /\ (isValidDate (new_Date due) = false ->
          handle ev pg = (Normal tt, set_manager pg (add_failed (manager pg)))
          /\ page_ok (set_manager pg (add_failed (manager pg))))).
Proof.
  intros ev n d due p. subst ev n d due p. split.
  - unfold handle. cbv zeta.
    intros [-> | ->]; simpl; [reflexivity|].
    now rewrite andb_false_r.
  - intros Hn Hdue Hok.
    assert (Hguard : negb (String_trim nameInput =? "")%string
                     && negb (dueDateInput =? "")%string = true).
    { apply andb_true_iff.
      split; now apply negb_true_iff, String.eqb_neq. }
    pose proof Hok as (Hwf & Ho & Hr).
    split.
    + intros Hvalid Hp.
      set (new := created_task (manager pg) _ _ _ _).
      set (l := Array_sort SortCompare (tasks (manager pg) ++ [new])).
      assert (Hwfl : Forall (fun t => well_formed t = true) l).
      { rewrite Forall_forall in *. intros t Ht.
        apply (proj1 (Array_sort_In SortCompare t _)) in Ht.
        apply in_app_or in Ht as [Ht|[<-|[]]]; [now apply Hwf|].
        now apply created_task_well_formed. }
      assert (Hsl : Forall (fun t => sortable t = true) l).
      { revert Hwfl. apply Forall_impl. exact well_formed_sortable. }
      assert (Hol : ordered l).
      { apply Array_sort_ordered, Forall_app. split.
        - revert Hwf. apply Forall_impl. exact well_formed_sortable.
        - constructor; [|constructor].
          now apply created_task_sortable. }
      destruct (saved_text_dated l (Forall_sortable_dated l Hsl))
        as [txt Htxt].
      set (st1 := stored (set_tasks (ticked (manager pg) 1) l) txt).
      destruct (updateTaskListUI_page_ok
                  (snd (set_addTaskModal_display "none"
                          (set_manager pg st1))))
        as (pg2 & E2 & Hok2 & Hm2 & _ & _ & Hd2 & _); trivial.
      exists (snd (clearTaskDetails pg2)).
      split.
      { unfold handle. cbv zeta. rewrite Hguard.
        unfold ubind at 1. unfold lift.
        rewrite (addTask_accepts (manager pg) _ _ _ _ Hvalid).
        cbv zeta. fold new. fold l. rewrite Htxt. fold st1.
        unfold ubind. cbn [set_addTaskModal_display].
        cbn [set_addTaskModal_display snd] in E2. now rewrite E2. }
      cbn [clearTaskDetails set_selectedTaskId snd manager
             addTaskModal_display selectedTaskId].
      rewrite Hm2, Hd2.
      split; [apply Array_sort_perm|].
      split; [simpl; now rewrite Htxt|].
      split.
      { apply page_ok_same with pg2; trivial. simpl. now rewrite Hm2. }
      now split.
    + intros Hinvalid.
      split.
      * unfold handle. cbv zeta. rewrite Hguard.
        unfold ubind, lift.
        now rewrite (addTask_rejects (manager pg) _ _ _ _ Hinvalid).
      * now apply page_ok_same with pg.
Qed.

Lemma form_submit_witness :
  let P := Host.ticking day2 in
  let nameInput := " Buy milk " in
  let dueDateInput := "2025-06-01T10:00" in
  let ev := FormSubmit nameInput "" dueDateInput "High" in
  let n := VStr (String_trim nameInput) in
  let due := VStr dueDateInput in
  String_trim nameInput <> EmptyString
  /\ dueDateInput <> EmptyString
  /\ page_ok sample_page
  /\ isValidDate (new_Date due) = true
  /\ is_priority (VStr "High") = true
  /\ exists pg',
       handle ev sample_page = (Normal tt, pg')
       /\ Permutation (tasks (manager pg'))
            (tasks (manager sample_page)
             ++ [created_task (manager sample_page) n
                   (VStr (String_trim "")) due (VStr "High")])
       /\ storage (manager pg') = saved_text (tasks (manager pg'))
       /\ page_ok pg'
       /\ addTaskModal_display pg' = "none"
       /\ selectedTaskId pg' = VNull.
Proof.
  intros P nameInput dueDateInput ev n due.
  assert (Hn : String_trim nameInput <> EmptyString) by discriminate.
  assert (Hd : dueDateInput <> EmptyString) by discriminate.
  split; [exact Hn|]. split; [exact Hd|]. split; [exact sample_page_ok|].
  split; [reflexivity|]. split; [reflexivity|].
  exact (proj1 (proj2 (@form_submit P sample_page nameInput ""
                         dueDateInput "High")
                  Hn Hd sample_page_ok)
           eq_refl eq_refl).
Defined.

(** ** Opening the page *)

(** The loader on the text [saveTasks] wrote for a storable collection. *)
Lemma loadTasks_saved `{Platform} (s : State) (l : list Task) :
  Forall (fun t => storable t = true) l ->
  round_trips_on l ->
  storage s = saved_text l ->
  loadTasks s = (Normal l, ticked s (List.length l)).
Proof.
  intros Hst [Hjson Hdate] Hs.
  assert (Hd : Forall (fun t => dated t = true) l).
  { revert Hst. apply Forall_impl. intros t Ht.
    unfold storable in Ht. unfold dated.
    rewrite !andb_true_iff in Ht. tauto. }
  apply records_of_dated in Hd.
  unfold saved_text in Hs.
  destruct (records_of l) as [rs|] eqn:Ers; [|congruence].
  destruct (Hjson rs eq_refl) as [Hne Hparse].
  simpl in Hs.
  unfold loadTasks, bind, localStorage_getItem. rewrite Hs.
  apply String.eqb_neq in Hne. rewrite Hne. simpl.
  unfold try_catch. rewrite Hparse. simpl.
  now rewrite (mapM_load_record l rs s Hst Hdate Ers).
Qed.

(** X20 (opening the page).  When storage holds what [saveTasks] wrote
    for a collection of tasks of the data model in key order, the script
    ends without an error with the manager holding that collection, the
    page showing it, and nothing selected or pending; on a first run,
    with nothing in storage, it ends with an empty collection, shown as
    such. *)
Theorem script_opens_page `{Platform} (pg : Page) :
  (forall l,
      Forall (fun t => well_formed t = true) l ->
      ordered l ->
      round_trips_on l ->
      storage (manager pg) = saved_text l ->
      exists pg',
        script pg = (Normal tt, pg')
        /\ tasks (manager pg') = l
        /\ page_ok pg'
        /\ storage (manager pg') = storage (manager pg)
        /\ selectedTaskId pg' = VNull
        /\ currentConfirmCallback pg' = None)
  /\ (storage (manager pg) = None ->
      exists pg',
        script pg = (Normal tt, pg')
        /\ tasks (manager pg') = []
        /\ page_ok pg'
        /\ upcomingTasksList pg' = [] /\ completedTasksList pg' = []
        /\ noUpcomingTasksMsg_hidden pg' = false
        /\ noCompletedTasksMsg_hidden pg' = false
        /\ progressText pg' = progress_message 0 0).
Proof.
  assert (Hgen : forall l st,
             Forall (fun t => well_formed t = true) l ->
             ordered l ->
             loadTasks (manager pg) = (Normal l, st) ->
             storage st = storage (manager pg) ->
             exists pg',
               script pg = (Normal tt, pg')
               /\ tasks (manager pg') = l
               /\ page_ok pg'
               /\ storage (manager pg') = storage (manager pg)
               /\ selectedTaskId pg' = VNull
               /\ currentConfirmCallback pg' = None
               /\ upcomingTasksList pg' = upcoming_of l
               /\ completedTasksList pg' = completed_of l
               /\ noUpcomingTasksMsg_hidden pg'
                  = existsb (fun t => negb (ToBoolean (isCompleted t))) l
               /\ noCompletedTasksMsg_hidden pg'
                  = existsb (fun t => ToBoolean (isCompleted t)) l
               /\ progressText pg'
                  = progress_message
                      (List.length
                         (filter (fun t => ToBoolean (isCompleted t)) l))
                      (List.length l)).
  { intros l st Hwf Ho Hload Hst.
    set (pg1 := snd (set_selectedTaskId VNull
                  (snd (set_currentConfirmCallback None
                          (set_manager pg (set_tasks st l)))))).
    assert (E : updateTaskListUI pg1 = (Normal tt, showing pg1 l)).
    { now apply (updateTaskListUI_ok pg1). }
    exists (showing pg1 l).
    split.
    { unfold script. unfold ubind at 1. unfold lift.
      unfold TaskManager_new, bind. rewrite Hload.
      cbn [put_tasks]. unfold ubind.
      cbn [set_currentConfirmCallback set_selectedTaskId].
      unfold pg1 in E.
      cbn [set_currentConfirmCallback set_selectedTaskId snd] in E.
      rewrite E. reflexivity. }
    split; [reflexivity|].
    split; [now apply page_ok_showing|].
    split; [exact Hst|].
    now repeat split. }
  split.
  - intros l Hwf Ho Hrt Hs.
    assert (Hst : Forall (fun t => storable t = true) l).
    { revert Hwf. apply Forall_impl. exact well_formed_storable. }
    destruct (Hgen l (ticked (manager pg) (List.length l)) Hwf Ho)
      as (pg' & E & Ht & Hok & Hsto & Hsel & Hcb & _).
    + now apply loadTasks_saved.
    + reflexivity.
    + exists pg'. split; [exact E|]. split; [exact Ht|].
      split; [exact Hok|]. now repeat split.
  - intros Hnone.
    destruct (Hgen [] (manager pg))
      as (pg' & E & Ht & Hok & _ & _ & _ & Hu & Hc & Hnu & Hnc & Hp).
    + constructor.
    + intros i a b Ha. destruct i; discriminate.
    + unfold loadTasks, bind, localStorage_getItem. now rewrite Hnone.
    + reflexivity.
    + exists pg'. split; [exact E|]. split; [exact Ht|].
      split; [exact Hok|]. now repeat split.
Qed.

Lemma script_opens_page_witness :
  let P := Host.ticking day2 in
  let written := snd (saveTasks sample_store) in
  let pg := blank_page (mkState [] (storage written) O [] []) in
  Forall (fun t => well_formed t = true) (tasks sample_store)
  /\ ordered (tasks sample_store)
  /\ round_trips_on (tasks sample_store)
  /\ storage (manager pg) = saved_text (tasks sample_store)
  /\ exists pg',
       script pg = (Normal tt, pg')
       /\ tasks (manager pg') = tasks sample_store
       /\ page_ok pg'
       /\ storage (manager pg') = storage (manager pg)
       /\ selectedTaskId pg' = VNull
       /\ currentConfirmCallback pg' = None.
Proof.
  intros P written pg.
  assert (Hwf : Forall (fun t => well_formed t = true) (tasks sample_store))
    by repeat constructor.
  assert (Ho : ordered (tasks sample_store)).
  { change (tasks sample_store)
      with (Array_sort SortCompare (tasks sample_store)).
    apply Array_sort_ordered. repeat constructor. }
  assert (Hs : storage (manager pg) = saved_text (tasks sample_store))
    by (vm_compute; reflexivity).
  split; [exact Hwf|]. split; [exact Ho|].
  split; [exact sample_store_round_trips|]. split; [exact Hs|].
  exact (proj1 (@script_opens_page P pg) (tasks sample_store)
           Hwf Ho sample_store_round_trips Hs).
Defined.
